(** * The tender pipeline: record store, ingestion gate, classification loop,
      notification dispatcher

    A shallow embedding of [src/db/db.py] (class [DB], the SQLite table
    [tenders]) and of [src/main.py] (class [TenderRepository] and the three
    workflow nodes), followed by the properties of the specification.

    Conventions of the embedding.
    - A Python [str] is a [string]; the text handled here is ASCII.  The
      parser of dates also reads decimal digits of other scripts, which this
      representation does not have: statements about the validation of dates
      carry the condition that the text is ASCII.
    - A value held by a column or bound to a [?] placeholder is a [value]:
      SQL NULL (Python [None]), an integer (Python [int], and [bool] as 0/1)
      or text.  The operations of the table store a value as it is given.
      SQLite does so for the values the program itself writes: text or NULL
      in the columns declared TEXT, validated dates and the empty text in
      the columns declared DATE, 0 and 1 in the column declared BOOLEAN, ids
      of 64 bits.  For other values it converts by column affinity, and
      Python refuses to bind an integer outside 64 bits; statements about
      arbitrary values carry the conditions under which the value is kept,
      defined under "What SQLite holds as it is given".
    - The table is the list of its rows in rowid order, which is the order in
      which SQLite scans it, together with the AUTOINCREMENT counter.
    - Python exceptions are the [Raise] outcome of a [result].  A failure of
      SQLite itself (file locked or unreadable) is an input of the model: a
      [fault] flag on the calls whose failure the program handles, and an
      [edge_fault] for the conditional edge of the graph, where the
      construction of the repository is not guarded.  The insert and the
      lookup of the ingestion loop have no such flag: their statements are
      about a store that answers.
    - The external collaborators (language model, Telegram, environment
      variables, clock) are inputs too; the limit that the graph library
      puts on the steps of a run is [recursion_limit]. *)

From Stdlib Require Import ZArith List String Ascii Bool Lia Arith DecimalString
  Permutation Sorted.
Import ListNotations.
Open Scope string_scope.
Open Scope list_scope.

(** ** Values, exceptions, results *)

Inductive value : Type :=
| VNull
| VInt (n : Z)
| VText (s : string).

Inductive exn : Type :=
| ValueError (msg : string)
| KeyError (key : string)
| IntegrityError (msg : string)
| OperationalError
| ValidationError
| ClassifierError (msg : string)
| GraphRecursionError.

Inductive result (A : Type) : Type :=
| Ok (a : A)
| Raise (e : exn).

Arguments Ok {A} a.
Arguments Raise {A} e.

(** SQL [a = b] in a WHERE clause: the row is kept only when the comparison
    is true, which it never is against NULL or across storage classes. *)
Definition sql_eq (a b : value) : bool :=
  match a, b with
  | VInt m, VInt n => Z.eqb m n
  | VText s, VText t => String.eqb s t
  | _, _ => false
  end.

(** The order of ORDER BY: NULL, then integers, then text compared byte by
    byte. *)
Definition value_compare (a b : value) : comparison :=
  match a, b with
  | VNull, VNull => Eq
  | VNull, _ => Lt
  | _, VNull => Gt
  | VInt m, VInt n => Z.compare m n
  | VInt _, VText _ => Lt
  | VText _, VInt _ => Gt
  | VText s, VText t => String.compare s t
  end.

Definition is_null (v : value) : bool :=
  match v with VNull => true | _ => false end.

(** Python [x in xs] on a list of strings. *)
Definition str_in (x : string) (xs : list string) : bool :=
  existsb (String.eqb x) xs.

(** Membership of an identifier in a list of identifiers. *)
Definition id_in (x : Z) (xs : list Z) : bool :=
  existsb (Z.eqb x) xs.

(** ** [db.py]: the table and its operations *)

Module DB.

(** One row of [tenders], column by column. *)
Record row : Type := mkrow {
  id : Z;
  title : value;
  organization : value;
  posted_date : value;
  closing_date : value;
  location : value;
  url : value;
  source : value;
  tender_content : value;
  created_at : value;
  state : value;
  is_sent : value
}.

(** The table: rows in rowid order and the AUTOINCREMENT counter. *)
Record t : Type := mk {
  tenders : list row;
  sequence : Z
}.

Definition empty : t := mk [] 0.

(** The values admitted by the CHECK constraint of column [state]. *)
Definition states : list string :=
  ["waiting_for_filtering"; "qualified"; "unqualified"; "notified"].

(** [CHECK(state IN (...))] fails only when the test is false; on NULL it
    is unknown and the row is accepted. *)
Definition check_state (v : value) : bool :=
  match v with
  | VNull => true
  | VInt _ => false
  | VText s => str_in s states
  end.

Definition max_id (rows : list row) : Z :=
  fold_right (fun r m => Z.max (id r) m) 0%Z rows.

(** AUTOINCREMENT: one more than the largest rowid ever used. *)
Definition next_id (db : t) : Z :=
  (Z.max (sequence db) (max_id (tenders db)) + 1)%Z.

(** [insert_tender]: the eight given columns, the defaults for [state],
    [is_sent] and [created_at] ([now] is CURRENT_TIMESTAMP), a fresh id.
    [title] is NOT NULL.  The values are stored as they are given and the
    ids are not bounded: see the conventions above for the values and the
    tables of which this is what SQLite does. *)
Definition insert_tender (now : string)
    (tender : value * value * value * value * value * value * value * value)
    (db : t) : result unit * t :=
  let '(ti, org, pd, cd, loc, u, src, tc) := tender in
  if is_null ti
  then (Raise (IntegrityError "NOT NULL constraint failed: tenders.title"), db)
  else
    let i := next_id db in
    (Ok tt,
     mk (tenders db ++
           [mkrow i ti org pd cd loc u src tc (VText now)
                  (VText "waiting_for_filtering") (VInt 0)])
        i).

Definition state_is (st : string) (r : row) : bool :=
  sql_eq (state r) (VText st).

(** [count_tenders_by_state]: COUNT of the rows in the state; 0 when
    SQLite fails. *)
Definition count_tenders_by_state (fault : bool) (st : string) (db : t) : nat :=
  if fault then 0
  else List.length (filter (state_is st) (tenders db)).

(** [LIMIT ?]: Python adds the clause only for a truthy limit; SQLite
    reads a negative limit as no limit.  The program passes 8; a limit
    outside 64 bits, which could not be bound, is not distinguished. *)
Definition apply_limit (limit : option Z) (rows : list row) : list row :=
  match limit with
  | None => rows
  | Some n => if (n <=? 0)%Z then rows else firstn (Z.to_nat n) rows
  end.

(** [get_tenders_by_state]: the rows in the state, at most [limit] of
    them; the empty list when SQLite fails. *)
Definition get_tenders_by_state (fault : bool) (st : string)
    (limit : option Z) (db : t) : list row :=
  if fault then []
  else apply_limit limit (filter (state_is st) (tenders db)).

(** The field names [update_tender_field] accepts. *)
Definition whitelist : list string :=
  ["title"; "organization"; "posted_date"; "closing_date";
   "location"; "url"; "source"; "tender_content"; "state"; "is_sent"].

(** [SET field = v] on one row. *)
Definition set_field (field : string) (v : value) (r : row) : row :=
  let '(mkrow i ti org pd cd loc u src tc ca st snt) := r in
  if field =? "title" then mkrow i v org pd cd loc u src tc ca st snt
  else if field =? "organization" then mkrow i ti v pd cd loc u src tc ca st snt
  else if field =? "posted_date" then mkrow i ti org v cd loc u src tc ca st snt
  else if field =? "closing_date" then mkrow i ti org pd v loc u src tc ca st snt
  else if field =? "location" then mkrow i ti org pd cd v u src tc ca st snt
  else if field =? "url" then mkrow i ti org pd cd loc v src tc ca st snt
  else if field =? "source" then mkrow i ti org pd cd loc u v tc ca st snt
  else if field =? "tender_content" then mkrow i ti org pd cd loc u src v ca st snt
  else if field =? "state" then mkrow i ti org pd cd loc u src tc ca v snt
  else if field =? "is_sent" then mkrow i ti org pd cd loc u src tc ca st v
  else r.

(** The constraints of the table that a new value of [field] can break. *)
Definition violates (field : string) (v : value) : bool :=
  ((field =? "title") && is_null v)
  || ((field =? "state") && negb (check_state v)).

Definition has_id (tender_id : Z) (r : row) : bool :=
  Z.eqb (id r) tender_id.

(** [UPDATE tenders SET field = ? WHERE id = ?] and its rowcount. *)
Definition update_rows (tender_id : Z) (field : string) (v : value)
    (rows : list row) : list row :=
  map (fun r => if has_id tender_id r then set_field field v r else r) rows.

Definition rowcount (tender_id : Z) (rows : list row) : nat :=
  List.length (filter (has_id tender_id) rows).

(** [update_tender_field]: the whitelist test comes first and raises
    ValueError; then the statement runs, and raises when SQLite fails or
    when a matched row would break a constraint (the statement then changes
    nothing); the answer is whether a row was matched.  The table after
    the call is returned next to the outcome.  The value is stored as it is
    given, and the id and the value are taken to be within 64 bits: see the
    conventions above. *)
Definition update_tender_field (fault : bool) (tender_id : Z)
    (field : string) (v : value) (db : t) : result bool * t :=
  if negb (str_in field whitelist) then (Raise (ValueError "Invalid field name"), db)
  else if fault then (Raise OperationalError, db)
  else
    let n := rowcount tender_id (tenders db) in
    if (0 <? n)%nat && violates field v
    then (Raise (IntegrityError "constraint failed"), db)
    else (Ok (0 <? n)%nat,
          mk (update_rows tender_id field v (tenders db)) (sequence db)).

(** [tender_exists]: is there a row with this title and posted date?  The
    two are compared as they are given, as SQLite does for a posted date
    that does not read as a number. *)
Definition tender_exists (ti pd : value) (db : t) : bool :=
  (0 <? List.length (filter (fun r => sql_eq (title r) ti && sql_eq (posted_date r) pd)
                      (tenders db)))%nat.

(** ORDER BY posted_date DESC, as a stable insertion sort. *)
Fixpoint insert_desc (r : row) (rows : list row) : list row :=
  match rows with
  | [] => [r]
  | r' :: rest =>
      match value_compare (posted_date r) (posted_date r') with
      | Lt => r' :: insert_desc r rest
      | _ => r :: r' :: rest
      end
  end.

Definition order_by_posted_date_desc (rows : list row) : list row :=
  fold_right insert_desc [] rows.

(** [get_tenders_by_state_and_sent]: the rows in the state with the given
    sent flag, latest posted first; the empty list on any failure. *)
Definition get_tenders_by_state_and_sent (fault : bool) (st : string)
    (sent : bool) (db : t) : list row :=
  if fault then []
  else
    order_by_posted_date_desc
      (filter (fun r => state_is st r
                        && sql_eq (is_sent r) (VInt (if sent then 1 else 0)))
              (tenders db)).

End DB.

(** ** [main.py]: the data model *)

(** The pydantic model [Tender]. *)
Module Tender.

Record t : Type := mk {
  id : Z;
  title : string;
  organization : string;
  posted_date : string;
  closing_date : string;
  location : string;
  url : string;
  source : string;
  tender_content : string;
  state : string;
  is_sent : bool
}.

End Tender.

(** A scraped tender: the dictionary a scraper returns, read with [.get],
    which answers [None] both for a key that is absent and for a key that
    holds [None].  The loop reads the title with a subscript as well: there
    an absent key raises KeyError, while a key that holds [None] passes and
    the insert then refuses the NULL title with IntegrityError.  The two are
    one [None] here and the subscript is modelled on the absent key; either
    way the loop is left by an exception at that tender, with the table as
    it was. *)
Module Scraped.

Record t : Type := mk {
  title : option string;
  organization : option string;
  posted_date : option string;
  closing_date : option string;
  location : option string;
  url : option string;
  source : option string;
  tender_content : option string
}.

End Scraped.

(** [d.get(key)] as a value bound to a placeholder. *)
Definition to_value (o : option string) : value :=
  match o with
  | None => VNull
  | Some s => VText s
  end.

(** ** Effects: the store, the printed lines, exceptions *)

(** The lines the workflow nodes print, as events. *)
Inductive event : Type :=
| InvalidPostedDate (d : option string)
| InvalidClosingDate (d : option string)
| Added (n : nat)
| ProcessingBatch (n : nat)
| NoTendersToProcess
| InvokingLLM (batch : list Z)
| FoundQualified (n : nat)
| MarkedAs (tender_id : Z) (new_state : string)
| Remaining (n : nat)
| FoundToNotify (n : nat)
| NothingToNotify
| Sending (tender_id : Z)
| SentOk (tender_id : Z)
| MarkedSent (tender_id : Z)
| SendFailed (tender_id : Z)
| ErrorProcessing (tender_id : Z) (e : exn)
| NotifierError (e : exn).

Record world : Type := mkworld {
  store : DB.t;
  log : list event
}.

(** A computation reads and writes the world and returns or raises; the
    world at the moment of a [Raise] is kept. *)
Definition M (A : Type) : Type := world -> result A * world.

Definition ret {A} (a : A) : M A := fun w => (Ok a, w).

Definition bind {A B} (c : M A) (k : A -> M B) : M B :=
  fun w =>
    match c w with
    | (Ok a, w') => k a w'
    | (Raise e, w') => (Raise e, w')
    end.

Definition raise {A} (e : exn) : M A := fun w => (Raise e, w).

(** [try: c except Exception as e: h e]. *)
Definition catch {A} (c : M A) (h : exn -> M A) : M A :=
  fun w =>
    match c w with
    | (Ok a, w') => (Ok a, w')
    | (Raise e, w') => h e w'
    end.

Definition lift {A} (r : result A) : M A := fun w => (r, w).

Definition emit (e : event) : M unit :=
  fun w => (Ok tt, mkworld (store w) (log w ++ [e])).

(** A call that reads the table. *)
Definition db_read {A} (f : DB.t -> A) : M A :=
  fun w => (Ok (f (store w)), w).

(** A call that may change the table and may raise. *)
Definition db_call {A} (f : DB.t -> result A * DB.t) : M A :=
  fun w => let '(r, db') := f (store w) in (r, mkworld db' (log w)).

Notation "x <- c1 ;; c2" := (bind c1 (fun x => c2))
  (at level 61, c1 at next level, right associativity).
Notation "c1 ;; c2" := (bind c1 (fun _ => c2))
  (at level 61, right associativity).

(** [for x in xs: body x]; an exception leaves the loop. *)
Fixpoint for_each {A} (xs : list A) (body : A -> M unit) : M unit :=
  match xs with
  | [] => ret tt
  | x :: rest => body x ;; for_each rest body
  end.

(** ** [main.py]: [TenderRepository] *)

Module Repo.

(** [str(x)] of a column value. *)
Definition py_str (v : value) : string :=
  match v with
  | VNull => "None"
  | VInt n => NilZero.string_of_int (Z.to_int n)
  | VText s => s
  end.

(** Validation of a [str] field of the model: text is accepted, NULL and
    an integer are reported as a validation error. *)
Definition as_str (v : value) : result string :=
  match v with
  | VText s => Ok s
  | _ => Raise ValidationError
  end.

(** ASCII lower case. *)
Definition lower_ascii (c : ascii) : ascii :=
  if (nat_of_ascii "A" <=? nat_of_ascii c)%nat && (nat_of_ascii c <=? nat_of_ascii "Z")%nat
  then ascii_of_nat (nat_of_ascii c + 32)
  else c.

Fixpoint lower (s : string) : string :=
  match s with
  | EmptyString => EmptyString
  | String c rest => String (lower_ascii c) (lower rest)
  end.

(** The texts that the [bool] field of the model takes for a flag,
    whatever their case. *)
Definition false_texts : list string := ["0"; "off"; "f"; "false"; "n"; "no"].

Definition true_texts : list string := ["1"; "on"; "t"; "true"; "y"; "yes"].

(** Validation of the [bool] field of the model: the integers 0 and 1 and
    the texts above are accepted; NULL, any other integer and any other text
    are reported as a validation error. *)
Definition as_bool (v : value) : result bool :=
  match v with
  | VInt 0 => Ok false
  | VInt 1 => Ok true
  | VText s =>
      if str_in (lower s) false_texts then Ok false
      else if str_in (lower s) true_texts then Ok true
      else Raise ValidationError
  | _ => Raise ValidationError
  end.

Definition and_then {A B} (r : result A) (k : A -> result B) : result B :=
  match r with
  | Ok a => k a
  | Raise e => Raise e
  end.

(** [_convert_to_tender]: the three columns passed through [str] always
    convert; the others are validated by the model. *)
Definition _convert_to_tender (raw_tender : DB.row) : result Tender.t :=
  and_then (as_str (DB.title raw_tender)) (fun ti =>
  and_then (as_str (DB.organization raw_tender)) (fun org =>
  and_then (as_str (DB.location raw_tender)) (fun loc =>
  and_then (as_str (DB.url raw_tender)) (fun u =>
  and_then (as_str (DB.source raw_tender)) (fun src =>
  and_then (as_str (DB.state raw_tender)) (fun st =>
  and_then (as_bool (DB.is_sent raw_tender)) (fun snt =>
  Ok (Tender.mk (DB.id raw_tender) ti org
        (py_str (DB.posted_date raw_tender))
        (py_str (DB.closing_date raw_tender))
        loc u src
        (py_str (DB.tender_content raw_tender))
        st snt)))))))).

(** The list comprehension over the raw rows: the first row that does not
    validate raises. *)
Fixpoint convert_all (raw_tenders : list DB.row) : result (list Tender.t) :=
  match raw_tenders with
  | [] => Ok []
  | r :: rest =>
      and_then (_convert_to_tender r) (fun x =>
      and_then (convert_all rest) (fun xs => Ok (x :: xs)))
  end.

(** [fetch_waiting_tenders]: any exception gives the empty list. *)
Definition fetch_waiting_tenders (fault : bool) (limit : Z) : M (list Tender.t) :=
  catch
    (raw_tenders <- db_read (DB.get_tenders_by_state fault "waiting_for_filtering"
                               (Some limit)) ;;
     lift (convert_all raw_tenders))
    (fun e => ret []).

(** [count_waiting_tenders]. *)
Definition count_waiting_tenders (fault : bool) : M nat :=
  catch
    (db_read (DB.count_tenders_by_state fault "waiting_for_filtering"))
    (fun e => ret 0).

(** [update_tender_state]: an update that matched no row, and an
    exception, are printed by the repository and nothing else happens. *)
Definition update_tender_state (fault : bool) (tender_id : Z)
    (new_state : string) : M unit :=
  catch
    (updated <- db_call (DB.update_tender_field fault tender_id "state"
                           (VText new_state)) ;;
     ret tt)
    (fun e => ret tt).

(** [insert_new_tender]: the tuple is read from the dictionary with
    [.get]; an exception of the insert is not handled here. *)
Definition insert_new_tender (now : string) (tender_json : Scraped.t) : M unit :=
  db_call (DB.insert_tender now
             (to_value (Scraped.title tender_json),
              to_value (Scraped.organization tender_json),
              to_value (Scraped.posted_date tender_json),
              to_value (Scraped.closing_date tender_json),
              to_value (Scraped.location tender_json),
              to_value (Scraped.url tender_json),
              to_value (Scraped.source tender_json),
              to_value (Scraped.tender_content tender_json))).

(** [tender_exists]. *)
Definition tender_exists (ti posted : string) : M bool :=
  db_read (DB.tender_exists (VText ti) (VText posted)).

(** [fetch_qualified_unsent_tenders]: any exception gives the empty
    list. *)
Definition fetch_qualified_unsent_tenders (fault : bool) : M (list Tender.t) :=
  catch
    (raw_tenders <- db_read (DB.get_tenders_by_state_and_sent fault "qualified"
                               false) ;;
     lift (convert_all raw_tenders))
    (fun e => ret []).

(** [mark_tender_as_sent]: an update that matched no row, and an
    exception, are printed by the repository and nothing else happens. *)
Definition mark_tender_as_sent (fault : bool) (tender_id : Z) : M unit :=
  catch
    (updated <- db_call (DB.update_tender_field fault tender_id "is_sent"
                           (VInt 1)) ;;
     ret tt)
    (fun e => ret tt).

End Repo.

(** ** [main.py]: [is_valid_date]

    [datetime.strptime(date_str, '%Y-%m-%d')] belongs to the Python library.
    It compiles the format into the regular expression
    [(\d\d\d\d)-(1[0-2]|0[1-9]|[1-9])-(3[0-1]|[1-2]\d|0[1-9]|[1-9]| [1-9])],
    matches it at the start of the text, raises ValueError when it does not
    match or when text remains after the match, and then builds the date,
    which raises ValueError for year 0 and for a day the month does not
    have.  The leading zero of month and day is optional, as the library
    documents.  A digit is one of the ten ASCII digits. *)

Definition in_range (lo hi c : ascii) : bool :=
  (nat_of_ascii lo <=? nat_of_ascii c)%nat && (nat_of_ascii c <=? nat_of_ascii hi)%nat.

Definition is_digit (c : ascii) : bool := in_range "0" "9" c.

Definition digit (c : ascii) : nat := nat_of_ascii c - nat_of_ascii "0".

(** Ordered alternation: the second branch is tried when the first fails. *)
Definition orelse {A} (x y : option A) : option A :=
  match x with
  | Some a => Some a
  | None => y
  end.

(** [(?P<Y>\d\d\d\d)] followed by the rest of the expression [k]. *)
Definition re_year {A} (s : string) (k : nat -> string -> option A) : option A :=
  match s with
  | String a (String b (String c (String d rest))) =>
      if is_digit a && is_digit b && is_digit c && is_digit d
      then k (1000 * digit a + 100 * digit b + 10 * digit c + digit d)%nat rest
      else None
  | _ => None
  end.

(** A literal character of the format. *)
Definition re_char {A} (ch : ascii) (s : string) (k : string -> option A) : option A :=
  match s with
  | String a rest => if Ascii.eqb a ch then k rest else None
  | EmptyString => None
  end.

(** [(?P<m>1[0-2]|0[1-9]|[1-9])]. *)
Definition re_month {A} (s : string) (k : nat -> string -> option A) : option A :=
  orelse
    (match s with
     | String a (String b rest) =>
         if Ascii.eqb a "1" && in_range "0" "2" b then k (10 + digit b)%nat rest else None
     | _ => None
     end)
    (orelse
       (match s with
        | String a (String b rest) =>
            if Ascii.eqb a "0" && in_range "1" "9" b then k (digit b) rest else None
        | _ => None
        end)
       (match s with
        | String a rest => if in_range "1" "9" a then k (digit a) rest else None
        | _ => None
        end)).

(** [(?P<d>3[0-1]|[1-2]\d|0[1-9]|[1-9]| [1-9])]. *)
Definition re_day {A} (s : string) (k : nat -> string -> option A) : option A :=
  orelse
    (match s with
     | String a (String b rest) =>
         if Ascii.eqb a "3" && in_range "0" "1" b then k (30 + digit b)%nat rest else None
     | _ => None
     end)
    (orelse
       (match s with
        | String a (String b rest) =>
            if in_range "1" "2" a && is_digit b
            then k (10 * digit a + digit b)%nat rest else None
        | _ => None
        end)
       (orelse
          (match s with
           | String a (String b rest) =>
               if Ascii.eqb a "0" && in_range "1" "9" b then k (digit b) rest else None
           | _ => None
           end)
          (orelse
             (match s with
              | String a rest => if in_range "1" "9" a then k (digit a) rest else None
              | _ => None
              end)
             (match s with
              | String a (String b rest) =>
                  if Ascii.eqb a " " && in_range "1" "9" b then k (digit b) rest else None
              | _ => None
              end)))).

(** The match of the whole expression at the start of the text: the three
    numbers and the text left after the match. *)
Definition re_match_ymd (s : string) : option (nat * nat * nat * string) :=
  re_year s (fun y s1 =>
  re_char "-" s1 (fun s2 =>
  re_month s2 (fun m s3 =>
  re_char "-" s3 (fun s4 =>
  re_day s4 (fun d rest => Some (y, m, d, rest)))))).

Definition is_leap (y : nat) : bool :=
  (y mod 4 =? 0)%nat && (negb (y mod 100 =? 0)%nat || (y mod 400 =? 0)%nat).

Definition days_in_month (y m : nat) : nat :=
  match m with
  | 2 => if is_leap y then 29 else 28
  | 4 | 6 | 9 | 11 => 30
  | _ => 31
  end.

(** [datetime.date(y, m, d)] accepts the triple. *)
Definition date_ok (y m d : nat) : bool :=
  (1 <=? y)%nat && (1 <=? m)%nat && (m <=? 12)%nat
  && (1 <=? d)%nat && (d <=? days_in_month y m)%nat.

(** [datetime.strptime(s, '%Y-%m-%d')]: the date, or ValueError. *)
Definition strptime_ymd (s : string) : result (nat * nat * nat) :=
  match re_match_ymd s with
  | None => Raise (ValueError "time data does not match format")
  | Some (y, m, d, rest) =>
      if negb (rest =? "") then Raise (ValueError "unconverted data remains")
      else if date_ok y m d then Ok (y, m, d)
      else Raise (ValueError "day is out of range for month")
  end.

(** [is_valid_date]: a missing or empty value is not a date; otherwise the
    value is a date when [strptime] returns. *)
Definition is_valid_date (date_str : option string) : bool :=
  match date_str with
  | None => false
  | Some s =>
      if s =? "" then false
      else match strptime_ymd s with
           | Ok _ => true
           | Raise _ => false
           end
  end.

(** The strict form the specification names: four digits, a dash, two
    digits, a dash, two digits, and nothing else. *)
Definition strict_yyyy_mm_dd (s : string) : bool :=
  match s with
  | String y1 (String y2 (String y3 (String y4 (String h1
      (String m1 (String m2 (String h2 (String d1 (String d2 EmptyString))))))))) =>
      is_digit y1 && is_digit y2 && is_digit y3 && is_digit y4
      && Ascii.eqb h1 "-" && is_digit m1 && is_digit m2
      && Ascii.eqb h2 "-" && is_digit d1 && is_digit d2
  | _ => false
  end.

(** ** [main.py]: the scraper's ingestion loop *)

(** The value a date key holds after the two [if not is_valid_date] tests. *)
Definition sanitize (d : option string) : option string :=
  if is_valid_date d then d else Some "".

(** The dictionary after both assignments. *)
Definition sanitized (tender : Scraped.t) : Scraped.t :=
  Scraped.mk (Scraped.title tender) (Scraped.organization tender)
    (sanitize (Scraped.posted_date tender))
    (sanitize (Scraped.closing_date tender))
    (Scraped.location tender) (Scraped.url tender) (Scraped.source tender)
    (Scraped.tender_content tender).

Definition when (b : bool) (c : M unit) : M unit :=
  if b then c else ret tt.

(** [d['key']] on a present key; KeyError on an absent one. *)
Definition subscript (key : string) (o : option string) : M string :=
  match o with
  | Some s => ret s
  | None => raise (KeyError key)
  end.

(** One turn of the loop of [process_scraped_tenders]; the answer is whether
    the tender was inserted. *)
Definition process_one (now : string) (tender : Scraped.t) : M bool :=
  when (negb (is_valid_date (Scraped.posted_date tender)))
       (emit (InvalidPostedDate (Scraped.posted_date tender))) ;;
  when (negb (is_valid_date (Scraped.closing_date tender)))
       (emit (InvalidClosingDate (Scraped.closing_date tender))) ;;
  let tender' := sanitized tender in
  ti <- subscript "title" (Scraped.title tender') ;;
  pd <- subscript "posted_date" (Scraped.posted_date tender') ;;
  found <- Repo.tender_exists ti pd ;;
  if negb found
  then Repo.insert_new_tender now tender' ;; ret true
  else ret false.

Fixpoint process_from (now : string) (tenders : list Scraped.t)
    (new_tenders : nat) : M nat :=
  match tenders with
  | [] => ret new_tenders
  | tender :: rest =>
      inserted <- process_one now tender ;;
      process_from now rest (if inserted then S new_tenders else new_tenders)
  end.

(** [process_scraped_tenders]. *)
Definition process_scraped_tenders (now : string) (tenders : list Scraped.t) : M unit :=
  new_tenders <- process_from now tenders 0 ;;
  emit (Added new_tenders).

(** ** [main.py]: the classification node and its loop *)

(** What SQLite does at the conditional edge that follows an execution of
    the node.  The edge builds a repository of its own, and the constructor
    connects and runs CREATE TABLE IF NOT EXISTS outside any [try]: a
    failure there raises out of the edge.  A failure of the count that
    follows is caught by the repository. *)
Inductive edge_fault : Type :=
| NoFault
| OpenFails
| CountFails.

(** What one execution of the node meets outside the program: whether
    SQLite fails on the fetch, on the update of a given tender, at the
    conditional edge that follows, and what the language model answers for a
    batch (a listing of tenders, or an exception). *)
Record filter_env : Type := mk_filter_env {
  fetch_fault : bool;
  llm_invoke : list Tender.t -> result (list Tender.t);
  update_fault : Z -> bool;
  count_fault : edge_fault
}.

(** [any(qt.id == tender.id for qt in qualified_tenders.tenders)]. *)
Definition is_qualified (qualified_tenders : list Tender.t) (tender : Tender.t) : bool :=
  existsb (fun qt => Z.eqb (Tender.id qt) (Tender.id tender)) qualified_tenders.

Definition new_state (qualified_tenders : list Tender.t) (tender : Tender.t) : string :=
  if is_qualified qualified_tenders tender then "qualified" else "unqualified".

(** [tender_filter_node]. *)
Definition tender_filter_node (env : filter_env) : M unit :=
  waiting_tenders <- Repo.fetch_waiting_tenders (fetch_fault env) 8 ;;
  emit (ProcessingBatch (List.length waiting_tenders)) ;;
  match waiting_tenders with
  | [] => emit NoTendersToProcess
  | _ =>
      emit (InvokingLLM (map Tender.id waiting_tenders)) ;;
      qualified_tenders <- lift (llm_invoke env waiting_tenders) ;;
      emit (FoundQualified (List.length qualified_tenders)) ;;
      for_each waiting_tenders (fun tender =>
        Repo.update_tender_state (update_fault env (Tender.id tender))
          (Tender.id tender) (new_state qualified_tenders tender) ;;
        emit (MarkedAs (Tender.id tender) (new_state qualified_tenders tender)))
  end.

(** [TenderRepository()]: the constructor of [DB], which creates the table
    when it is missing and leaves an existing table as it is. *)
Definition open_repository (fault : edge_fault) : M unit :=
  match fault with
  | OpenFails => raise OperationalError
  | _ => ret tt
  end.

Definition count_fails (fault : edge_fault) : bool :=
  match fault with
  | CountFails => true
  | _ => false
  end.

(** [should_continue_filtering]: [true] is the edge back to the node,
    [false] the edge to the notifier. *)
Definition should_continue_filtering (env : filter_env) : M bool :=
  open_repository (count_fault env) ;;
  remaining_tenders <- Repo.count_waiting_tenders (count_fails (count_fault env)) ;;
  emit (Remaining remaining_tenders) ;;
  ret (0 <? remaining_tenders)%nat.

(** The cycle of the graph: the node, then the conditional edge; an
    exception of either ends the run.  [envs k] is what execution number
    [k] of the node meets.  The cycle is unfolded [fuel] times; [None] is a
    cycle that is still going when the fuel is spent. *)
Fixpoint filter_loop (fuel : nat) (envs : nat -> filter_env) (k : nat)
    : world -> option (result unit) * world :=
  fun w =>
    match fuel with
    | O => (None, w)
    | S fuel' =>
        match tender_filter_node (envs k) w with
        | (Raise e, w1) => (Some (Raise e), w1)
        | (Ok _, w1) =>
            match should_continue_filtering (envs k) w1 with
            | (Raise e, w2) => (Some (Raise e), w2)
            | (Ok true, w2) => filter_loop fuel' envs (S k) w2
            | (Ok false, w2) => (Some (Ok tt), w2)
            end
        end
    end.

(** The graph library ends a run that has taken [recursion_limit] steps
    without reaching the end: [app.invoke], called without a configuration,
    allows 25.  The scraper node takes the first of them and every
    execution of the filter node one more, so that the cycle can be entered
    [rounds_allowed] times. *)
Definition recursion_limit : nat := 25.

Definition rounds_allowed : nat := recursion_limit - 1.

(** The classification stage of a run: the cycle, from the first execution
    of the node, within the steps the graph library allows.  A cycle that is
    still going after them ends the run with GraphRecursionError.  [Ok] is
    the conditional edge taken to the notifier; the steps that the graph
    library still needs from there on are not part of this stage. *)
Definition classification (envs : nat -> filter_env) : M unit :=
  fun w =>
    match filter_loop rounds_allowed envs 0 w with
    | (Some r, w') => (r, w')
    | (None, w') => (Raise GraphRecursionError, w')
    end.

(** ** [main.py]: the notification node *)

(** What one run of the notifier meets outside the program: whether SQLite
    fails on the query and on the update of a given tender, the value of
    TELEGRAM_CHAT_ID, and what the Telegram tool does with the message of a
    tender (the [success] entry of its answer, or an exception). *)
Record notify_env : Type := mk_notify_env {
  query_fault : bool;
  chat_id : option string;
  telegram_run : Tender.t -> result bool;
  mark_fault : Z -> bool
}.

(** [_send_tender_notifications]. *)
Definition _send_tender_notifications (env : notify_env)
    (tenders : list Tender.t) : M unit :=
  match chat_id env with
  | None => raise (ValueError "TELEGRAM_CHAT_ID environment variable is not set")
  | Some c =>
      if c =? ""
      then raise (ValueError "TELEGRAM_CHAT_ID environment variable is not set")
      else
        for_each tenders (fun tender =>
          catch
            (emit (Sending (Tender.id tender)) ;;
             success <- lift (telegram_run env tender) ;;
             if (success : bool)
             then
               emit (SentOk (Tender.id tender)) ;;
               Repo.mark_tender_as_sent (mark_fault env (Tender.id tender))
                 (Tender.id tender) ;;
               emit (MarkedSent (Tender.id tender))
             else emit (SendFailed (Tender.id tender)))
            (fun e => emit (ErrorProcessing (Tender.id tender) e)))
  end.

(** [notification_node]. *)
Definition notification_node (env : notify_env) : M unit :=
  catch
    (qualified_tenders <- Repo.fetch_qualified_unsent_tenders (query_fault env) ;;
     emit (FoundToNotify (List.length qualified_tenders)) ;;
     match qualified_tenders with
     | [] => emit NothingToNotify
     | _ => _send_tender_notifications env qualified_tenders
     end)
    (fun e => emit (NotifierError e)).

(** The tenders a run tried to send, in order. *)
Definition sends (l : list event) : list Z :=
  flat_map (fun e => match e with Sending i => [i] | _ => [] end) l.

(** The batches a run submitted to the language model, in order. *)
Definition invocations (l : list event) : list (list Z) :=
  flat_map (fun e => match e with InvokingLLM b => [b] | _ => [] end) l.

(** The state transitions a run announced, in order. *)
Definition marks (l : list event) : list (Z * string) :=
  flat_map (fun e => match e with MarkedAs i s => [(i, s)] | _ => [] end) l.

(** Running a computation on a store, with an empty log. *)
Definition run {A} (c : M A) (db : DB.t) : result A * world :=
  c (mkworld db []).

(** ** Sample data *)

(** A row as the ingestion loop creates it, then possibly moved to another
    state and marked as sent. *)
Definition sample_row (i : Z) (ti posted st : string) (sent : Z) : DB.row :=
  DB.mkrow i (VText ti) (VText "Ministry of Works") (VText posted)
    (VText "2024-03-01") (VText "Kenya") (VText "https://example.org/t")
    (VText "globaltenders.com") (VText "supply of software") 
    (VText "2024-01-11 08:00:00") (VText st) (VInt sent).

(** A scraped tender with every key present. *)
Definition sample_scraped (ti posted closing : string) : Scraped.t :=
  Scraped.mk (Some ti) (Some "Ministry of Works") (Some posted) (Some closing)
    (Some "Kenya") (Some "https://example.org/t") (Some "globaltenders.com")
    (Some "supply of software").

(** A table with one waiting tender. *)
Definition one_waiting : DB.t :=
  DB.mk [sample_row 1 "Build ERP" "2024-01-10" "waiting_for_filtering" 0] 1.

(** ** Readings of the specification that the code does not meet *)

(** The statement of C5 read over every value that SQLite can hold: on an
    available store, a whitelisted field always gives an answer, true
    exactly for a known id. *)
Definition update_answers_for_every_value : Prop :=
  forall (i : Z) (field : string) (v : value) (db : DB.t),
    str_in field DB.whitelist = true ->
    (- 2 ^ 63 <= i < 2 ^ 63)%Z ->
    exists b db',
      DB.update_tender_field false i field v db = (Ok b, db')
      /\ (b = true <-> exists r, In r (DB.tenders db) /\ DB.id r = i).

(** A table with two waiting tenders and one that is already qualified. *)
Definition three_tenders : DB.t :=
  DB.mk [sample_row 1 "Build ERP" "2024-01-10" "waiting_for_filtering" 0;
         sample_row 2 "Supply of cement" "2024-01-09" "waiting_for_filtering" 0;
         sample_row 3 "CRM rollout" "2024-01-08" "qualified" 0] 3.

(** A listing as the model returns it, reduced to its ids. *)
Definition listing_of (ids : list Z) : list Tender.t :=
  map (fun i => Tender.mk i "" "" "" "" "" "" "" "" "qualified" false) ids.

(** An execution in which nothing fails and the model returns the given
    ids, whatever the batch. *)
Definition answering (ids : list Z) : filter_env :=
  mk_filter_env false (fun _ => Ok (listing_of ids)) (fun _ => false) NoFault.

(** A table of [n] tenders, all waiting. *)
Definition many_waiting (n : nat) : DB.t :=
  DB.mk (map (fun i => sample_row (Z.of_nat i) "Build ERP" "2024-01-10"
                         "waiting_for_filtering" 0)
             (seq 1 n))
        (Z.of_nat n).

(** ** Vocabulary of the statements *)

(** The text a date key holds after validation. *)
Definition date_text (d : option string) : string :=
  match sanitize d with
  | Some s => s
  | None => ""
  end.

(** The row that the insert of a validated scraped tender appends. *)
Definition ingested_row (now : string) (i : Z) (tender : Scraped.t) : DB.row :=
  DB.mkrow i
    (to_value (Scraped.title tender))
    (to_value (Scraped.organization tender))
    (VText (date_text (Scraped.posted_date tender)))
    (VText (date_text (Scraped.closing_date tender)))
    (to_value (Scraped.location tender))
    (to_value (Scraped.url tender))
    (to_value (Scraped.source tender))
    (to_value (Scraped.tender_content tender))
    (VText now) (VText "waiting_for_filtering") (VInt 0).

(** The lines one turn of the ingestion loop prints. *)
Definition date_events (tender : Scraped.t) : list event :=
  (if is_valid_date (Scraped.posted_date tender) then []
   else [InvalidPostedDate (Scraped.posted_date tender)])
  ++ (if is_valid_date (Scraped.closing_date tender) then []
      else [InvalidClosingDate (Scraped.closing_date tender)]).

(** The dedup key is in the table, as the lookup of the code answers. *)
Definition key_exists (ti posted : string) (db : DB.t) : bool :=
  DB.tender_exists (VText ti) (VText posted) db.

(** The pair of a title and a posted date exists in the store: some row
    holds the two texts. *)
Definition pair_in_store (ti posted : string) (db : DB.t) : Prop :=
  exists r,
    In r (DB.tenders db) /\ DB.title r = VText ti /\ DB.posted_date r = VText posted.

(** The text is made of ASCII characters. *)
Definition ascii_text (s : string) : bool :=
  forallb (fun c => (nat_of_ascii c <? 128)%nat) (list_ascii_of_string s).

(** The value under a date key is absent or ASCII text. *)
Definition ascii_date (d : option string) : Prop :=
  match d with
  | None => True
  | Some s => ascii_text s = true
  end.

(** The statement of C6 read with the strict form: a date value that is
    missing or not of the strict form is replaced by the empty text. *)
Definition non_strict_dates_are_blanked : Prop :=
  forall d : option string,
    match d with
    | None => True
    | Some s => strict_yyyy_mm_dd s = false
    end ->
    sanitize d = Some "".

(** The rows waiting for filtering, in the order of the table. *)
Definition waiting_rows (db : DB.t) : list DB.row :=
  filter (DB.state_is "waiting_for_filtering") (DB.tenders db).

(** The batch the node works on: what [fetch_waiting_tenders(limit=8)]
    returns on a table. *)
Definition waiting_batch (fault : bool) (db : DB.t) : list Tender.t :=
  match Repo.convert_all
          (DB.get_tenders_by_state fault "waiting_for_filtering" (Some 8%Z) db) with
  | Ok ts => ts
  | Raise _ => []
  end.

Definition returned_ids (qualified_tenders : list Tender.t) : list Z :=
  map Tender.id qualified_tenders.

(** The state the node chooses for an id, given the ids the model returned. *)
Definition state_for (returned : list Z) (i : Z) : string :=
  if id_in i returned then "qualified" else "unqualified".

(** The table after the updates of a round: the rows whose id is in the
    batch, and whose update SQLite did not fail, get the chosen state. *)
Definition classify_rows (faulty : Z -> bool) (returned batch : list Z)
    (rows : list DB.row) : list DB.row :=
  map (fun r =>
         if id_in (DB.id r) batch && negb (faulty (DB.id r))
         then DB.set_field "state" (VText (state_for returned (DB.id r))) r
         else r)
      rows.

(** The state of the tender with a given id, if there is one. *)
Definition state_of (i : Z) (db : DB.t) : option value :=
  option_map DB.state (find (DB.has_id i) (DB.tenders db)).

(** The sent flag of the tender with a given id, if there is one. *)
Definition sent_of (i : Z) (db : DB.t) : option value :=
  option_map DB.is_sent (find (DB.has_id i) (DB.tenders db)).

(** The model validates the row. *)
Definition convertible (r : DB.row) : bool :=
  match Repo._convert_to_tender r with
  | Ok _ => true
  | Raise _ => false
  end.

(** No two rows share an id (PRIMARY KEY). *)
Definition unique_ids (db : DB.t) : Prop :=
  NoDup (map DB.id (DB.tenders db)).

(** The counts that the conditional edge printed, in order. *)
Definition remaining (l : list event) : list nat :=
  flat_map (fun e => match e with Remaining n => [n] | _ => [] end) l.

(** The number of executions of the node, each of which prints one line
    about the batch it fetched. *)
Definition executions (l : list event) : nat :=
  List.length (flat_map (fun e => match e with ProcessingBatch n => [n] | _ => [] end) l).

(** An execution of the node in which nothing outside the program fails:
    SQLite answers and the model returns a listing. *)
Definition calm (env : filter_env) : Prop :=
  fetch_fault env = false
  /\ count_fault env = NoFault
  /\ (forall i, update_fault env i = false)
  /\ (forall batch, exists qualified_tenders, llm_invoke env batch = Ok qualified_tenders).

(** [completed_rounds envs k w j wj]: starting execution number [k] of
    the node in world [w], the executions [k], ..., [j - 1] returned and were
    each followed by a positive count, and left the world [wj], in which
    execution number [j] starts. *)
Inductive completed_rounds (envs : nat -> filter_env)
    : nat -> world -> nat -> world -> Prop :=
| rounds_none (k : nat) (w : world) : completed_rounds envs k w k w
| rounds_more (k j : nat) (w w1 w2 wj : world) :
    tender_filter_node (envs k) w = (Ok tt, w1) ->
    should_continue_filtering (envs k) w1 = (Ok true, w2) ->
    completed_rounds envs (S k) w2 j wj ->
    completed_rounds envs k w j wj.

(** The statement of C3 read with a round for every execution of the node:
    when nothing fails, a loop that starts with [W] waiting rows ends after
    at most [ceil (W / 8)] executions. *)
Definition rounds_within_ceiling : Prop :=
  forall (envs : nat -> filter_env) (fuel : nat) (db : DB.t) (w' : world),
    (forall j, calm (envs j)) ->
    unique_ids db ->
    forallb convertible (waiting_rows db) = true ->
    filter_loop fuel envs 0 (mkworld db []) = (Some (Ok tt), w') ->
    executions (log w') <= (List.length (waiting_rows db) + 7) / 8.

(** A table with one waiting tender that was scraped without an
    organization: the column holds NULL, which the model [Tender] refuses. *)
Definition one_without_organization : DB.t :=
  DB.mk [DB.mkrow 1 (VText "Road works") VNull (VText "2024-01-10")
           (VText "2024-03-01") (VText "Kenya") (VText "https://example.org/t")
           (VText "globaltenders.com") (VText "tarmac")
           (VText "2024-01-12 09:00:00") (VText "waiting_for_filtering") (VInt 0)]
        1.

(** The statement of C9 read for store errors: a failure of SQLite during
    an execution of the node aborts the run. *)
Definition store_errors_abort : Prop :=
  forall (envs : nat -> filter_env) (fuel k : nat) (w : world),
    fetch_fault (envs k) = true ->
    0 < fuel ->
    exists e w', filter_loop fuel envs k w = (Some (Raise e), w').

(** SQLite fails on the fetch of the first execution and works afterwards;
    the model returns tender 1. *)
Definition fetch_fails_once (k : nat) : filter_env :=
  match k with
  | O => mk_filter_env true (fun _ => Ok (listing_of [1%Z])) (fun _ => false) NoFault
  | S _ => answering [1%Z]
  end.

(** SQLite fails on the update of tender 2 and on the count; the model
    returns tender 1. *)
Definition update_fails_on_2 : filter_env :=
  mk_filter_env false (fun _ => Ok (listing_of [1%Z])) (fun i => Z.eqb i 2) CountFails.

(** The statement of C1 read for every round that the model answers: no
    tender of the batch is still waiting afterwards. *)
Definition round_leaves_none_waiting : Prop :=
  forall (env : filter_env) (w w' : world) (qualified_tenders : list Tender.t)
         (tender : Tender.t),
    llm_invoke env (waiting_batch (fetch_fault env) (store w)) = Ok qualified_tenders ->
    tender_filter_node env w = (Ok tt, w') ->
    In tender (waiting_batch (fetch_fault env) (store w)) ->
    state_of (Tender.id tender) (store w') <> Some (VText "waiting_for_filtering").

(** The model raises. *)
Definition model_down : filter_env :=
  mk_filter_env false (fun _ => Raise (ClassifierError "service unavailable"))
    (fun _ => false) NoFault.

(** The model returns tender 3 on its first invocation and raises
    afterwards. *)
Definition model_fails_second (k : nat) : filter_env :=
  match k with
  | O => answering [3%Z]
  | S _ => model_down
  end.

(** The rows the notifier's query selects, in the order of the table. *)
Definition unsent_rows (db : DB.t) : list DB.row :=
  filter (fun r => DB.state_is "qualified" r && sql_eq (DB.is_sent r) (VInt 0))
         (DB.tenders db).

(** The tenders a run of the notifier works on: what
    [fetch_qualified_unsent_tenders] returns on a table. *)
Definition unsent_batch (fault : bool) (db : DB.t) : list Tender.t :=
  match Repo.convert_all
          (DB.get_tenders_by_state_and_sent fault "qualified" false db) with
  | Ok ts => ts
  | Raise _ => []
  end.

(** TELEGRAM_CHAT_ID is set to a non-empty text. *)
Definition chat_ok (env : notify_env) : bool :=
  match chat_id env with
  | None => false
  | Some c => negb (c =? "")
  end.

(** The send of a tender succeeded. *)
Definition send_ok (env : notify_env) (tender : Tender.t) : bool :=
  match telegram_run env tender with
  | Ok true => true
  | _ => false
  end.

(** The lines printed for one tender of the loop of
    [_send_tender_notifications]. *)
Definition send_events (env : notify_env) (tender : Tender.t) : list event :=
  match telegram_run env tender with
  | Ok true => [Sending (Tender.id tender); SentOk (Tender.id tender);
                MarkedSent (Tender.id tender)]
  | Ok false => [Sending (Tender.id tender); SendFailed (Tender.id tender)]
  | Raise e => [Sending (Tender.id tender); ErrorProcessing (Tender.id tender) e]
  end.

(** The ids whose sent flag a run over [tenders] writes: the send succeeded
    and SQLite did not fail on the update. *)
Definition delivered (env : notify_env) (tenders : list Tender.t) : list Z :=
  map Tender.id
    (filter (fun tender => send_ok env tender
                           && negb (mark_fault env (Tender.id tender)))
            tenders).

(** The table after the sent flag of the given ids is written. *)
Definition mark_rows (ids : list Z) (rows : list DB.row) : list DB.row :=
  map (fun r => if id_in (DB.id r) ids
                then DB.set_field "is_sent" (VInt 1) r
                else r)
      rows.

(** A run of the notifier in which every selected tender is sent and
    marked: SQLite answers, the chat id is set, Telegram reports success. *)
Definition clean_run (env : notify_env) (db : DB.t) : Prop :=
  query_fault env = false
  /\ chat_ok env = true
  /\ forall tender, In tender (unsent_batch false db) ->
       telegram_run env tender = Ok true
       /\ mark_fault env (Tender.id tender) = false.

(** The statement of C7 read for every first run: whatever happened in the
    first run, a second run on the table it left sends nothing. *)
Definition second_run_sends_nothing : Prop :=
  forall (env1 env2 : notify_env) (db : DB.t),
    sends (log (snd (run (notification_node env2)
                       (store (snd (run (notification_node env1) db))))))
    = [].

(** A table with one qualified tender that has not been sent. *)
Definition one_qualified : DB.t :=
  DB.mk [sample_row 1 "Build ERP" "2024-01-10" "qualified" 0] 1.

(** Telegram answers with the given success flag; nothing else fails. *)
Definition telegram_says (success : bool) : notify_env :=
  mk_notify_env false (Some "-1001234567890") (fun _ => Ok success) (fun _ => false).

(** Telegram succeeds except for tender 2, for which the tool raises. *)
Definition telegram_fails_on_2 : notify_env :=
  mk_notify_env false (Some "-1001234567890")
    (fun tender => if Z.eqb (Tender.id tender) 2
                   then Raise (ValueError "network unreachable")
                   else Ok true)
    (fun _ => false).

(** A table with three qualified tenders that have not been sent. *)
Definition three_qualified : DB.t :=
  DB.mk [sample_row 1 "Build ERP" "2024-01-08" "qualified" 0;
         sample_row 2 "CRM rollout" "2024-01-09" "qualified" 0;
         sample_row 3 "Payroll system" "2024-01-10" "qualified" 0] 3.

(** ** What SQLite holds as it is given

    SQLite integers have 64 bits, and Python raises OverflowError when an
    integer outside them is bound to a placeholder.  A column of the table
    has an affinity: TEXT for the columns declared TEXT, NUMERIC for those
    declared DATE, BOOLEAN or TIMESTAMP.  A column with TEXT affinity turns
    an integer into its text; a column with NUMERIC affinity turns a text
    that reads as a number into that number.  The operations of [DB] above
    store a value as it is given, which is what SQLite does with the values
    described here; statements about arbitrary values carry these
    conditions. *)

Definition int64 (n : Z) : bool :=
  (- 2 ^ 63 <=? n)%Z && (n <? 2 ^ 63)%Z.

(** The value can be bound to a placeholder. *)
Definition bindable (v : value) : bool :=
  match v with
  | VInt n => int64 n
  | _ => true
  end.

(** White space as SQLite reads it: the space and the characters 9 to 13. *)
Definition sql_space (c : ascii) : bool :=
  (nat_of_ascii c =? 32)%nat
  || ((9 <=? nat_of_ascii c)%nat && (nat_of_ascii c <=? 13)%nat).

Fixpoint skip_while (p : ascii -> bool) (s : string) : string :=
  match s with
  | EmptyString => EmptyString
  | String c rest => if p c then skip_while p rest else s
  end.

Definition skip_sign (s : string) : string :=
  match s with
  | String c rest => if Ascii.eqb c "+" || Ascii.eqb c "-" then rest else s
  | EmptyString => s
  end.

Definition skip_exponent (s : string) : string :=
  match s with
  | String c rest =>
      if Ascii.eqb c "e" || Ascii.eqb c "E"
      then skip_while is_digit (skip_sign rest)
      else s
  | EmptyString => s
  end.

(** The text has the shape of a number: white space, a sign, digits and
    points, an exponent, white space, each of them optional but for one
    digit or point.  Every text that SQLite reads as a number has this
    shape; a text that has not is left alone by NUMERIC affinity. *)
Definition numeric_looking (s : string) : bool :=
  let s1 := skip_sign (skip_while sql_space s) in
  let s2 := skip_while (fun c => is_digit c || Ascii.eqb c ".") s1 in
  negb (String.length s1 =? String.length s2)%nat
  && (skip_while sql_space (skip_exponent s2) =? "").

Inductive affinity : Type :=
| TextAffinity
| NumericAffinity.

(** The affinity of the columns that [update_tender_field] can write. *)
Definition column_affinity (field : string) : affinity :=
  if str_in field ["posted_date"; "closing_date"; "is_sent"]
  then NumericAffinity
  else TextAffinity.

(** A column of the affinity holds the value as it is given. *)
Definition kept_by (a : affinity) (v : value) : bool :=
  match v with
  | VNull => true
  | VInt n =>
      match a with
      | TextAffinity => false
      | NumericAffinity => int64 n
      end
  | VText s =>
      match a with
      | TextAffinity => true
      | NumericAffinity => negb (numeric_looking s)
      end
  end.

(** The eight values of an insert are stored as they are given, each by
    its column. *)
Definition stored_as_given
    (tender : value * value * value * value * value * value * value * value) : bool :=
  let '(ti, org, pd, cd, loc, u, src, tc) := tender in
  kept_by TextAffinity ti && kept_by TextAffinity org
  && kept_by NumericAffinity pd && kept_by NumericAffinity cd
  && kept_by TextAffinity loc && kept_by TextAffinity u
  && kept_by TextAffinity src && kept_by TextAffinity tc.

(** ** Further vocabulary: the store *)

(** [_convert_to_dictionary]: a row of [SELECT *] as the dictionary of its
    columns, in the order of the table. *)
Definition _convert_to_dictionary (r : DB.row) : list (string * value) :=
  [("id", VInt (DB.id r)); ("title", DB.title r);
   ("organization", DB.organization r); ("posted_date", DB.posted_date r);
   ("closing_date", DB.closing_date r); ("location", DB.location r);
   ("url", DB.url r); ("source", DB.source r);
   ("tender_content", DB.tender_content r); ("created_at", DB.created_at r);
   ("state", DB.state r); ("is_sent", DB.is_sent r)].

(** [d.get(key)] on such a dictionary. *)
Fixpoint dict_get (key : string) (d : list (string * value)) : option value :=
  match d with
  | [] => None
  | (k, v) :: rest => if key =? k then Some v else dict_get key rest
  end.

(** [d[key] = v] on a key that is present. *)
Fixpoint dict_set (key : string) (v : value) (d : list (string * value))
    : list (string * value) :=
  match d with
  | [] => []
  | (k, v0) :: rest =>
      if key =? k then (k, v) :: rest else (k, v0) :: dict_set key v rest
  end.

(** The dedup key of a row. *)
Definition key_of (r : DB.row) : value * value :=
  (DB.title r, DB.posted_date r).

(** [a] may come before [b] in ORDER BY posted_date DESC. *)
Definition posted_not_before (a b : DB.row) : Prop :=
  value_compare (DB.posted_date a) (DB.posted_date b) <> Lt.

(** The counter of the table is not behind any id in use. *)
Definition sequence_covers (db : DB.t) : Prop :=
  forall r, In r (DB.tenders db) -> (DB.id r <= DB.sequence db)%Z.

(** ** [main.py]: the scraper node and the workflow *)

(** The answer of [GlobalTendersScraper().run({})]: its [success] entry and
    its [tenders] entry, which is absent from a failure answer. *)
Record scraper_response : Type := mk_response {
  success : bool;
  tenders : option (list Scraped.t)
}.

(** [d.get('tenders', [])]. *)
Definition tenders_or_empty (response : scraper_response) : list Scraped.t :=
  match tenders response with
  | Some ts => ts
  | None => []
  end.

(** [scraper_node]: [scraper] is what constructing and running the scraper
    gives, an answer or an exception.  Any exception, of the scraper or of
    the ingestion loop, is caught.  The lines this node prints itself are
    not kept in the log; those of the ingestion loop are. *)
Definition scraper_node (now : string) (scraper : result scraper_response) : M unit :=
  catch
    (global_response <- lift scraper ;;
     if success global_response
     then process_scraped_tenders now (tenders_or_empty global_response)
     else ret tt)
    (fun e => ret tt).


(** ** Further vocabulary: dates and rows *)

(** The character of a digit. *)
Definition digit_char (n : nat) : ascii := ascii_of_nat (nat_of_ascii "0" + n).

(** The text of a date in the form YYYY-MM-DD, every number padded with
    zeros to its width. *)
Definition iso_text (y m d : nat) : string :=
  String (digit_char (y / 1000))
    (String (digit_char (y / 100 mod 10))
       (String (digit_char (y / 10 mod 10))
          (String (digit_char (y mod 10))
             (String "-"
                (String (digit_char (m / 10))
                   (String (digit_char (m mod 10))
                      (String "-"
                         (String (digit_char (d / 10))
                            (String (digit_char (d mod 10)) EmptyString))))))))).

(** A date column holds the empty text or a text that [is_valid_date]
    accepts. *)
Definition clean_date (v : value) : Prop :=
  exists s, v = VText s /\ (s = "" \/ is_valid_date (Some s) = true).

(** A row as the ingestion loop creates it: waiting, not sent, with a text
    title and clean dates. *)
Definition fresh_row (r : DB.row) : Prop :=
  DB.state r = VText "waiting_for_filtering"
  /\ DB.is_sent r = VInt 0
  /\ (exists ti, DB.title r = VText ti)
  /\ clean_date (DB.posted_date r)
  /\ clean_date (DB.closing_date r).

(** The scraped tender has a title. *)
Definition titled (tender : Scraped.t) : Prop :=
  Scraped.title tender <> None.

(** * Properties *)

(** ** Lists and filters *)

Lemma filter_nonempty_existsb {A} (f : A -> bool) (l : list A) :
  (0 <? List.length (filter f l))%nat = existsb f l.
Proof.
  induction l as [|a l IH]; simpl; [reflexivity|].
  destruct (f a); simpl; [reflexivity | exact IH].
Qed.

Lemma str_in_true (x : string) (xs : list string) :
  str_in x xs = true <-> In x xs.
Proof.
  unfold str_in. rewrite existsb_exists. split.
  - intros [y [Hy E]]. apply String.eqb_eq in E. now subst.
  - intros H. exists x. split; [exact H | apply String.eqb_refl].
Qed.

Lemma id_in_true (x : Z) (xs : list Z) :
  id_in x xs = true <-> In x xs.
Proof.
  unfold id_in. rewrite existsb_exists. split.
  - intros [y [Hy E]]. apply Z.eqb_eq in E. now subst.
  - intros H. exists x. split; [exact H | apply Z.eqb_refl].
Qed.

(** ** The record store: [update_tender_field] *)

Module DBFacts.

Lemma has_id_true (i : Z) (r : DB.row) : DB.has_id i r = true <-> DB.id r = i.
Proof. unfold DB.has_id. apply Z.eqb_eq. Qed.

(** The rowcount is positive exactly when a row has the id. *)
Lemma rowcount_pos (i : Z) (rows : list DB.row) :
  (0 <? DB.rowcount i rows)%nat = true <-> exists r, In r rows /\ DB.id r = i.
Proof.
  unfold DB.rowcount. rewrite filter_nonempty_existsb, existsb_exists.
  split; intros [r [Hin H]]; exists r; split; try exact Hin;
    now apply has_id_true.
Qed.

Lemma set_field_id (field : string) (v : value) (r : DB.row) :
  DB.id (DB.set_field field v r) = DB.id r.
Proof.
  destruct r. unfold DB.set_field.
  repeat match goal with
         | |- context [if ?b then _ else _] => destruct b
         end; reflexivity.
Qed.

Lemma update_rows_ids (i : Z) (field : string) (v : value) (rows : list DB.row) :
  map DB.id (DB.update_rows i field v rows) = map DB.id rows.
Proof.
  unfold DB.update_rows. rewrite map_map. apply map_ext.
  intros r. destruct (DB.has_id i r); [apply set_field_id | reflexivity].
Qed.

Lemma update_rows_length (i : Z) (field : string) (v : value) (rows : list DB.row) :
  List.length (DB.update_rows i field v rows) = List.length rows.
Proof. unfold DB.update_rows. apply length_map. Qed.

(** A row with another id is not touched by the statement. *)
Lemma update_rows_other (i : Z) (field : string) (v : value)
    (rows : list DB.row) (r : DB.row) :
  In r rows -> DB.id r <> i -> In r (DB.update_rows i field v rows).
Proof.
  intros Hin Hne. unfold DB.update_rows. apply in_map_iff.
  exists r. split; [|exact Hin].
  destruct (DB.has_id i r) eqn:E; [|reflexivity].
  apply has_id_true in E. contradiction.
Qed.

(** A row with the id receives the value. *)
Lemma update_rows_same (i : Z) (field : string) (v : value)
    (rows : list DB.row) (r : DB.row) :
  In r rows -> DB.id r = i ->
  In (DB.set_field field v r) (DB.update_rows i field v rows).
Proof.
  intros Hin He. unfold DB.update_rows. apply in_map_iff.
  exists r. split; [|exact Hin].
  apply has_id_true in He. now rewrite He.
Qed.

(** The whitelist test comes before anything else. *)
Lemma update_invalid_field (fault : bool) (i : Z) (field : string)
    (v : value) (db : DB.t) :
  str_in field DB.whitelist = false ->
  DB.update_tender_field fault i field v db
  = (Raise (ValueError "Invalid field name"), db).
Proof. intros H. unfold DB.update_tender_field. now rewrite H. Qed.

(** On an available store, a whitelisted field and a value the
    constraints admit. *)
Lemma update_whitelisted (i : Z) (field : string) (v : value) (db : DB.t) :
  str_in field DB.whitelist = true ->
  DB.violates field v = false ->
  DB.update_tender_field false i field v db
  = (Ok (0 <? DB.rowcount i (DB.tenders db))%nat,
     DB.mk (DB.update_rows i field v (DB.tenders db)) (DB.sequence db)).
Proof.
  intros Hw Hv. unfold DB.update_tender_field.
  rewrite Hw, Hv, andb_false_r. reflexivity.
Qed.

End DBFacts.

(** C5, counterexample.  [state] is whitelisted and tender 1 exists, yet a
    value outside the CHECK constraint of the column makes the call raise
    IntegrityError instead of answering true. *)
Lemma update_tender_field_check_counterexample :
  str_in "state" DB.whitelist = true
  /\ (exists r, In r (DB.tenders one_waiting) /\ DB.id r = 1%Z)
  /\ DB.update_tender_field false 1 "state" (VText "archived") one_waiting
     = (Raise (IntegrityError "constraint failed"), one_waiting)
  /\ ~ update_answers_for_every_value.
Proof.
  split; [reflexivity|]. split.
  - eexists. split; [left; reflexivity | reflexivity].
  - split; [reflexivity|].
    intros H.
    destruct (H 1%Z "state" (VText "archived") one_waiting eq_refl)
      as [b [db' [E _]]]; [lia|].
    discriminate E.
Qed.

(** C5, amended.  A field outside the whitelist raises ValueError and the
    table is left as it was, whatever the id, the value and the state of
    SQLite.  On an available store, for a whitelisted field, an id and a
    value that can be bound (integers of 64 bits) and a value that the
    constraints of the table admit, the call answers, and the answer is true
    exactly when a row has the id; an answer of false leaves the table as it
    was, and in any case no row is added or removed and the rows with
    another id are not touched. *)
Theorem update_tender_field_whitelist (i : Z) (field : string) (v : value)
    (db : DB.t) :
  (str_in field DB.whitelist = false ->
   forall fault,
     DB.update_tender_field fault i field v db
     = (Raise (ValueError "Invalid field name"), db))
  /\ (str_in field DB.whitelist = true ->
      int64 i = true ->
      bindable v = true ->
      DB.violates field v = false ->
      exists b db',
        DB.update_tender_field false i field v db = (Ok b, db')
        /\ (b = true <-> exists r, In r (DB.tenders db) /\ DB.id r = i)
        /\ (b = false -> db' = db)
        /\ map DB.id (DB.tenders db') = map DB.id (DB.tenders db)
        /\ (forall r, In r (DB.tenders db) -> DB.id r <> i -> In r (DB.tenders db'))).
Proof.
  split.
  - intros H fault. now apply DBFacts.update_invalid_field.
  - intros Hw _ _ Hv.
    exists (0 <? DB.rowcount i (DB.tenders db))%nat.
    eexists. split; [now apply DBFacts.update_whitelisted|].
    split; [apply DBFacts.rowcount_pos|].
    split; [|split].
    + intros Hb. destruct db as [rows sq]. simpl in *. f_equal.
      unfold DB.update_rows.
      assert (Hall : forall r, In r rows -> DB.has_id i r = false).
      { intros r Hin. destruct (DB.has_id i r) eqn:E; [|reflexivity].
        assert (Hp : (0 <? DB.rowcount i rows)%nat = true).
        { apply DBFacts.rowcount_pos. exists r. split; [exact Hin|].
          now apply DBFacts.has_id_true. }
        congruence. }
      clear Hb. induction rows as [|r rows IH]; simpl; [reflexivity|].
      rewrite (Hall r (or_introl eq_refl)). f_equal.
      apply IH. intros r' Hin. apply Hall. now right.
    + simpl. apply DBFacts.update_rows_ids.
    + simpl. intros r Hin Hne. now apply DBFacts.update_rows_other.
Qed.

Lemma update_tender_field_whitelist_witness :
  DB.update_tender_field true 1 "created_at" (VText "2024-01-01") one_waiting
  = (Raise (ValueError "Invalid field name"), one_waiting)
  /\ exists b db',
       DB.update_tender_field false 1 "state" (VText "qualified") one_waiting = (Ok b, db')
       /\ (b = true <-> exists r, In r (DB.tenders one_waiting) /\ DB.id r = 1%Z)
       /\ (b = false -> db' = one_waiting)
       /\ map DB.id (DB.tenders db') = map DB.id (DB.tenders one_waiting)
       /\ (forall r, In r (DB.tenders one_waiting) -> DB.id r <> 1%Z -> In r (DB.tenders db')).
Proof.
  split.
  - apply (proj1 (update_tender_field_whitelist 1 "created_at" (VText "2024-01-01") one_waiting)).
    reflexivity.
  - apply (proj2 (update_tender_field_whitelist 1 "state" (VText "qualified") one_waiting));
      reflexivity.
Defined.

(** ** The ingestion gate *)

Lemma sql_eq_text (a : value) (s : string) :
  sql_eq a (VText s) = true <-> a = VText s.
Proof.
  destruct a as [|n|t]; simpl; split; try discriminate.
  - intros H. apply String.eqb_eq in H. now subst.
  - intros H. injection H as ->. apply String.eqb_refl.
Qed.

Lemma tender_exists_in (ti pd : value) (db : DB.t) :
  DB.tender_exists ti pd db = true
  <-> exists r, In r (DB.tenders db)
                /\ sql_eq (DB.title r) ti = true
                /\ sql_eq (DB.posted_date r) pd = true.
Proof.
  unfold DB.tender_exists. rewrite filter_nonempty_existsb, existsb_exists.
  split; intros [r [Hin H]]; exists r.
  - apply andb_true_iff in H. tauto.
  - split; [tauto|]. apply andb_true_iff. tauto.
Qed.

(** The lookup of the code answers true exactly when the pair exists in the
    store. *)
Lemma key_exists_pair (ti posted : string) (db : DB.t) :
  key_exists ti posted db = true <-> pair_in_store ti posted db.
Proof.
  unfold key_exists, pair_in_store. rewrite tender_exists_in.
  split; intros [r [Hin [Ht Hp]]]; exists r; (split; [exact Hin|]).
  - now rewrite <- !sql_eq_text.
  - now rewrite !sql_eq_text.
Qed.

Lemma key_exists_no_pair (ti posted : string) (db : DB.t) :
  key_exists ti posted db = false <-> ~ pair_in_store ti posted db.
Proof.
  rewrite <- key_exists_pair. destruct (key_exists ti posted db); split;
    congruence.
Qed.


Lemma sanitize_text (d : option string) : sanitize d = Some (date_text d).
Proof.
  unfold date_text, sanitize. destruct (is_valid_date d) eqn:E; [|reflexivity].
  destruct d; [reflexivity | discriminate E].
Qed.

Lemma date_text_invalid (d : option string) :
  is_valid_date d = false -> date_text d = "".
Proof. intros H. unfold date_text, sanitize. now rewrite H. Qed.

Lemma date_text_valid (d : option string) :
  is_valid_date d = true -> d = Some (date_text d).
Proof.
  intros H. unfold date_text, sanitize. rewrite H.
  destruct d; [reflexivity | discriminate H].
Qed.

(** One turn of the loop, computed: the key is looked up with the validated
    posted date; a known key leaves the table alone and a new one appends
    the validated tender. *)
Lemma process_one_spec (now : string) (tender : Scraped.t) (ti : string) (w : world) :
  Scraped.title tender = Some ti ->
  process_one now tender w
  = if key_exists ti (date_text (Scraped.posted_date tender)) (store w)
    then (Ok false, mkworld (store w) (log w ++ date_events tender))
    else (Ok true,
          mkworld (DB.mk (DB.tenders (store w)
                          ++ [ingested_row now (DB.next_id (store w)) tender])
                         (DB.next_id (store w)))
                  (log w ++ date_events tender)).
Proof.
  intros Ht. destruct w as [db l].
  unfold process_one, date_events, key_exists, ingested_row, when, bind, emit,
    subscript, sanitized, Repo.tender_exists, Repo.insert_new_tender, db_read,
    db_call, ret, raise, DB.insert_tender.
  rewrite !sanitize_text. simpl. rewrite Ht. simpl.
  destruct (is_valid_date (Scraped.posted_date tender));
    destruct (is_valid_date (Scraped.closing_date tender)); simpl;
    rewrite ?app_nil_r, <- ?app_assoc; simpl;
    destruct (DB.tender_exists _ _ db); reflexivity.
Qed.

(** A tender without a title leaves the loop with KeyError and the table as
    it was. *)
Lemma process_one_no_title (now : string) (tender : Scraped.t) (w : world) :
  Scraped.title tender = None ->
  process_one now tender w
  = (Raise (KeyError "title"), mkworld (store w) (log w ++ date_events tender)).
Proof.
  intros Ht. destruct w as [db l].
  unfold process_one, date_events, when, bind, emit, subscript, sanitized, ret, raise.
  simpl. rewrite Ht.
  destruct (is_valid_date (Scraped.posted_date tender));
    destruct (is_valid_date (Scraped.closing_date tender)); simpl;
    rewrite ?app_nil_r, <- ?app_assoc; reflexivity.
Qed.

Lemma key_exists_app (ti posted : string) (rows extra : list DB.row) (s1 s2 : Z) :
  key_exists ti posted (DB.mk rows s1) = true ->
  key_exists ti posted (DB.mk (rows ++ extra) s2) = true.
Proof.
  unfold key_exists, DB.tender_exists. simpl.
  rewrite !filter_nonempty_existsb, existsb_app.
  intros H. now rewrite H.
Qed.

(** The row a turn appends carries the key that was looked up. *)
Lemma key_exists_ingested (now : string) (tender : Scraped.t) (ti : string)
    (rows : list DB.row) (i s : Z) :
  Scraped.title tender = Some ti ->
  key_exists ti (date_text (Scraped.posted_date tender))
    (DB.mk (rows ++ [ingested_row now i tender]) s) = true.
Proof.
  intros Ht. unfold key_exists, DB.tender_exists. simpl.
  rewrite filter_nonempty_existsb, existsb_app. simpl.
  rewrite Ht. simpl. rewrite !String.eqb_refl. simpl.
  now rewrite orb_true_r.
Qed.

(** Ingestion only appends: a key that is in the table stays there. *)
Lemma process_one_keeps_keys (now : string) (tender : Scraped.t) (w : world)
    (ti posted : string) :
  key_exists ti posted (store w) = true ->
  key_exists ti posted (store (snd (process_one now tender w))) = true.
Proof.
  destruct w as [[rows sq] l]. simpl. intros H.
  destruct (Scraped.title tender) as [ti'|] eqn:Ht.
  - rewrite (process_one_spec now tender ti' _ Ht). simpl.
    destruct (key_exists ti' _ _); simpl; [exact H|].
    eapply key_exists_app. exact H.
  - rewrite (process_one_no_title now tender _ Ht). exact H.
Qed.

Lemma process_from_keeps_keys (now : string) (tenders : list Scraped.t)
    (ti posted : string) :
  forall (n : nat) (w : world),
    key_exists ti posted (store w) = true ->
    key_exists ti posted (store (snd (process_from now tenders n w))) = true.
Proof.
  induction tenders as [|c rest IH]; intros n w H; simpl; [exact H|].
  unfold bind.
  pose proof (process_one_keeps_keys now c w ti posted H) as H1.
  destruct (process_one now c w) as [[b|e] w1]; simpl in *.
  - now apply IH.
  - exact H1.
Qed.

(** The loop over a list followed by further tenders. *)
Lemma process_from_app (now : string) (xs ys : list Scraped.t) :
  forall (n : nat) (w : world),
    process_from now (xs ++ ys) n w
    = match process_from now xs n w with
      | (Ok m, w1) => process_from now ys m w1
      | (Raise e, w1) => (Raise e, w1)
      end.
Proof.
  induction xs as [|c rest IH]; intros n w; simpl; [reflexivity|].
  unfold bind. destruct (process_one now c w) as [[b|e] w1]; [apply IH | reflexivity].
Qed.

(** C4.  A scraped tender whose pair of title and validated posted date
    exists in the store, that is, is held by some row of the table, is
    skipped: the turn returns without an exception and leaves the table,
    hence the number of its rows, as it was.  A tender whose pair does not
    exist in the store is inserted: one row is appended, waiting for
    filtering and not sent, and the pair exists in the store afterwards.  In
    both cases the loop goes on with the tenders that follow. *)
Theorem ingestion_dedup (now : string) (tender : Scraped.t) (ti : string) (w : world) :
  Scraped.title tender = Some ti ->
  (pair_in_store ti (date_text (Scraped.posted_date tender)) (store w) ->
   exists w',
     process_one now tender w = (Ok false, w')
     /\ store w' = store w
     /\ forall rest n, process_from now (tender :: rest) n w = process_from now rest n w')
  /\ (~ pair_in_store ti (date_text (Scraped.posted_date tender)) (store w) ->
      exists w',
        process_one now tender w = (Ok true, w')
        /\ DB.tenders (store w')
           = DB.tenders (store w) ++ [ingested_row now (DB.next_id (store w)) tender]
        /\ List.length (DB.tenders (store w')) = S (List.length (DB.tenders (store w)))
        /\ pair_in_store ti (date_text (Scraped.posted_date tender)) (store w')
        /\ forall rest n,
             process_from now (tender :: rest) n w = process_from now rest (S n) w').
Proof.
  intros Ht. pose proof (process_one_spec now tender ti w Ht) as Hs.
  split; intros Hk.
  - apply key_exists_pair in Hk. rewrite Hk in Hs.
    eexists. split; [exact Hs|].
    split; [reflexivity|]. intros rest n. simpl. unfold bind. now rewrite Hs.
  - apply key_exists_no_pair in Hk. rewrite Hk in Hs.
    eexists. split; [exact Hs|].
    simpl. split; [reflexivity|]. split.
    + rewrite length_app. simpl. lia.
    + split; [apply key_exists_pair; now apply key_exists_ingested|].
      intros rest n. simpl. unfold bind. now rewrite Hs.
Qed.

Lemma ingestion_dedup_witness :
  (exists w',
     process_one "2024-01-12 09:00:00"
       (sample_scraped "Build ERP" "2024-01-10" "2024-03-01")
       (mkworld one_waiting []) = (Ok false, w')
     /\ store w' = one_waiting
     /\ forall rest n,
          process_from "2024-01-12 09:00:00"
            (sample_scraped "Build ERP" "2024-01-10" "2024-03-01" :: rest) n
            (mkworld one_waiting [])
          = process_from "2024-01-12 09:00:00" rest n w')
  /\ (exists w',
        process_one "2024-01-12 09:00:00"
          (sample_scraped "Build ERP" "2024-01-10" "2024-03-01")
          (mkworld DB.empty []) = (Ok true, w')
        /\ List.length (DB.tenders (store w')) = 1).
Proof.
  split.
  - apply (proj1 (ingestion_dedup "2024-01-12 09:00:00"
                    (sample_scraped "Build ERP" "2024-01-10" "2024-03-01")
                    "Build ERP" (mkworld one_waiting []) eq_refl)).
    eexists. split; [left; reflexivity|]. split; reflexivity.
  - destruct (proj2 (ingestion_dedup "2024-01-12 09:00:00"
                       (sample_scraped "Build ERP" "2024-01-10" "2024-03-01")
                       "Build ERP" (mkworld DB.empty []) eq_refl))
      as [w' [H1 [_ [H2 _]]]].
    + intros [r [[] _]].
    + exists w'. split; [exact H1 | exact H2].
Defined.

(** After the turn of a titled tender, its key is in the table, whether
    the tender was inserted or skipped. *)
Lemma process_one_key_after (now : string) (tender : Scraped.t) (ti : string)
    (w : world) :
  Scraped.title tender = Some ti ->
  key_exists ti (date_text (Scraped.posted_date tender))
    (store (snd (process_one now tender w))) = true.
Proof.
  intros Ht. rewrite (process_one_spec now tender ti w Ht).
  destruct (key_exists ti _ (store w)) eqn:E; simpl; [exact E|].
  now apply key_exists_ingested.
Qed.

(** C10.  Two scraped tenders with the same title whose posted dates are
    both invalid share the key (title, empty text): once the first has had
    its turn, with any tenders in between, the second is skipped and the
    table is left as the tenders before it made it, whatever the other
    fields of the two tenders are. *)
Theorem dedup_on_invalid_posted_dates (now : string) (first second : Scraped.t)
    (between : list Scraped.t) (ti : string) (n m : nat) (w w1 : world) :
  Scraped.title first = Some ti ->
  Scraped.title second = Some ti ->
  is_valid_date (Scraped.posted_date first) = false ->
  is_valid_date (Scraped.posted_date second) = false ->
  process_from now (first :: between) n w = (Ok m, w1) ->
  exists w2,
    process_one now second w1 = (Ok false, w2)
    /\ process_from now (first :: between ++ [second]) n w = (Ok m, w2)
    /\ store w2 = store w1.
Proof.
  intros Ht1 Ht2 Hv1 Hv2 Hrun.
  assert (Hkey : key_exists ti "" (store w1) = true).
  { simpl in Hrun. unfold bind in Hrun.
    pose proof (process_one_key_after now first ti w Ht1) as Hk.
    rewrite (date_text_invalid _ Hv1) in Hk.
    destruct (process_one now first w) as [[b|e] w0]; [|discriminate Hrun].
    simpl in Hk.
    pose proof (process_from_keeps_keys now between ti ""
                  (if b then S n else n) w0 Hk) as Hk'.
    now rewrite Hrun in Hk'. }
  pose proof (process_one_spec now second ti w1 Ht2) as Hs.
  rewrite (date_text_invalid _ Hv2), Hkey in Hs.
  eexists. split; [exact Hs|]. split; [|reflexivity].
  change (first :: between ++ [second]) with ((first :: between) ++ [second]).
  rewrite process_from_app, Hrun. simpl. unfold bind. now rewrite Hs.
Qed.

Lemma dedup_on_invalid_posted_dates_witness :
  exists w2,
    process_one "2024-01-12 09:00:00"
      (Scraped.mk (Some "Road works") None (Some "tomorrow") None None None None None)
      (snd (process_from "2024-01-12 09:00:00"
              [sample_scraped "Road works" "2024/01/05" "2024-03-01";
               sample_scraped "Build ERP" "2024-01-10" "2024-03-01"]
              0 (mkworld DB.empty [])))
    = (Ok false, w2)
    /\ process_from "2024-01-12 09:00:00"
         (sample_scraped "Road works" "2024/01/05" "2024-03-01"
          :: [sample_scraped "Build ERP" "2024-01-10" "2024-03-01"]
          ++ [Scraped.mk (Some "Road works") None (Some "tomorrow") None None None None None])
         0 (mkworld DB.empty [])
       = (Ok 2, w2)
    /\ store w2
       = store (snd (process_from "2024-01-12 09:00:00"
                       [sample_scraped "Road works" "2024/01/05" "2024-03-01";
                        sample_scraped "Build ERP" "2024-01-10" "2024-03-01"]
                       0 (mkworld DB.empty []))).
Proof.
  apply (dedup_on_invalid_posted_dates
           "2024-01-12 09:00:00"
           (sample_scraped "Road works" "2024/01/05" "2024-03-01")
           (Scraped.mk (Some "Road works") None (Some "tomorrow")
              None None None None None)
           [sample_scraped "Build ERP" "2024-01-10" "2024-03-01"]
           "Road works" 0 2 (mkworld DB.empty [])); reflexivity.
Defined.

(** C6, counterexample.  ["2024-1-5"] is not of the strict form, yet the
    parser accepts it, since the leading zero of month and day is optional:
    the value is kept, and the tender is stored with it. *)
Lemma lenient_date_counterexample :
  strict_yyyy_mm_dd "2024-1-5" = false
  /\ is_valid_date (Some "2024-1-5") = true
  /\ sanitize (Some "2024-1-5") = Some "2024-1-5"
  /\ map DB.posted_date
       (DB.tenders (store (snd (run
          (process_scraped_tenders "2024-01-12 09:00:00"
             [sample_scraped "Road works" "2024-1-5" "2024-03-01"])
          DB.empty))))
     = [VText "2024-1-5"]
  /\ ~ non_strict_dates_are_blanked.
Proof.
  repeat (split; [reflexivity|]).
  intros H. specialize (H (Some "2024-1-5") eq_refl). discriminate H.
Qed.

(** C6, amended.  The two dates of a scraped tender, when they are ASCII
    text, are validated one independently of the other by [is_valid_date];
    a value it rejects, so a missing or empty value and any text that
    [strptime] does not parse with ['%Y-%m-%d'], is replaced by the empty
    text, and a value it accepts is kept as it is.  Neither case raises: the
    tender has its turn, is inserted with the two validated dates when no
    row holds its title and validated posted date, and is skipped when one
    does. *)
Theorem date_tolerance (now : string) (tender : Scraped.t) (ti : string) (w : world) :
  Scraped.title tender = Some ti ->
  ascii_date (Scraped.posted_date tender) ->
  ascii_date (Scraped.closing_date tender) ->
  exists posted closing : string,
    (if is_valid_date (Scraped.posted_date tender)
     then Scraped.posted_date tender = Some posted
     else posted = "")
    /\ (if is_valid_date (Scraped.closing_date tender)
        then Scraped.closing_date tender = Some closing
        else closing = "")
    /\ exists inserted w',
         process_one now tender w = (Ok inserted, w')
         /\ (pair_in_store ti posted (store w) -> inserted = false /\ store w' = store w)
         /\ (~ pair_in_store ti posted (store w) ->
             inserted = true
             /\ exists r,
                  DB.tenders (store w') = DB.tenders (store w) ++ [r]
                  /\ DB.title r = VText ti
                  /\ DB.posted_date r = VText posted
                  /\ DB.closing_date r = VText closing
                  /\ DB.state r = VText "waiting_for_filtering").
Proof.
  intros Ht _ _.
  exists (date_text (Scraped.posted_date tender)),
         (date_text (Scraped.closing_date tender)).
  split; [|split].
  - destruct (is_valid_date (Scraped.posted_date tender)) eqn:E;
      [now apply date_text_valid | now apply date_text_invalid].
  - destruct (is_valid_date (Scraped.closing_date tender)) eqn:E;
      [now apply date_text_valid | now apply date_text_invalid].
  - pose proof (process_one_spec now tender ti w Ht) as Hs.
    destruct (key_exists ti _ (store w)) eqn:Hk; do 2 eexists;
      (split; [exact Hs|]); split; intros Hp.
    + now split.
    + apply key_exists_no_pair in Hp. congruence.
    + apply key_exists_pair in Hp. congruence.
    + split; [reflexivity|]. eexists. split; [reflexivity|].
      simpl. rewrite Ht. repeat split; reflexivity.
Qed.

Lemma date_tolerance_witness :
  exists posted closing : string,
    posted = ""
    /\ closing = ""
    /\ exists inserted w',
         process_one "2024-01-12 09:00:00"
           (Scraped.mk (Some "Road works") None (Some "2024/01/05") None None None
              None None)
           (mkworld one_waiting [])
         = (Ok inserted, w')
         /\ (pair_in_store "Road works" posted one_waiting ->
             inserted = false /\ store w' = one_waiting)
         /\ (~ pair_in_store "Road works" posted one_waiting ->
             inserted = true
             /\ exists r,
                  DB.tenders (store w') = DB.tenders one_waiting ++ [r]
                  /\ DB.title r = VText "Road works"
                  /\ DB.posted_date r = VText posted
                  /\ DB.closing_date r = VText closing
                  /\ DB.state r = VText "waiting_for_filtering").
Proof.
  exact (date_tolerance "2024-01-12 09:00:00"
           (Scraped.mk (Some "Road works") None (Some "2024/01/05") None None None
              None None)
           "Road works" (mkworld one_waiting []) eq_refl eq_refl I).
Defined.

(** ** The classification node *)

Lemma fetch_waiting_spec (fault : bool) (w : world) :
  Repo.fetch_waiting_tenders fault 8 w = (Ok (waiting_batch fault (store w)), w).
Proof.
  unfold Repo.fetch_waiting_tenders, waiting_batch, catch, bind, db_read, lift, ret.
  destruct (Repo.convert_all _); reflexivity.
Qed.

Lemma is_qualified_ids (qualified_tenders : list Tender.t) (tender : Tender.t) :
  is_qualified qualified_tenders tender
  = id_in (Tender.id tender) (returned_ids qualified_tenders).
Proof.
  unfold is_qualified, id_in, returned_ids.
  induction qualified_tenders as [|q qs IH]; simpl; [reflexivity|].
  now rewrite IH, Z.eqb_sym.
Qed.

Lemma new_state_for (qualified_tenders : list Tender.t) (tender : Tender.t) :
  new_state qualified_tenders tender
  = state_for (returned_ids qualified_tenders) (Tender.id tender).
Proof. unfold new_state, state_for. now rewrite is_qualified_ids. Qed.

Lemma state_for_cases (returned : list Z) (i : Z) :
  (In i returned /\ state_for returned i = "qualified")
  \/ (~ In i returned /\ state_for returned i = "unqualified").
Proof.
  unfold state_for. destruct (id_in i returned) eqn:E.
  - left. split; [now apply id_in_true | reflexivity].
  - right. split; [|reflexivity].
    intros H. apply id_in_true in H. congruence.
Qed.

Lemma state_for_admitted (returned : list Z) (i : Z) :
  DB.violates "state" (VText (state_for returned i)) = false.
Proof. unfold state_for. destruct (id_in i returned); reflexivity. Qed.

(** One update of the round. *)
Lemma update_tender_state_spec (fault : bool) (i : Z) (returned : list Z) (w : world) :
  Repo.update_tender_state fault i (state_for returned i) w
  = (Ok tt,
     mkworld (if fault then store w
              else DB.mk (DB.update_rows i "state" (VText (state_for returned i))
                            (DB.tenders (store w)))
                         (DB.sequence (store w)))
             (log w)).
Proof.
  destruct w as [db l].
  unfold Repo.update_tender_state, catch, bind, db_call, ret. simpl.
  destruct fault.
  - reflexivity.
  - rewrite (DBFacts.update_whitelisted i "state" _ db eq_refl
               (state_for_admitted returned i)).
    reflexivity.
Qed.

Lemma set_state_twice (v : value) (r : DB.row) :
  DB.set_field "state" v (DB.set_field "state" v r) = DB.set_field "state" v r.
Proof. destruct r. reflexivity. Qed.

Lemma set_state_state (v : value) (r : DB.row) :
  DB.state (DB.set_field "state" v r) = v.
Proof. destruct r. reflexivity. Qed.

Lemma classify_rows_nil (faulty : Z -> bool) (returned : list Z) (rows : list DB.row) :
  classify_rows faulty returned [] rows = rows.
Proof.
  unfold classify_rows. simpl. rewrite <- (map_id rows) at 2.
  apply map_ext. reflexivity.
Qed.

(** The update of one tender followed by the updates of the others is the
    round over the whole batch. *)
Lemma classify_rows_cons (faulty : Z -> bool) (returned : list Z) (i : Z)
    (ids : list Z) (rows : list DB.row) :
  classify_rows faulty returned ids
    (if faulty i then rows
     else DB.update_rows i "state" (VText (state_for returned i)) rows)
  = classify_rows faulty returned (i :: ids) rows.
Proof.
  unfold classify_rows, DB.update_rows.
  destruct (faulty i) eqn:Hf.
  - apply map_ext. intros r. simpl.
    destruct (Z.eqb (DB.id r) i) eqn:E; simpl; [|reflexivity].
    apply Z.eqb_eq in E. rewrite E, Hf. now rewrite andb_false_r.
  - rewrite map_map. apply map_ext. intros r. simpl.
    unfold DB.has_id.
    destruct (Z.eqb (DB.id r) i) eqn:E; simpl; [|reflexivity].
    apply Z.eqb_eq in E.
    rewrite DBFacts.set_field_id, E, Hf. simpl.
    destruct (id_in i ids); simpl; [apply set_state_twice | reflexivity].
Qed.

(** The loop over the batch: the table and the lines it leaves. *)
Lemma for_each_marks (env : filter_env) (qualified_tenders batch : list Tender.t) :
  forall w : world,
    for_each batch (fun tender =>
      Repo.update_tender_state (update_fault env (Tender.id tender))
        (Tender.id tender) (new_state qualified_tenders tender) ;;
      emit (MarkedAs (Tender.id tender) (new_state qualified_tenders tender))) w
    = (Ok tt,
       mkworld (DB.mk (classify_rows (update_fault env) (returned_ids qualified_tenders)
                         (map Tender.id batch) (DB.tenders (store w)))
                      (DB.sequence (store w)))
               (log w ++ map (fun tender =>
                                MarkedAs (Tender.id tender)
                                  (new_state qualified_tenders tender)) batch)).
Proof.
  induction batch as [|t rest IH]; intros [[rows sq] l]; simpl.
  - unfold ret. now rewrite classify_rows_nil, app_nil_r.
  - unfold bind at 1. unfold bind at 1.
    rewrite new_state_for, update_tender_state_spec. unfold emit at 1. simpl.
    rewrite <- new_state_for.
    rewrite IH. simpl. rewrite <- app_assoc. simpl.
    rewrite <- classify_rows_cons. rewrite new_state_for.
    destruct (update_fault env (Tender.id t)); reflexivity.
Qed.

(** The node, computed.  An empty batch ends the execution at once; an
    exception of the model leaves the node before any update; otherwise the
    batch is classified. *)
Lemma tender_filter_node_spec (env : filter_env) (w : world) :
  tender_filter_node env w
  = let batch := waiting_batch (fetch_fault env) (store w) in
    match batch with
    | [] => (Ok tt, mkworld (store w) (log w ++ [ProcessingBatch 0; NoTendersToProcess]))
    | _ :: _ =>
        match llm_invoke env batch with
        | Raise e =>
            (Raise e,
             mkworld (store w)
               (log w ++ [ProcessingBatch (List.length batch);
                          InvokingLLM (map Tender.id batch)]))
        | Ok qualified_tenders =>
            (Ok tt,
             mkworld (DB.mk (classify_rows (update_fault env)
                               (returned_ids qualified_tenders)
                               (map Tender.id batch) (DB.tenders (store w)))
                            (DB.sequence (store w)))
               (log w ++ [ProcessingBatch (List.length batch);
                          InvokingLLM (map Tender.id batch);
                          FoundQualified (List.length qualified_tenders)]
                ++ map (fun tender =>
                          MarkedAs (Tender.id tender)
                            (new_state qualified_tenders tender)) batch))
        end
    end.
Proof.
  unfold tender_filter_node. unfold bind at 1. rewrite fetch_waiting_spec.
  cbv zeta. destruct (waiting_batch (fetch_fault env) (store w)) as [|t batch] eqn:Hb.
  - destruct w as [db l]. unfold bind, emit. simpl. now rewrite <- app_assoc.
  - unfold bind at 1. unfold emit at 1. unfold bind at 1. unfold emit at 1.
    unfold bind at 1. unfold lift at 1. cbn [store log].
    destruct (llm_invoke env (t :: batch)) as [qs|e].
    + unfold bind at 1. unfold emit at 1. cbn [store log].
      rewrite for_each_marks. cbn [store log].
      rewrite <- !app_assoc. reflexivity.
    + rewrite <- !app_assoc. reflexivity.
Qed.

(** ** Batches and the rows they come from *)

Lemma convert_id (r : DB.row) (t : Tender.t) :
  Repo._convert_to_tender r = Ok t -> Tender.id t = DB.id r.
Proof.
  unfold Repo._convert_to_tender, Repo.and_then.
  repeat match goal with
         | |- context [match ?x with Ok _ => _ | Raise _ => _ end] =>
             destruct x; try discriminate
         end.
  intros H. injection H as <-. reflexivity.
Qed.

Lemma convert_all_ids (raws : list DB.row) :
  forall ts, Repo.convert_all raws = Ok ts -> map Tender.id ts = map DB.id raws.
Proof.
  induction raws as [|r raws IH]; simpl; intros ts H.
  - injection H as <-. reflexivity.
  - unfold Repo.and_then in H.
    destruct (Repo._convert_to_tender r) as [t|] eqn:Hr; [|discriminate].
    destruct (Repo.convert_all raws) as [ts'|]; [|discriminate].
    injection H as <-. simpl. f_equal; [now apply convert_id | now apply IH].
Qed.

Lemma convert_all_convertible (raws : list DB.row) :
  forallb convertible raws = true -> exists ts, Repo.convert_all raws = Ok ts.
Proof.
  induction raws as [|r raws IH]; simpl; intros H.
  - now exists [].
  - apply andb_true_iff in H. destruct H as [Hr Hrest].
    destruct (IH Hrest) as [ts Hts]. unfold convertible in Hr.
    destruct (Repo._convert_to_tender r) as [t|] eqn:E; [|discriminate].
    exists (t :: ts). unfold Repo.and_then. now rewrite Hts.
Qed.

Lemma convert_all_ok_convertible (raws : list DB.row) (ts : list Tender.t) :
  Repo.convert_all raws = Ok ts -> forallb convertible raws = true.
Proof.
  revert ts. induction raws as [|r raws IH]; intros ts H; [reflexivity|].
  cbn [Repo.convert_all] in H. unfold Repo.and_then in H.
  cbn [forallb]. unfold convertible at 1.
  destruct (Repo._convert_to_tender r) as [t|]; [|discriminate].
  destruct (Repo.convert_all raws) as [ts'|] eqn:E; [|discriminate].
  now rewrite (IH ts' eq_refl).
Qed.

Lemma get_waiting_8 (db : DB.t) :
  DB.get_tenders_by_state false "waiting_for_filtering" (Some 8%Z) db
  = firstn 8 (waiting_rows db).
Proof. reflexivity. Qed.

(** The ids of a batch are the ids of the first eight waiting rows, unless
    the fetch gave the empty list. *)
Lemma waiting_batch_ids (fault : bool) (db : DB.t) :
  waiting_batch fault db = []
  \/ (fault = false
      /\ map Tender.id (waiting_batch fault db) = map DB.id (firstn 8 (waiting_rows db))).
Proof.
  unfold waiting_batch. destruct fault; [now left|].
  rewrite get_waiting_8.
  destruct (Repo.convert_all _) as [ts|] eqn:E; [|now left].
  right. split; [reflexivity | now apply convert_all_ids].
Qed.

Lemma waiting_batch_convertible (db : DB.t) :
  forallb convertible (waiting_rows db) = true ->
  map Tender.id (waiting_batch false db) = map DB.id (firstn 8 (waiting_rows db)).
Proof.
  intros H. unfold waiting_batch. rewrite get_waiting_8.
  assert (H8 : forallb convertible (firstn 8 (waiting_rows db)) = true).
  { rewrite forallb_forall in *. intros r Hr. apply H.
    rewrite <- (firstn_skipn 8 (waiting_rows db)). apply in_or_app. now left. }
  destruct (convert_all_convertible _ H8) as [ts Hts]. rewrite Hts.
  now apply convert_all_ids.
Qed.

(** ** Counting the rows that leave the waiting state *)

Lemma filter_andb {A} (p q : A -> bool) (l : list A) :
  filter (fun x => p x && q x) l = filter q (filter p l).
Proof.
  induction l as [|a l IH]; simpl; [reflexivity|].
  destruct (p a); simpl; [destruct (q a); now rewrite IH | exact IH].
Qed.

(** A selection of rows with unique ids has unique ids. *)
Lemma unique_ids_filter (p : DB.row -> bool) (rows : list DB.row) :
  NoDup (map DB.id rows) -> NoDup (map DB.id (filter p rows)).
Proof.
  induction rows as [|r rows IH]; intros Hnd; [constructor|].
  cbn [map] in Hnd. apply NoDup_cons_iff in Hnd. destruct Hnd as [Hfresh Hrest].
  cbn [filter]. destruct (p r); [|now apply IH].
  cbn [map]. apply NoDup_cons; [|now apply IH].
  intros Hin. apply Hfresh. apply in_map_iff in Hin.
  destruct Hin as [r' [Hid Hr']]. apply filter_In in Hr'.
  rewrite <- Hid. apply in_map. tauto.
Qed.

(** Dropping the rows whose id is among the first [n] ids drops the first
    [n] rows, when ids are unique. *)
Lemma drop_first_ids (n : nat) :
  forall l : list DB.row,
    NoDup (map DB.id l) ->
    filter (fun r => negb (id_in (DB.id r) (map DB.id (firstn n l)))) l = skipn n l.
Proof.
  induction n as [|n IH]; intros l Hnd.
  - simpl. induction l as [|a l IHl]; simpl; [reflexivity|].
    inversion Hnd; subst. f_equal. now apply IHl.
  - destruct l as [|a l]; simpl; [reflexivity|].
    inversion Hnd as [|? ? Hnin Hnd']; subst.
    rewrite Z.eqb_refl. simpl.
    rewrite <- (IH l Hnd'). apply filter_ext_in.
    intros r Hr. destruct (Z.eqb (DB.id r) (DB.id a)) eqn:E; [|reflexivity].
    apply Z.eqb_eq in E. exfalso. apply Hnin. rewrite <- E.
    now apply in_map.
Qed.

Lemma waiting_after_classify (faulty : Z -> bool) (returned ids : list Z)
    (rows : list DB.row) :
  filter (DB.state_is "waiting_for_filtering") (classify_rows faulty returned ids rows)
  = filter (fun r => DB.state_is "waiting_for_filtering" r
                     && negb (id_in (DB.id r) ids && negb (faulty (DB.id r))))
           rows.
Proof.
  unfold classify_rows. induction rows as [|r rows IH]; simpl; [reflexivity|].
  rewrite IH.
  destruct (id_in (DB.id r) ids && negb (faulty (DB.id r))).
  - rewrite andb_false_r.
    assert (E : DB.state_is "waiting_for_filtering"
                  (DB.set_field "state" (VText (state_for returned (DB.id r))) r)
                = false).
    { unfold DB.state_is. rewrite set_state_state. unfold state_for.
      destruct (id_in (DB.id r) returned); reflexivity. }
    now rewrite E.
  - now rewrite andb_true_r.
Qed.

(** With unique ids and no failing update, a round takes the batch, and
    only the batch, out of the waiting rows. *)
Lemma waiting_after_round (returned : list Z) (db : DB.t) (n : nat) :
  unique_ids db ->
  filter (DB.state_is "waiting_for_filtering")
    (classify_rows (fun _ => false) returned
       (map DB.id (firstn n (waiting_rows db))) (DB.tenders db))
  = skipn n (waiting_rows db).
Proof.
  intros Hu. rewrite waiting_after_classify.
  rewrite (filter_ext _ (fun r => DB.state_is "waiting_for_filtering" r
            && negb (id_in (DB.id r) (map DB.id (firstn n (waiting_rows db)))))).
  - rewrite filter_andb. apply drop_first_ids.
    now apply unique_ids_filter.
  - intros r. now rewrite andb_true_r.
Qed.

Lemma classify_rows_ids (faulty : Z -> bool) (returned ids : list Z)
    (rows : list DB.row) :
  map DB.id (classify_rows faulty returned ids rows) = map DB.id rows.
Proof.
  unfold classify_rows. rewrite map_map. apply map_ext. intros r.
  destruct (_ && _); [apply DBFacts.set_field_id | reflexivity].
Qed.

(** ** The state of a tender after a round *)

Lemma find_map_same {A} (p : A -> bool) (g : A -> A) (l : list A) :
  (forall x, p (g x) = p x) ->
  find p (map g l) = option_map g (find p l).
Proof.
  intros H. induction l as [|a l IH]; simpl; [reflexivity|].
  rewrite H. destruct (p a); [reflexivity | exact IH].
Qed.

Lemma find_has_id (i : Z) (rows : list DB.row) :
  (exists r, In r rows /\ DB.id r = i) ->
  exists r0, find (DB.has_id i) rows = Some r0 /\ DB.id r0 = i.
Proof.
  intros [r [Hin Hid]].
  destruct (find (DB.has_id i) rows) as [r0|] eqn:E.
  - exists r0. split; [reflexivity|].
    apply find_some in E. now apply DBFacts.has_id_true.
  - exfalso. apply (find_none _ _ E) in Hin.
    apply DBFacts.has_id_true in Hid. congruence.
Qed.

Lemma find_classify (faulty : Z -> bool) (returned ids : list Z) (i : Z)
    (rows : list DB.row) :
  find (DB.has_id i) (classify_rows faulty returned ids rows)
  = option_map
      (fun r => if id_in (DB.id r) ids && negb (faulty (DB.id r))
                then DB.set_field "state" (VText (state_for returned (DB.id r))) r
                else r)
      (find (DB.has_id i) rows).
Proof.
  unfold classify_rows. apply find_map_same. intros r. unfold DB.has_id.
  destruct (_ && _); [now rewrite DBFacts.set_field_id | reflexivity].
Qed.

(** A tender of the batch whose update did not fail is in the chosen
    state. *)
Lemma state_of_classified (faulty : Z -> bool) (returned ids : list Z) (i : Z)
    (rows : list DB.row) (sq : Z) :
  In i ids -> faulty i = false ->
  (exists r, In r rows /\ DB.id r = i) ->
  state_of i (DB.mk (classify_rows faulty returned ids rows) sq)
  = Some (VText (state_for returned i)).
Proof.
  intros Hin Hf Hex. unfold state_of. simpl. rewrite find_classify.
  destruct (find_has_id i rows Hex) as [r0 [E Hid]]. rewrite E. simpl.
  rewrite Hid, Hf. apply id_in_true in Hin. rewrite Hin. simpl.
  now rewrite set_state_state.
Qed.

(** A tender outside the batch keeps its state. *)
Lemma state_of_outside (faulty : Z -> bool) (returned ids : list Z) (i : Z)
    (rows : list DB.row) (sq sq' : Z) :
  ~ In i ids ->
  state_of i (DB.mk (classify_rows faulty returned ids rows) sq)
  = state_of i (DB.mk rows sq').
Proof.
  intros Hnin. unfold state_of. simpl. rewrite find_classify.
  destruct (find (DB.has_id i) rows) as [r0|] eqn:E; [|reflexivity].
  simpl. apply find_some in E. destruct E as [_ E].
  apply DBFacts.has_id_true in E. rewrite E.
  destruct (id_in i ids) eqn:Hi; [|reflexivity].
  apply id_in_true in Hi. contradiction.
Qed.

(** Rows outside the batch are the same rows, at the same place. *)
Lemma classify_rows_outside (faulty : Z -> bool) (returned ids : list Z)
    (rows : list DB.row) (n : nat) (r : DB.row) :
  nth_error rows n = Some r ->
  ~ In (DB.id r) ids ->
  nth_error (classify_rows faulty returned ids rows) n = Some r.
Proof.
  intros Hn Hnin. unfold classify_rows. rewrite nth_error_map, Hn. simpl.
  destruct (id_in (DB.id r) ids) eqn:Hi; [|reflexivity].
  apply id_in_true in Hi. contradiction.
Qed.

(** The round depends on the returned ids only through the ids of the
    batch. *)
Lemma classify_rows_agree (faulty : Z -> bool) (returned returned' ids : list Z)
    (rows : list DB.row) :
  (forall i, In i ids -> (In i returned <-> In i returned')) ->
  classify_rows faulty returned ids rows = classify_rows faulty returned' ids rows.
Proof.
  intros H. unfold classify_rows. apply map_ext. intros r.
  destruct (id_in (DB.id r) ids) eqn:Hi; [|reflexivity]. simpl.
  destruct (faulty (DB.id r)); [reflexivity|]. simpl.
  apply id_in_true in Hi. specialize (H _ Hi).
  unfold state_for.
  destruct (id_in (DB.id r) returned) eqn:E1;
    destruct (id_in (DB.id r) returned') eqn:E2; try reflexivity; exfalso.
  - apply id_in_true in E1. apply H in E1. apply id_in_true in E1. congruence.
  - apply id_in_true in E2. apply H in E2. apply id_in_true in E2. congruence.
Qed.

Lemma classify_rows_faults_ext (faulty faulty' : Z -> bool) (returned ids : list Z)
    (rows : list DB.row) :
  (forall i, faulty i = faulty' i) ->
  classify_rows faulty returned ids rows = classify_rows faulty' returned ids rows.
Proof.
  intros H. unfold classify_rows. apply map_ext. intros r. now rewrite H.
Qed.

Lemma marks_app (l1 l2 : list event) : marks (l1 ++ l2) = marks l1 ++ marks l2.
Proof. unfold marks. apply flat_map_app. Qed.

Lemma marks_of_marked (qualified_tenders batch : list Tender.t) :
  marks (map (fun tender =>
                MarkedAs (Tender.id tender) (new_state qualified_tenders tender)) batch)
  = map (fun tender =>
           (Tender.id tender,
            state_for (returned_ids qualified_tenders) (Tender.id tender))) batch.
Proof.
  induction batch as [|t rest IH]; [reflexivity|].
  change (marks (map (fun tender => MarkedAs (Tender.id tender)
                        (new_state qualified_tenders tender)) (t :: rest)))
    with ((Tender.id t, new_state qualified_tenders t)
          :: marks (map (fun tender => MarkedAs (Tender.id tender)
                           (new_state qualified_tenders tender)) rest)).
  rewrite IH, new_state_for. reflexivity.
Qed.

(** Each announced transition carries exactly one of the two labels. *)
Lemma two_labels (returned : list Z) (ids : list Z) :
  List.length (filter (fun m => snd m =? "qualified")
                 (map (fun i => (i, state_for returned i)) ids))
  + List.length (filter (fun m => snd m =? "unqualified")
                   (map (fun i => (i, state_for returned i)) ids))
  = List.length ids.
Proof.
  induction ids as [|i ids IH]; simpl; [reflexivity|].
  destruct (state_for_cases returned i) as [[_ E]|[_ E]]; rewrite E; simpl; lia.
Qed.

Lemma batch_member_row (fault : bool) (db : DB.t) (tender : Tender.t) :
  In tender (waiting_batch fault db) ->
  exists r, In r (DB.tenders db) /\ DB.id r = Tender.id tender.
Proof.
  intros Hin. destruct (waiting_batch_ids fault db) as [E|[_ E]].
  - rewrite E in Hin. destruct Hin.
  - apply (in_map Tender.id) in Hin. rewrite E in Hin.
    apply in_map_iff in Hin. destruct Hin as [r [Hid Hr]].
    exists r. split; [|exact Hid].
    assert (Hw : In r (waiting_rows db)).
    { rewrite <- (firstn_skipn 8 (waiting_rows db)). apply in_or_app. now left. }
    unfold waiting_rows in Hw. now apply filter_In in Hw.
Qed.

(** A tender whose update is not made keeps its state. *)
Lemma state_of_skipped (faulty : Z -> bool) (returned ids : list Z) (i : Z)
    (rows : list DB.row) (sq sq' : Z) :
  id_in i ids && negb (faulty i) = false ->
  state_of i (DB.mk (classify_rows faulty returned ids rows) sq)
  = state_of i (DB.mk rows sq').
Proof.
  intros Hskip. unfold state_of. simpl. rewrite find_classify.
  destruct (find (DB.has_id i) rows) as [r0|] eqn:E; [|reflexivity].
  simpl. apply find_some in E. destruct E as [_ E].
  apply DBFacts.has_id_true in E. now rewrite E, Hskip.
Qed.

Lemma classify_rows_faults_on (faulty faulty' : Z -> bool) (returned ids : list Z)
    (rows : list DB.row) :
  (forall i, In i ids -> faulty i = faulty' i) ->
  classify_rows faulty returned ids rows = classify_rows faulty' returned ids rows.
Proof.
  intros H. unfold classify_rows. apply map_ext. intros r.
  destruct (id_in (DB.id r) ids) eqn:Hi; [|reflexivity].
  apply id_in_true in Hi. now rewrite (H _ Hi).
Qed.

(** C1, counterexample.  SQLite fails on the update of tender 2: the
    repository catches the error, the round goes on and ends normally, the
    transition of tender 2 is announced, and tender 2 is still waiting. *)
Lemma failed_update_counterexample :
  (exists w',
     tender_filter_node update_fails_on_2 (mkworld three_tenders []) = (Ok tt, w')
     /\ map Tender.id (waiting_batch false three_tenders) = [1; 2]%Z
     /\ marks (log w') = [(1%Z, "qualified"); (2%Z, "unqualified")]
     /\ state_of 1 (store w') = Some (VText "qualified")
     /\ state_of 2 (store w') = Some (VText "waiting_for_filtering"))
  /\ ~ round_leaves_none_waiting.
Proof.
  split.
  - eexists. split; [vm_compute; reflexivity|]. repeat split.
  - intros H.
    apply (H update_fails_on_2 (mkworld three_tenders [])
             (snd (tender_filter_node update_fails_on_2 (mkworld three_tenders [])))
             (listing_of [1%Z])
             (Tender.mk 2 "Supply of cement" "Ministry of Works" "2024-01-09"
                "2024-03-01" "Kenya" "https://example.org/t"
                "globaltenders.com" "supply of software"
                "waiting_for_filtering" false)).
    + reflexivity.
    + vm_compute. reflexivity.
    + vm_compute. right. left. reflexivity.
    + vm_compute. reflexivity.
Qed.

(** C1, amended.  When the node submits a non-empty batch and the model
    returns a listing, the round ends normally and announces one transition
    per tender of the batch, qualified when its id is among the returned
    ids and unqualified otherwise, so that the two labels together count the
    size of the batch.  A tender of the batch whose update SQLite carries
    out is then in the announced state, and so no longer waiting; a tender
    whose update fails keeps the state it had.  When no update of the batch
    fails and ids are unique, the waiting rows lose exactly the batch. *)
Theorem classification_round_partition (env : filter_env) (w : world)
    (batch qualified_tenders : list Tender.t) :
  batch = waiting_batch (fetch_fault env) (store w) ->
  batch <> [] ->
  llm_invoke env batch = Ok qualified_tenders ->
  exists w',
    tender_filter_node env w = (Ok tt, w')
    /\ (forall tender, In tender batch ->
          update_fault env (Tender.id tender) = false ->
          state_of (Tender.id tender) (store w')
          = Some (VText (if id_in (Tender.id tender) (returned_ids qualified_tenders)
                         then "qualified" else "unqualified"))
          /\ state_of (Tender.id tender) (store w')
             <> Some (VText "waiting_for_filtering"))
    /\ (forall tender, In tender batch ->
          update_fault env (Tender.id tender) = true ->
          state_of (Tender.id tender) (store w')
          = state_of (Tender.id tender) (store w))
    /\ (exists new_marks,
          marks (log w') = marks (log w) ++ new_marks
          /\ new_marks
             = map (fun tender =>
                      (Tender.id tender,
                       if id_in (Tender.id tender) (returned_ids qualified_tenders)
                       then "qualified" else "unqualified"))
                   batch
          /\ List.length (filter (fun m => snd m =? "qualified") new_marks)
             + List.length (filter (fun m => snd m =? "unqualified") new_marks)
             = List.length batch)
    /\ ((forall tender, In tender batch ->
           update_fault env (Tender.id tender) = false) ->
        unique_ids (store w) ->
        waiting_rows (store w') = skipn 8 (waiting_rows (store w))
        /\ List.length (waiting_rows (store w')) + List.length batch
           = List.length (waiting_rows (store w))).
Proof.
  intros Hb Hne Hllm.
  pose proof (tender_filter_node_spec env w) as Hs. cbv zeta in Hs.
  rewrite <- Hb in Hs. destruct batch as [|t0 rest] eqn:Hbatch; [congruence|].
  rewrite <- Hbatch in *. rewrite Hllm in Hs.
  eexists. split; [exact Hs|]. cbn [store log].
  split; [|split; [|split]].
  - intros tender Hin Hf.
    assert (Hstate : state_of (Tender.id tender)
              (DB.mk (classify_rows (update_fault env) (returned_ids qualified_tenders)
                        (map Tender.id batch) (DB.tenders (store w)))
                     (DB.sequence (store w)))
            = Some (VText (state_for (returned_ids qualified_tenders) (Tender.id tender)))).
    { apply state_of_classified.
      - now apply in_map.
      - exact Hf.
      - apply (batch_member_row (fetch_fault env)). now rewrite <- Hb. }
    split; [exact Hstate|]. rewrite Hstate. unfold state_for.
    destruct (id_in _ _); discriminate.
  - intros tender Hin Hf. destruct (store w) as [rows sq].
    apply state_of_skipped. rewrite Hf. apply andb_false_r.
  - exists (map (fun tender =>
                   (Tender.id tender,
                    state_for (returned_ids qualified_tenders) (Tender.id tender)))
                batch).
    split; [|split].
    + rewrite !marks_app, marks_of_marked. simpl. reflexivity.
    + reflexivity.
    + rewrite <- (length_map Tender.id batch).
      rewrite <- (two_labels (returned_ids qualified_tenders) (map Tender.id batch)).
      now rewrite map_map.
  - intros Hf Hu.
    destruct (waiting_batch_ids (fetch_fault env) (store w)) as [E|[_ E]];
      [congruence|].
    rewrite <- Hb in E.
    assert (Hw : waiting_rows
                   (DB.mk (classify_rows (update_fault env)
                             (returned_ids qualified_tenders)
                             (map Tender.id batch) (DB.tenders (store w)))
                          (DB.sequence (store w)))
                 = skipn 8 (waiting_rows (store w))).
    { unfold waiting_rows at 1. cbn [DB.tenders].
      rewrite (classify_rows_faults_on (update_fault env) (fun _ => false)).
      - rewrite E. now apply waiting_after_round.
      - intros i Hi. apply in_map_iff in Hi. destruct Hi as [tender [<- Hin]].
        now apply Hf. }
    split; [exact Hw|]. rewrite Hw.
    rewrite <- (length_map Tender.id batch), E, length_map.
    rewrite <- (firstn_skipn 8 (waiting_rows (store w))) at 3.
    rewrite length_app. lia.
Qed.

Lemma classification_round_partition_witness :
  exists w',
    tender_filter_node (answering [1; 99]%Z) (mkworld three_tenders []) = (Ok tt, w')
    /\ state_of 1 (store w') = Some (VText "qualified")
    /\ state_of 2 (store w') = Some (VText "unqualified")
    /\ marks (log w') = [(1%Z, "qualified"); (2%Z, "unqualified")]
    /\ waiting_rows (store w') = [].
Proof.
  destruct (classification_round_partition (answering [1; 99]%Z)
              (mkworld three_tenders [])
              (waiting_batch false three_tenders) (listing_of [1; 99]%Z)
              eq_refl ltac:(discriminate) eq_refl)
    as [w' [Hrun [Hst [_ [_ Hw]]]]].
  exists w'. split; [exact Hrun|].
  split; [apply (Hst (Tender.mk 1 "Build ERP" "Ministry of Works" "2024-01-10"
                        "2024-03-01" "Kenya" "https://example.org/t"
                        "globaltenders.com" "supply of software"
                        "waiting_for_filtering" false));
          [left; reflexivity | reflexivity]|].
  split; [apply (Hst (Tender.mk 2 "Supply of cement" "Ministry of Works" "2024-01-09"
                        "2024-03-01" "Kenya" "https://example.org/t"
                        "globaltenders.com" "supply of software"
                        "waiting_for_filtering" false));
          [right; left; reflexivity | reflexivity]|].
  split.
  - injection Hrun as <-. reflexivity.
  - apply Hw.
    + intros tender _. reflexivity.
    + unfold unique_ids. simpl. repeat constructor; simpl; intuition discriminate.
Defined.

(** The table a round leaves when the model returns a listing. *)
Lemma node_store (env : filter_env) (w : world) (qualified_tenders : list Tender.t) :
  llm_invoke env (waiting_batch (fetch_fault env) (store w)) = Ok qualified_tenders ->
  store (snd (tender_filter_node env w))
  = DB.mk (classify_rows (update_fault env) (returned_ids qualified_tenders)
             (map Tender.id (waiting_batch (fetch_fault env) (store w)))
             (DB.tenders (store w)))
          (DB.sequence (store w)).
Proof.
  intros Hllm. rewrite tender_filter_node_spec. cbv zeta.
  destruct (waiting_batch (fetch_fault env) (store w)) as [|t0 rest] eqn:Hb.
  - simpl. rewrite classify_rows_nil. now destruct (store w).
  - rewrite Hllm. reflexivity.
Qed.

(** C2.  Whatever ids the model returns, a round touches only the tenders
    of the batch it submitted: every row whose id is not in the batch is the
    same row afterwards, so its state is the same; and two answers that agree
    on the ids of the batch, however they differ on other ids, leave the
    same table. *)
Theorem classifier_containment (env : filter_env) (w : world)
    (batch qualified_tenders : list Tender.t) :
  batch = waiting_batch (fetch_fault env) (store w) ->
  llm_invoke env batch = Ok qualified_tenders ->
  exists w',
    tender_filter_node env w = (Ok tt, w')
    /\ (forall n r,
          nth_error (DB.tenders (store w)) n = Some r ->
          ~ In (DB.id r) (map Tender.id batch) ->
          nth_error (DB.tenders (store w')) n = Some r)
    /\ (forall i, ~ In i (map Tender.id batch) ->
          state_of i (store w') = state_of i (store w))
    /\ (forall llm' qualified_tenders',
          llm' batch = Ok qualified_tenders' ->
          (forall i, In i (map Tender.id batch) ->
             (In i (returned_ids qualified_tenders)
              <-> In i (returned_ids qualified_tenders'))) ->
          store (snd (tender_filter_node
                        (mk_filter_env (fetch_fault env) llm' (update_fault env)
                           (count_fault env)) w))
          = store w').
Proof.
  intros Hb Hllm.
  pose proof (tender_filter_node_spec env w) as Hs. cbv zeta in Hs.
  rewrite <- Hb in Hs. destruct batch as [|t0 rest] eqn:Hbatch.
  - eexists. split; [exact Hs|]. cbn [store].
    split; [auto|]. split; [auto|].
    intros llm' qs' _ _. rewrite tender_filter_node_spec. cbv zeta.
    cbn [fetch_fault]. now rewrite <- Hb.
  - rewrite <- Hbatch in *. rewrite Hllm in Hs.
    eexists. split; [exact Hs|]. cbn [store DB.tenders].
    split; [|split].
    + intros n r Hn Hnin. now apply classify_rows_outside.
    + intros i Hnin. destruct (store w) as [rows sq]. now apply state_of_outside.
    + intros llm' qs' Hllm' Hagree.
      rewrite (node_store (mk_filter_env (fetch_fault env) llm' (update_fault env)
                             (count_fault env)) w qs');
        cbn [fetch_fault llm_invoke update_fault]; rewrite <- Hb; [|exact Hllm'].
      f_equal. apply classify_rows_agree. intros i Hi. symmetry. now apply Hagree.
Qed.

Lemma classifier_containment_witness :
  exists w',
    tender_filter_node (answering [1; 3; 99]%Z) (mkworld three_tenders []) = (Ok tt, w')
    /\ state_of 3 (store w') = state_of 3 three_tenders
    /\ store (snd (tender_filter_node (answering [1]%Z) (mkworld three_tenders [])))
       = store w'.
Proof.
  destruct (classifier_containment (answering [1; 3; 99]%Z)
              (mkworld three_tenders [])
              (waiting_batch false three_tenders) (listing_of [1; 3; 99]%Z)
              eq_refl eq_refl)
    as [w' [Hrun [_ [Hout Hagree]]]].
  exists w'. split; [exact Hrun|]. split.
  - apply Hout. simpl. intuition discriminate.
  - apply (Hagree (fun _ => Ok (listing_of [1]%Z)) (listing_of [1]%Z) eq_refl).
    simpl. intuition (subst; try discriminate; auto).
Defined.

(** ** The classification loop *)

Lemma should_continue_spec (env : filter_env) (w : world) :
  should_continue_filtering env w
  = match count_fault env with
    | OpenFails => (Raise OperationalError, w)
    | fault =>
        let n := if count_fails fault then 0 else List.length (waiting_rows (store w)) in
        (Ok (0 <? n)%nat, mkworld (store w) (log w ++ [Remaining n]))
    end.
Proof.
  unfold should_continue_filtering, open_repository, Repo.count_waiting_tenders,
    catch, bind, db_read, emit, ret, raise, DB.count_tenders_by_state, waiting_rows.
  destruct (count_fault env); reflexivity.
Qed.

(** The edge when the repository opens: the count, or 0 when it fails. *)
Lemma should_continue_open (env : filter_env) (w : world) :
  count_fault env <> OpenFails ->
  should_continue_filtering env w
  = let n := if count_fails (count_fault env) then 0
             else List.length (waiting_rows (store w)) in
    (Ok (0 <? n)%nat, mkworld (store w) (log w ++ [Remaining n])).
Proof.
  intros H. rewrite should_continue_spec.
  destruct (count_fault env); [reflexivity | congruence | reflexivity].
Qed.

Lemma invocations_app (l1 l2 : list event) :
  invocations (l1 ++ l2) = invocations l1 ++ invocations l2.
Proof. unfold invocations. apply flat_map_app. Qed.

Lemma remaining_app (l1 l2 : list event) :
  remaining (l1 ++ l2) = remaining l1 ++ remaining l2.
Proof. unfold remaining. apply flat_map_app. Qed.

Lemma executions_app (l1 l2 : list event) :
  executions (l1 ++ l2) = executions l1 + executions l2.
Proof. unfold executions. now rewrite flat_map_app, length_app. Qed.

Lemma executions_of_marked (qualified_tenders batch : list Tender.t) :
  executions (map (fun tender =>
                     MarkedAs (Tender.id tender) (new_state qualified_tenders tender))
                  batch) = 0.
Proof. induction batch as [|t rest IH]; [reflexivity | exact IH]. Qed.

Lemma invocations_of_marked (qualified_tenders batch : list Tender.t) :
  invocations (map (fun tender =>
                      MarkedAs (Tender.id tender) (new_state qualified_tenders tender))
                   batch) = [].
Proof. induction batch as [|t rest IH]; [reflexivity | exact IH]. Qed.

Lemma remaining_of_marked (qualified_tenders batch : list Tender.t) :
  remaining (map (fun tender =>
                    MarkedAs (Tender.id tender) (new_state qualified_tenders tender))
                 batch) = [].
Proof. induction batch as [|t rest IH]; [reflexivity | exact IH]. Qed.

(** An empty batch: the node returns at once, the model is not invoked,
    the table is not touched. *)
Lemma empty_batch_round (env : filter_env) (w : world) :
  waiting_batch (fetch_fault env) (store w) = [] ->
  tender_filter_node env w
  = (Ok tt, mkworld (store w) (log w ++ [ProcessingBatch 0; NoTendersToProcess])).
Proof.
  intros Hb. rewrite tender_filter_node_spec. cbv zeta. now rewrite Hb.
Qed.

Lemma forallb_skipn {A} (p : A -> bool) (n : nat) (l : list A) :
  forallb p l = true -> forallb p (skipn n l) = true.
Proof.
  intros H. rewrite forallb_forall in *. intros x Hx. apply H.
  rewrite <- (firstn_skipn n l). apply in_or_app. now right.
Qed.

(** A round in which nothing fails, on a table with unique ids whose
    waiting rows validate: the first eight waiting rows, and only they,
    leave the waiting state, in one invocation of the model. *)
Lemma calm_round (env : filter_env) (w : world) :
  calm env ->
  unique_ids (store w) ->
  forallb convertible (waiting_rows (store w)) = true ->
  waiting_rows (store w) <> [] ->
  exists w1 evs,
    tender_filter_node env w = (Ok tt, w1)
    /\ log w1 = log w ++ evs
    /\ invocations evs = [map DB.id (firstn 8 (waiting_rows (store w)))]
    /\ remaining evs = []
    /\ executions evs = 1
    /\ waiting_rows (store w1) = skipn 8 (waiting_rows (store w))
    /\ unique_ids (store w1).
Proof.
  intros [Hff [_ [Huf Hllm]]] Hu Hc Hne.
  pose proof (waiting_batch_convertible (store w) Hc) as Hids.
  pose proof (tender_filter_node_spec env w) as Hs. cbv zeta in Hs.
  rewrite Hff in Hs.
  destruct (waiting_batch false (store w)) as [|t0 rest] eqn:Hb.
  - exfalso. destruct (waiting_rows (store w)); [congruence | discriminate Hids].
  - rewrite <- Hb in *. destruct (Hllm (waiting_batch false (store w))) as [qs Hq].
    rewrite Hq in Hs. do 2 eexists. split; [exact Hs|]. cbn [store log].
    split; [reflexivity|]. split; [|split; [|split; [|split]]].
    + rewrite invocations_app, invocations_of_marked, Hids. reflexivity.
    + rewrite remaining_app, remaining_of_marked. reflexivity.
    + rewrite executions_app, executions_of_marked. reflexivity.
    + unfold waiting_rows at 1. cbn [DB.tenders]. rewrite Hids.
      rewrite (classify_rows_faults_ext (update_fault env) (fun _ => false)) by exact Huf.
      now apply waiting_after_round.
    + unfold unique_ids. cbn [DB.tenders]. now rewrite classify_rows_ids.
Qed.

Lemma invocations_remaining (n : nat) : invocations [Remaining n] = [].
Proof. reflexivity. Qed.

Lemma remaining_single (n : nat) : remaining [Remaining n] = [n].
Proof. reflexivity. Qed.

Lemma ceil8_small (W : nat) : 0 < W -> W <= 8 -> (W + 7) / 8 = 1.
Proof.
  intros H1 H2. symmetry. apply (Nat.div_unique (W + 7) 8 1 (W - 1)); lia.
Qed.

Lemma ceil8_step (W : nat) : 8 < W -> (W + 7) / 8 = S ((W - 8 + 7) / 8).
Proof.
  intros H. replace (W + 7) with ((W - 8 + 7) + 1 * 8) by lia.
  rewrite Nat.div_add by lia. lia.
Qed.

(** The edge when nothing fails: the count of the waiting rows. *)
Lemma calm_edge (env : filter_env) (w : world) :
  calm env ->
  should_continue_filtering env w
  = (Ok (0 <? List.length (waiting_rows (store w)))%nat,
     mkworld (store w) (log w ++ [Remaining (List.length (waiting_rows (store w)))])).
Proof.
  intros [_ [Hcf _]]. rewrite should_continue_spec, Hcf. reflexivity.
Qed.

(** The loop in which nothing fails drains the waiting rows: it ends,
    after one invocation of the model per group of eight waiting rows. *)
Lemma calm_loop_drains (envs : nat -> filter_env) :
  (forall j, calm (envs j)) ->
  forall (fuel k : nat) (w : world),
    unique_ids (store w) ->
    forallb convertible (waiting_rows (store w)) = true ->
    0 < fuel ->
    List.length (waiting_rows (store w)) <= 8 * fuel ->
    exists w' evs,
      filter_loop fuel envs k w = (Some (Ok tt), w')
      /\ log w' = log w ++ evs
      /\ List.length (invocations evs) = (List.length (waiting_rows (store w)) + 7) / 8
      /\ List.concat (invocations evs) = map DB.id (waiting_rows (store w))
      /\ Forall (fun batch => List.length batch <= 8) (invocations evs)
      /\ waiting_rows (store w') = []
      /\ executions evs = Nat.max 1 ((List.length (waiting_rows (store w)) + 7) / 8)
      /\ exists counts,
           remaining evs = counts ++ [0]
           /\ Forall (fun n => 0 < n) counts
           /\ S (List.length counts) = executions evs.
Proof.
  intros Hcalm. induction fuel as [|fuel IH]; intros k w Hu Hc Hfuel HW; [lia|].
  destruct (waiting_rows (store w)) as [|r0 rows0] eqn:Hwait.
  - (* nothing is waiting: one execution with an empty batch *)
    assert (Hb : waiting_batch (fetch_fault (envs k)) (store w) = []).
    { destruct (waiting_batch_ids (fetch_fault (envs k)) (store w)) as [E|[_ E]];
        [exact E|].
      rewrite Hwait in E. simpl in E.
      destruct (waiting_batch _ _); [reflexivity | discriminate E]. }
    cbn [filter_loop]. rewrite (empty_batch_round _ _ Hb), (calm_edge _ _ (Hcalm k)).
    cbn [store log]. rewrite Hwait. simpl.
    do 2 eexists. split; [reflexivity|]. cbn [store log].
    split; [now rewrite <- app_assoc|].
    split; [reflexivity|]. split; [reflexivity|]. split; [constructor|].
    split; [exact Hwait|]. split; [reflexivity|].
    exists []. repeat split. constructor.
  - (* a round on the first eight waiting rows *)
    assert (Hne : waiting_rows (store w) <> []) by (rewrite Hwait; discriminate).
    rewrite <- Hwait in *.
    destruct (calm_round (envs k) w (Hcalm k) Hu Hc Hne)
      as [w1 [evs1 [Hrun [Hlog [Hinv [Hrem [Hex [Hw1 Hu1]]]]]]]].
    cbn [filter_loop]. rewrite Hrun, (calm_edge _ _ (Hcalm k)), Hw1.
    rewrite length_skipn.
    destruct (Nat.ltb_spec 0 (List.length (waiting_rows (store w)) - 8)) as [Hgt|Hle].
    + (* more than eight were waiting: the loop goes on *)
      destruct (IH (S k)
                  (mkworld (store w1)
                     (log w1 ++ [Remaining (List.length (waiting_rows (store w)) - 8)])))
        as [w' [evs' [Hloop [Hlog' [Hinv' [Hcat' [Hsm' [Hend [Hex' [counts [Hc1 [Hc2 Hc3]]]]]]]]]]]];
        cbn [store log]; try rewrite Hw1; try rewrite length_skipn;
        [exact Hu1 | now apply forallb_skipn | lia | lia |].
      cbn [store log] in *. rewrite Hw1, length_skipn in *.
      exists w', (evs1 ++ [Remaining (List.length (waiting_rows (store w)) - 8)] ++ evs').
      split; [exact Hloop|].
      split; [rewrite Hlog', Hlog, <- !app_assoc; reflexivity|].
      assert (Hceil : 0 < (List.length (waiting_rows (store w)) - 8 + 7) / 8).
      { apply Nat.div_str_pos. lia. }
      assert (Hexs : executions (evs1 ++ [Remaining (List.length (waiting_rows (store w)) - 8)]
                                 ++ evs')
                     = S (executions evs')).
      { rewrite !executions_app, Hex. reflexivity. }
      rewrite !invocations_app, !remaining_app, Hinv, Hrem,
        invocations_remaining, remaining_single, Hexs.
      cbn [app List.length List.concat].
      split; [rewrite Hinv', (ceil8_step (List.length (waiting_rows (store w)))) by lia;
              reflexivity|].
      split; [rewrite Hcat', <- map_app, firstn_skipn; reflexivity|].
      split; [constructor; [rewrite length_map; apply firstn_le_length | exact Hsm']|].
      split; [exact Hend|].
      split; [rewrite Hex', (ceil8_step (List.length (waiting_rows (store w)))) by lia;
              lia|].
      exists ((List.length (waiting_rows (store w)) - 8) :: counts).
      split; [now rewrite Hc1|]. split; [now constructor|].
      cbn [List.length]. now rewrite Hc3.
    + (* at most eight were waiting: the count reads 0 and the loop ends *)
      assert (HW8 : List.length (waiting_rows (store w)) <= 8) by lia.
      assert (Hpos : 0 < List.length (waiting_rows (store w))).
      { rewrite Hwait. simpl. lia. }
      replace (List.length (waiting_rows (store w)) - 8) with 0 by lia.
      exists (mkworld (store w1) (log w1 ++ [Remaining 0])), (evs1 ++ [Remaining 0]).
      split; [reflexivity|]. cbn [store log].
      split; [rewrite Hlog, <- app_assoc; reflexivity|].
      assert (Hexs : executions (evs1 ++ [Remaining 0]) = 1).
      { rewrite executions_app, Hex. reflexivity. }
      rewrite invocations_app, remaining_app, Hinv, Hrem,
        invocations_remaining, remaining_single, Hexs.
      cbn [app List.length List.concat].
      split; [now rewrite ceil8_small|].
      split; [rewrite app_nil_r, firstn_all2 by exact HW8; reflexivity|].
      split; [constructor; [rewrite length_map; apply firstn_le_length | constructor]|].
      split; [rewrite Hw1; apply skipn_all2; exact HW8|].
      split; [now rewrite ceil8_small|].
      exists []. repeat split. constructor.
Qed.

(** The node prints no count. *)
Lemma node_remaining (env : filter_env) (w : world) :
  remaining (log (snd (tender_filter_node env w))) = remaining (log w).
Proof.
  rewrite tender_filter_node_spec. cbv zeta.
  destruct (waiting_batch _ _) as [|t0 rest].
  - cbn [snd log]. rewrite remaining_app. simpl. now rewrite app_nil_r.
  - destruct (llm_invoke env _); cbn [snd log];
      rewrite !remaining_app, ?remaining_of_marked; simpl; now rewrite app_nil_r.
Qed.

(** Whatever happens outside the program, the loop takes the edge to the
    notifier when, and only when, the count it has just read is 0: every
    earlier count was positive. *)
Lemma loop_exit_reads_zero (envs : nat -> filter_env) :
  forall (fuel k : nat) (w w' : world),
    filter_loop fuel envs k w = (Some (Ok tt), w') ->
    exists counts,
      remaining (log w') = remaining (log w) ++ counts ++ [0]
      /\ Forall (fun n => 0 < n) counts
      /\ List.length counts < fuel.
Proof.
  induction fuel as [|fuel IH]; intros k w w' H; [discriminate H|].
  cbn [filter_loop] in H.
  pose proof (node_remaining (envs k) w) as Hn.
  destruct (tender_filter_node (envs k) w) as [[[]|e] w1]; [|discriminate H].
  cbn [snd] in Hn. rewrite should_continue_spec in H.
  destruct (count_fault (envs k)) eqn:Hcf; [| discriminate H |]; cbv zeta in H;
    match type of H with
    | context [Remaining ?m] => set (n := m) in *
    end;
    (destruct (Nat.ltb_spec 0 n) as [Hpos|Hzero];
     [apply IH in H; destruct H as [counts [Hc [Hall Hlen]]]; cbn [log] in Hc;
      exists (n :: counts); split; [|split; [now constructor | simpl; lia]];
      rewrite Hc, remaining_app, remaining_single, Hn, <- app_assoc; reflexivity
     |injection H as <-; cbn [log]; exists []; split; [|split; [constructor | simpl; lia]];
      rewrite remaining_app, remaining_single, Hn;
      replace n with 0 by lia; reflexivity]).
Qed.

Lemma ceil8_bound (W fuel : nat) :
  Nat.max 1 ((W + 7) / 8) <= fuel -> 0 < fuel /\ W <= 8 * fuel.
Proof.
  intros H. split; [lia|].
  pose proof (Nat.div_mod_eq (W + 7) 8) as E.
  pose proof (Nat.mod_upper_bound (W + 7) 8) as B.
  nia.
Qed.

Lemma answering_calm (ids : list Z) : calm (answering ids).
Proof.
  repeat split. intros batch. now exists (listing_of ids).
Qed.

(** The loop in which nothing fails, given fewer rounds than the waiting
    rows need: every round takes eight rows, and the loop is still going
    when the rounds are used up. *)
Lemma calm_loop_cut (envs : nat -> filter_env) :
  (forall j, calm (envs j)) ->
  forall (fuel k : nat) (w : world),
    unique_ids (store w) ->
    forallb convertible (waiting_rows (store w)) = true ->
    8 * fuel < List.length (waiting_rows (store w)) ->
    exists w' evs,
      filter_loop fuel envs k w = (None, w')
      /\ log w' = log w ++ evs
      /\ executions evs = fuel
      /\ List.length (invocations evs) = fuel
      /\ waiting_rows (store w') = skipn (8 * fuel) (waiting_rows (store w)).
Proof.
  intros Hcalm. induction fuel as [|fuel IH]; intros k w Hu Hc HW.
  - exists w, []. cbn [filter_loop]. rewrite app_nil_r. repeat split.
  - assert (Hne : waiting_rows (store w) <> []).
    { intros E. rewrite E in HW. simpl in HW. lia. }
    destruct (calm_round (envs k) w (Hcalm k) Hu Hc Hne)
      as [w1 [evs1 [Hrun [Hlog [Hinv [Hrem [Hex [Hw1 Hu1]]]]]]]].
    cbn [filter_loop]. rewrite Hrun, (calm_edge _ _ (Hcalm k)), Hw1, length_skipn.
    destruct (Nat.ltb_spec 0 (List.length (waiting_rows (store w)) - 8)) as [Hgt|Hle];
      [|lia].
    destruct (IH (S k)
                (mkworld (store w1)
                   (log w1 ++ [Remaining (List.length (waiting_rows (store w)) - 8)])))
      as [w' [evs' [Hloop [Hlog' [Hex' [Hinv' Hrest]]]]]];
      cbn [store log]; try rewrite Hw1; try rewrite length_skipn;
      [exact Hu1 | now apply forallb_skipn | lia |].
    cbn [store log] in *. rewrite Hw1 in Hrest.
    exists w', (evs1 ++ [Remaining (List.length (waiting_rows (store w)) - 8)] ++ evs').
    split; [exact Hloop|].
    split; [rewrite Hlog', Hlog, <- !app_assoc; reflexivity|].
    split; [rewrite !executions_app, Hex, Hex'; reflexivity|].
    split; [rewrite !invocations_app, Hinv, invocations_remaining, !length_app, Hinv';
            reflexivity|].
    rewrite Hrest, skipn_skipn. f_equal. lia.
Qed.

(** The classification stage of a run is the loop run for the rounds that
    the graph library allows. *)
Lemma classification_unfold (envs : nat -> filter_env) (w : world) :
  classification envs w
  = match filter_loop rounds_allowed envs 0 w with
    | (Some r, w') => (r, w')
    | (None, w') => (Raise GraphRecursionError, w')
    end.
Proof. reflexivity. Qed.

(** C3, counterexample.  With nothing waiting, the node is still executed
    once: the graph enters it from the scraper before any count is read.  It
    fetches an empty batch and returns, and the count that follows reads 0.
    That is one round where [ceil (0 / 8)] is 0.  Two more runs in which the
    loop does not end on a count of 0: with 200 tenders waiting the graph
    library ends the run after 24 rounds, with 8 tenders still waiting; and
    with one waiting tender that does not validate, every batch is empty,
    the count stays at 1, and the run is ended in the same way without an
    invocation of the model. *)
Lemma empty_table_round_counterexample :
  waiting_rows DB.empty = []
  /\ (List.length (waiting_rows DB.empty) + 7) / 8 = 0
  /\ filter_loop 1 (fun _ => answering []) 0 (mkworld DB.empty [])
     = (Some (Ok tt),
        mkworld DB.empty [ProcessingBatch 0; NoTendersToProcess; Remaining 0])
  /\ executions [ProcessingBatch 0; NoTendersToProcess; Remaining 0] = 1
  /\ (fst (classification (fun _ => answering []) (mkworld (many_waiting 200) []))
      = Raise GraphRecursionError
      /\ List.length
           (waiting_rows (store (snd (classification (fun _ => answering [])
                                        (mkworld (many_waiting 200) [])))))
         = 8)
  /\ (fst (classification (fun _ => answering []) (mkworld one_without_organization []))
      = Raise GraphRecursionError
      /\ invocations (log (snd (classification (fun _ => answering [])
                                  (mkworld one_without_organization []))))
         = [])
  /\ ~ rounds_within_ceiling.
Proof.
  repeat (split; [reflexivity|]).
  split; [split; vm_compute; reflexivity|].
  split; [split; vm_compute; reflexivity|].
  intros H.
  specialize (H (fun _ => answering []) 1 DB.empty
                (mkworld DB.empty [ProcessingBatch 0; NoTendersToProcess; Remaining 0])
                (fun _ => answering_calm [])).
  assert (Hle : 1 <= 0).
  { apply H; [constructor | reflexivity | reflexivity]. }
  lia.
Qed.

(** C3, amended.  Take [W] rows waiting at the start, unique ids, waiting
    rows that all validate, and nothing failing outside the program (in
    particular no other writer: the table changes only through the loop).
    When [max 1 (ceil (W / 8))] rounds fit into the rounds that the graph
    library allows, the loop ends normally, on the edge to the notifier,
    after exactly that many executions of the node: one per group of at most
    eight waiting ids, each with one invocation of the model, and a single
    execution on an empty batch when nothing is waiting.  No row is waiting at the end; the counts
    read by the conditional edge are all positive except the last, which is
    0.  When they do not fit, the run is ended by GraphRecursionError after
    the rounds allowed, each of which has taken eight rows.  For any
    environment, the loop ends normally exactly on a count that reads 0, and
    an empty batch ends the execution of the node without an invocation of
    the model and without a change of the table. *)
Theorem classification_loop_termination :
  (forall (envs : nat -> filter_env) (w : world),
     (forall j, calm (envs j)) ->
     unique_ids (store w) ->
     forallb convertible (waiting_rows (store w)) = true ->
     Nat.max 1 ((List.length (waiting_rows (store w)) + 7) / 8) <= rounds_allowed ->
     exists w' evs,
       classification envs w = (Ok tt, w')
       /\ log w' = log w ++ evs
       /\ List.length (invocations evs) = (List.length (waiting_rows (store w)) + 7) / 8
       /\ List.concat (invocations evs) = map DB.id (waiting_rows (store w))
       /\ Forall (fun batch => List.length batch <= 8) (invocations evs)
       /\ waiting_rows (store w') = []
       /\ executions evs = Nat.max 1 ((List.length (waiting_rows (store w)) + 7) / 8)
       /\ exists counts,
            remaining evs = counts ++ [0]
            /\ Forall (fun n => 0 < n) counts
            /\ S (List.length counts) = executions evs)
  /\ (forall (envs : nat -> filter_env) (w : world),
        (forall j, calm (envs j)) ->
        unique_ids (store w) ->
        forallb convertible (waiting_rows (store w)) = true ->
        rounds_allowed < (List.length (waiting_rows (store w)) + 7) / 8 ->
        exists w' evs,
          classification envs w = (Raise GraphRecursionError, w')
          /\ log w' = log w ++ evs
          /\ executions evs = rounds_allowed
          /\ List.length (invocations evs) = rounds_allowed
          /\ waiting_rows (store w')
             = skipn (8 * rounds_allowed) (waiting_rows (store w)))
  /\ (forall (envs : nat -> filter_env) (w w' : world),
        classification envs w = (Ok tt, w') ->
        exists counts,
          remaining (log w') = remaining (log w) ++ counts ++ [0]
          /\ Forall (fun n => 0 < n) counts
          /\ List.length counts < rounds_allowed)
  /\ (forall (env : filter_env) (w : world),
        waiting_batch (fetch_fault env) (store w) = [] ->
        exists w1,
          tender_filter_node env w = (Ok tt, w1)
          /\ store w1 = store w
          /\ invocations (log w1) = invocations (log w)).
Proof.
  split; [|split; [|split]].
  - intros envs w Hcalm Hu Hc Hfuel.
    apply ceil8_bound in Hfuel. destruct Hfuel as [Hpos HW].
    destruct (calm_loop_drains envs Hcalm rounds_allowed 0 w Hu Hc Hpos HW)
      as [w' [evs [Hrun Hrest]]].
    exists w', evs. rewrite classification_unfold, Hrun. now split.
  - intros envs w Hcalm Hu Hc Hmore.
    assert (HW : 8 * rounds_allowed < List.length (waiting_rows (store w))).
    { pose proof (Nat.div_mod_eq (List.length (waiting_rows (store w)) + 7) 8) as E.
      pose proof (Nat.mod_upper_bound (List.length (waiting_rows (store w)) + 7) 8) as B.
      nia. }
    destruct (calm_loop_cut envs Hcalm rounds_allowed 0 w Hu Hc HW)
      as [w' [evs [Hrun Hrest]]].
    exists w', evs. rewrite classification_unfold, Hrun. now split.
  - intros envs w w' H. rewrite classification_unfold in H.
    destruct (filter_loop rounds_allowed envs 0 w) as [[r|] w1] eqn:Hloop;
      [|discriminate H].
    injection H as -> ->. now apply (loop_exit_reads_zero envs _ 0 w w').
  - intros env w Hb. eexists. split; [now apply empty_batch_round|].
    cbn [store log]. split; [reflexivity|].
    rewrite invocations_app. simpl. now rewrite app_nil_r.
Qed.

Lemma classification_loop_termination_witness :
  exists w' evs,
    classification (fun _ => answering [3; 9]%Z) (mkworld (many_waiting 10) [])
    = (Ok tt, w')
    /\ log w' = evs
    /\ invocations evs = [[1; 2; 3; 4; 5; 6; 7; 8]; [9; 10]]%Z
    /\ remaining evs = [2; 0]
    /\ waiting_rows (store w') = [].
Proof.
  destruct (proj1 classification_loop_termination
              (fun _ => answering [3; 9]%Z) (mkworld (many_waiting 10) [])
              (fun _ => answering_calm [3; 9]%Z))
    as [w' [evs [Hrun [Hlog [_ [_ [_ [Hend _]]]]]]]].
  - unfold unique_ids; vm_compute; repeat constructor; simpl; intuition discriminate.
  - vm_compute; reflexivity.
  - vm_compute; lia.
  - cbn [log app] in Hlog. subst evs.
    exists w', (log w'). split; [exact Hrun|]. split; [reflexivity|].
    assert (Hw : w' = snd (classification (fun _ => answering [3; 9]%Z)
                             (mkworld (many_waiting 10) []))) by (now rewrite Hrun).
    split; [|split; [|exact Hend]].
    + rewrite Hw; vm_compute; reflexivity.
    + rewrite Hw; vm_compute; reflexivity.
Defined.

(** ** Failures during the classification loop *)

(** C9, counterexample.  SQLite fails on the first fetch: the node takes
    the empty list for the batch and returns, the count reads 1, and the
    same run goes round again and classifies the tender; nothing is aborted.
    And when SQLite fails on the update of tender 2 only, the round goes on:
    tender 1 of the same batch is moved, tender 2 stays waiting, no exception
    leaves the node, and a failing count then reads 0 and ends the loop
    normally. *)
Lemma store_error_counterexample :
  (exists w',
     filter_loop 3 fetch_fails_once 0 (mkworld one_waiting []) = (Some (Ok tt), w')
     /\ state_of 1 (store w') = Some (VText "qualified")
     /\ invocations (log w') = [[1%Z]]
     /\ remaining (log w') = [1; 0])
  /\ (exists w',
        filter_loop 3 (fun _ => update_fails_on_2) 0 (mkworld three_tenders [])
        = (Some (Ok tt), w')
        /\ state_of 1 (store w') = Some (VText "qualified")
        /\ state_of 2 (store w') = Some (VText "waiting_for_filtering"))
  /\ ~ store_errors_abort.
Proof.
  split; [|split].
  - eexists. split; [vm_compute; reflexivity|]. repeat split.
  - eexists. split; [vm_compute; reflexivity|]. repeat split.
  - intros H.
    destruct (H fetch_fails_once 3 0 (mkworld one_waiting []) eq_refl)
      as [e [w' E]]; [lia|].
    vm_compute in E. discriminate E.
Qed.

(** An exception leaves the node only from the invocation of the model, on
    a non-empty batch, before any update. *)
Lemma node_raise (env : filter_env) (w w1 : world) (e : exn) :
  tender_filter_node env w = (Raise e, w1) ->
  waiting_batch (fetch_fault env) (store w) <> []
  /\ llm_invoke env (waiting_batch (fetch_fault env) (store w)) = Raise e
  /\ w1 = mkworld (store w)
            (log w ++ [ProcessingBatch
                         (List.length (waiting_batch (fetch_fault env) (store w)));
                       InvokingLLM
                         (map Tender.id (waiting_batch (fetch_fault env) (store w)))]).
Proof.
  rewrite tender_filter_node_spec. cbv zeta.
  destruct (waiting_batch (fetch_fault env) (store w)) as [|t0 rest] eqn:Hb;
    [discriminate|].
  destruct (llm_invoke env (t0 :: rest)) as [qs|e'] eqn:Hq; [discriminate|].
  intros H. injection H as <- <-. repeat split. discriminate.
Qed.

Lemma node_raise_forward (env : filter_env) (w : world) (e : exn) :
  waiting_batch (fetch_fault env) (store w) <> [] ->
  llm_invoke env (waiting_batch (fetch_fault env) (store w)) = Raise e ->
  tender_filter_node env w
  = (Raise e,
     mkworld (store w)
       (log w ++ [ProcessingBatch
                    (List.length (waiting_batch (fetch_fault env) (store w)));
                  InvokingLLM
                    (map Tender.id (waiting_batch (fetch_fault env) (store w)))])).
Proof.
  intros Hne Hq. rewrite tender_filter_node_spec. cbv zeta.
  destruct (waiting_batch (fetch_fault env) (store w)) as [|t0 rest] eqn:Hb;
    [congruence|].
  now rewrite Hq.
Qed.

Lemma completed_rounds_le (envs : nat -> filter_env) (k j : nat) (w wj : world) :
  completed_rounds envs k w j wj -> k <= j.
Proof. induction 1; lia. Qed.

(** The rounds before a failing one run, then the loop stops on the
    exception, with the world as the failing node left it. *)
Lemma loop_abort_forward (envs : nat -> filter_env) (k j : nat) (w wj : world) :
  completed_rounds envs k w j wj ->
  forall (fuel : nat) (e : exn) (w' : world),
    tender_filter_node (envs j) wj = (Raise e, w') ->
    j - k < fuel ->
    filter_loop fuel envs k w = (Some (Raise e), w').
Proof.
  induction 1 as [k w|k j w w1 w2 wj Hnode Hcont Hrest IH]; intros fuel e w' Hfail Hfuel.
  - destruct fuel as [|fuel]; [lia|]. cbn [filter_loop]. now rewrite Hfail.
  - pose proof (completed_rounds_le envs (S k) j w2 wj Hrest) as Hle.
    destruct fuel as [|fuel]; [lia|]. cbn [filter_loop].
    rewrite Hnode, Hcont. apply IH; [exact Hfail | lia].
Qed.

(** The rounds before an edge that cannot open its repository run, the
    node of that round runs too, then the loop stops on the exception of the
    edge, with the world as the node left it. *)
Lemma loop_abort_edge (envs : nat -> filter_env) (k j : nat) (w wj : world) :
  completed_rounds envs k w j wj ->
  forall (fuel : nat) (w1 : world),
    tender_filter_node (envs j) wj = (Ok tt, w1) ->
    count_fault (envs j) = OpenFails ->
    j - k < fuel ->
    filter_loop fuel envs k w = (Some (Raise OperationalError), w1).
Proof.
  induction 1 as [k w|k j w w1 w2 wj Hnode Hcont Hrest IH]; intros fuel w3 Hok Hf Hfuel.
  - destruct fuel as [|fuel]; [lia|]. cbn [filter_loop].
    now rewrite Hok, should_continue_spec, Hf.
  - pose proof (completed_rounds_le envs (S k) j w2 wj Hrest) as Hle.
    destruct fuel as [|fuel]; [lia|]. cbn [filter_loop].
    rewrite Hnode, Hcont. apply IH; [exact Hok | exact Hf | lia].
Qed.

(** Every abort of the loop is an exception of the node, or of the edge
    that follows it, after rounds that completed. *)
Lemma loop_abort_backward (envs : nat -> filter_env) :
  forall (fuel k : nat) (w w' : world) (e : exn),
    filter_loop fuel envs k w = (Some (Raise e), w') ->
    exists j wj,
      completed_rounds envs k w j wj
      /\ (tender_filter_node (envs j) wj = (Raise e, w')
          \/ (tender_filter_node (envs j) wj = (Ok tt, w')
              /\ count_fault (envs j) = OpenFails
              /\ e = OperationalError)).
Proof.
  induction fuel as [|fuel IH]; intros k w w' e H; [discriminate H|].
  cbn [filter_loop] in H.
  destruct (tender_filter_node (envs k) w) as [[[]|e1] w1] eqn:Hnode.
  - destruct (should_continue_filtering (envs k) w1) as [[[|]|e2] w2] eqn:Hcont.
    + destruct (IH _ _ _ _ H) as [j [wj [Hr Hf]]].
      exists j, wj. split; [|exact Hf].
      now apply (rounds_more envs k j w w1 w2 wj Hnode Hcont).
    + discriminate H.
    + rewrite should_continue_spec in Hcont.
      destruct (count_fault (envs k)) eqn:Hcf; try discriminate Hcont.
      injection Hcont as <- <-. injection H as <- <-.
      exists k, w. split; [constructor|]. right. now repeat split.
  - injection H as <- <-. exists k, w. split; [constructor | now left].
Qed.

(** A loop that is still going when its rounds are used up has completed
    them all. *)
Lemma loop_cut_rounds (envs : nat -> filter_env) :
  forall (fuel k : nat) (w w' : world),
    filter_loop fuel envs k w = (None, w') ->
    completed_rounds envs k w (k + fuel) w'.
Proof.
  induction fuel as [|fuel IH]; intros k w w' H.
  - cbn [filter_loop] in H. injection H as <-. rewrite Nat.add_0_r. constructor.
  - cbn [filter_loop] in H.
    destruct (tender_filter_node (envs k) w) as [[[]|e1] w1] eqn:Hnode; [|discriminate H].
    destruct (should_continue_filtering (envs k) w1) as [[[|]|e2] w2] eqn:Hcont;
      try discriminate H.
    apply IH in H. replace (k + S fuel) with (S k + fuel) by lia.
    now apply (rounds_more envs k _ w w1 w2 w' Hnode Hcont).
Qed.

(** C9, amended.  When the invocation of the model raises, in one of the
    rounds that the graph library allows, the run aborts at once with that
    exception: the table is the one the earlier rounds of the run left, so
    their transitions stay and the batch in flight is still waiting; no
    transition is announced and the model is not invoked again.  A failure
    of SQLite inside a call of the repository does not abort: a failed fetch
    gives the node an empty batch, a failed update leaves that tender in its
    state while the node goes on, and a failed count reads 0, which ends the
    loop normally.  A failure of SQLite while the conditional edge builds
    its repository does abort the run, with OperationalError, after the node
    of that round has returned: the transitions of that round stay as well.
    The classification is left by an exception in these two ways only,
    apart from the GraphRecursionError of a loop that is still going after
    the rounds allowed. *)
Theorem classifier_failure_aborts :
  (forall (envs : nat -> filter_env) (j : nat) (w wj : world) (e : exn)
          (batch : list Tender.t),
     completed_rounds envs 0 w j wj ->
     batch = waiting_batch (fetch_fault (envs j)) (store wj) ->
     batch <> [] ->
     llm_invoke (envs j) batch = Raise e ->
     j < rounds_allowed ->
     exists w',
       classification envs w = (Raise e, w')
       /\ store w' = store wj
       /\ map Tender.id batch = map DB.id (firstn 8 (waiting_rows (store w')))
       /\ marks (log w') = marks (log wj)
       /\ invocations (log w') = invocations (log wj) ++ [map Tender.id batch])
  /\ (forall (envs : nat -> filter_env) (j : nat) (w wj w1 : world),
        completed_rounds envs 0 w j wj ->
        tender_filter_node (envs j) wj = (Ok tt, w1) ->
        count_fault (envs j) = OpenFails ->
        j < rounds_allowed ->
        classification envs w = (Raise OperationalError, w1))
  /\ (forall (envs : nat -> filter_env) (w w' : world) (e : exn),
        classification envs w = (Raise e, w') ->
        exists j wj,
          completed_rounds envs 0 w j wj
          /\ ((waiting_batch (fetch_fault (envs j)) (store wj) <> []
               /\ llm_invoke (envs j) (waiting_batch (fetch_fault (envs j)) (store wj))
                  = Raise e
               /\ store w' = store wj)
              \/ (count_fault (envs j) = OpenFails
                  /\ e = OperationalError
                  /\ tender_filter_node (envs j) wj = (Ok tt, w'))
              \/ (e = GraphRecursionError /\ j = rounds_allowed /\ w' = wj)))
  /\ (forall (env : filter_env) (w : world),
        fetch_fault env = true ->
        tender_filter_node env w
        = (Ok tt, mkworld (store w) (log w ++ [ProcessingBatch 0; NoTendersToProcess])))
  /\ (forall (env : filter_env) (w : world) (qualified_tenders : list Tender.t) (i : Z),
        llm_invoke env (waiting_batch (fetch_fault env) (store w)) = Ok qualified_tenders ->
        update_fault env i = true ->
        exists w1,
          tender_filter_node env w = (Ok tt, w1)
          /\ state_of i (store w1) = state_of i (store w))
  /\ (forall (env : filter_env) (w : world),
        count_fault env = CountFails ->
        should_continue_filtering env w
        = (Ok false, mkworld (store w) (log w ++ [Remaining 0]))).
Proof.
  split; [|split; [|split; [|split; [|split]]]].
  - intros envs j w wj e batch Hrounds Hb Hne Hq Hfuel. subst batch.
    pose proof (node_raise_forward (envs j) wj e Hne Hq) as Hfail.
    eexists. split.
    + rewrite classification_unfold.
      rewrite (loop_abort_forward envs 0 j w wj Hrounds rounds_allowed e _ Hfail);
        [reflexivity | lia].
    + cbn [store log]. split; [reflexivity|]. split.
      * destruct (waiting_batch_ids (fetch_fault (envs j)) (store wj)) as [E|[_ E]];
          [contradiction | exact E].
      * rewrite marks_app, invocations_app. simpl. now rewrite app_nil_r.
  - intros envs j w wj w1 Hrounds Hok Hf Hfuel.
    rewrite classification_unfold.
    rewrite (loop_abort_edge envs 0 j w wj Hrounds rounds_allowed w1 Hok Hf);
      [reflexivity | lia].
  - intros envs w w' e H. rewrite classification_unfold in H.
    destruct (filter_loop rounds_allowed envs 0 w) as [[r|] w1] eqn:Hloop.
    + injection H as -> ->.
      destruct (loop_abort_backward envs _ 0 w w' e Hloop) as [j [wj [Hr [Hf|Hf]]]].
      * apply node_raise in Hf. destruct Hf as [Hne [Hq Hw]].
        exists j, wj. subst w'. split; [exact Hr|]. left. now repeat split.
      * destruct Hf as [Hok [Hcf He]].
        exists j, wj. split; [exact Hr|]. right. left. now repeat split.
    + injection H as <- <-. apply loop_cut_rounds in Hloop.
      exists rounds_allowed, w1. split; [exact Hloop|]. right. right. now repeat split.
  - intros env w Hf. apply empty_batch_round. unfold waiting_batch.
    now rewrite Hf.
  - intros env w qs i Hq Hf.
    pose proof (node_store env w qs Hq) as Hst.
    pose proof (tender_filter_node_spec env w) as Hs. cbv zeta in Hs.
    rewrite Hq in Hs.
    assert (Hok : fst (tender_filter_node env w) = Ok tt).
    { rewrite Hs. now destruct (waiting_batch _ _). }
    exists (snd (tender_filter_node env w)). split.
    + destruct (tender_filter_node env w) as [r w1]. simpl in *. now subst r.
    + rewrite Hst. destruct (store w) as [rows sq]. apply state_of_skipped.
      rewrite Hf. apply andb_false_r.
  - intros env w Hf. now rewrite should_continue_spec, Hf.
Qed.

Lemma classifier_failure_aborts_witness :
  exists w',
    classification model_fails_second (mkworld (many_waiting 10) [])
    = (Raise (ClassifierError "service unavailable"), w')
    /\ state_of 3 (store w') = Some (VText "qualified")
    /\ state_of 1 (store w') = Some (VText "unqualified")
    /\ state_of 9 (store w') = Some (VText "waiting_for_filtering")
    /\ state_of 10 (store w') = Some (VText "waiting_for_filtering")
    /\ invocations (log w') = [[1; 2; 3; 4; 5; 6; 7; 8]; [9; 10]]%Z.
Proof.
  pose (w0 := mkworld (many_waiting 10) []).
  pose (w1 := snd (tender_filter_node (model_fails_second 0) w0)).
  pose (w2 := snd (should_continue_filtering (model_fails_second 0) w1)).
  assert (Hrounds : completed_rounds model_fails_second 0 w0 1 w2).
  { apply (rounds_more model_fails_second 0 1 w0 w1 w2 w2).
    - vm_compute. reflexivity.
    - vm_compute. reflexivity.
    - constructor. }
  destruct (proj1 classifier_failure_aborts model_fails_second 1 w0 w2
              (ClassifierError "service unavailable")
              (waiting_batch false (store w2)) Hrounds eq_refl)
    as [w' [Hrun [Hst [_ [_ Hinv]]]]].
  - vm_compute. discriminate.
  - reflexivity.
  - vm_compute. lia.
  - exists w'. split; [exact Hrun|]. rewrite Hst, Hinv.
    vm_compute. repeat split.
Defined.

(** ** The notification dispatcher *)

Lemma mark_tender_as_sent_spec (fault : bool) (i : Z) (w : world) :
  Repo.mark_tender_as_sent fault i w
  = (Ok tt,
     mkworld (if fault then store w
              else DB.mk (DB.update_rows i "is_sent" (VInt 1) (DB.tenders (store w)))
                         (DB.sequence (store w)))
             (log w)).
Proof.
  destruct w as [db l].
  unfold Repo.mark_tender_as_sent, catch, bind, db_call, ret. simpl.
  destruct fault; [reflexivity|].
  rewrite (DBFacts.update_whitelisted i "is_sent" (VInt 1) db eq_refl eq_refl).
  reflexivity.
Qed.

Lemma set_sent_twice (v : value) (r : DB.row) :
  DB.set_field "is_sent" v (DB.set_field "is_sent" v r) = DB.set_field "is_sent" v r.
Proof. destruct r. reflexivity. Qed.

Lemma set_sent_sent (v : value) (r : DB.row) :
  DB.is_sent (DB.set_field "is_sent" v r) = v.
Proof. destruct r. reflexivity. Qed.

Lemma set_sent_state (v : value) (r : DB.row) :
  DB.state (DB.set_field "is_sent" v r) = DB.state r.
Proof. destruct r. reflexivity. Qed.

Lemma mark_rows_nil (rows : list DB.row) : mark_rows [] rows = rows.
Proof.
  unfold mark_rows. simpl. rewrite <- (map_id rows) at 2.
  apply map_ext. reflexivity.
Qed.

Lemma mark_rows_cons (i : Z) (ids : list Z) (rows : list DB.row) :
  mark_rows ids (DB.update_rows i "is_sent" (VInt 1) rows) = mark_rows (i :: ids) rows.
Proof.
  unfold mark_rows, DB.update_rows. rewrite map_map. apply map_ext.
  intros r. simpl. unfold DB.has_id.
  destruct (Z.eqb (DB.id r) i) eqn:E; simpl; [|reflexivity].
  rewrite DBFacts.set_field_id.
  destruct (id_in (DB.id r) ids); [apply set_sent_twice | reflexivity].
Qed.

Lemma mark_rows_ids (ids : list Z) (rows : list DB.row) :
  map DB.id (mark_rows ids rows) = map DB.id rows.
Proof.
  unfold mark_rows. rewrite map_map. apply map_ext. intros r.
  destruct (id_in _ _); [apply DBFacts.set_field_id | reflexivity].
Qed.

(** The loop over the tenders: every tender has its turn, whatever the
    outcome of the turns before it. *)
Lemma for_each_send (env : notify_env) (tenders : list Tender.t) :
  forall w : world,
    for_each tenders (fun tender =>
      catch
        (emit (Sending (Tender.id tender)) ;;
         success <- lift (telegram_run env tender) ;;
         if (success : bool)
         then
           emit (SentOk (Tender.id tender)) ;;
           Repo.mark_tender_as_sent (mark_fault env (Tender.id tender))
             (Tender.id tender) ;;
           emit (MarkedSent (Tender.id tender))
         else emit (SendFailed (Tender.id tender)))
        (fun e => emit (ErrorProcessing (Tender.id tender) e))) w
    = (Ok tt,
       mkworld (DB.mk (mark_rows (delivered env tenders) (DB.tenders (store w)))
                      (DB.sequence (store w)))
               (log w ++ flat_map (send_events env) tenders)).
Proof.
  induction tenders as [|t rest IH]; intros [[rows sq] l].
  - simpl. unfold ret. now rewrite mark_rows_nil, app_nil_r.
  - cbn [for_each]. unfold bind at 1. unfold catch at 1. unfold bind at 1.
    unfold emit at 1. unfold bind at 1. unfold lift at 1.
    unfold delivered, send_events, send_ok in *. cbn [flat_map filter map store log].
    destruct (telegram_run env t) as [[|]|e].
    + unfold bind at 1. unfold emit at 1. unfold bind at 1.
      rewrite mark_tender_as_sent_spec. unfold emit at 1. cbn [store log DB.tenders DB.sequence].
      rewrite IH. cbn [store log DB.tenders DB.sequence andb].
      rewrite <- !app_assoc. cbn [app].
      destruct (mark_fault env (Tender.id t)); cbn [negb map DB.tenders DB.sequence];
        [reflexivity | now rewrite mark_rows_cons].
    + unfold emit at 1. cbn [store log]. rewrite IH. cbn [store log andb].
      rewrite <- !app_assoc. reflexivity.
    + unfold emit at 1. cbn [store log]. rewrite IH. cbn [store log andb].
      rewrite <- !app_assoc. reflexivity.
Qed.

Lemma sends_app (l1 l2 : list event) : sends (l1 ++ l2) = sends l1 ++ sends l2.
Proof. unfold sends. apply flat_map_app. Qed.

Lemma sends_of_events (env : notify_env) (tenders : list Tender.t) :
  sends (flat_map (send_events env) tenders) = map Tender.id tenders.
Proof.
  induction tenders as [|t rest IH]; [reflexivity|].
  cbn [flat_map map]. rewrite sends_app, IH. unfold send_events.
  destruct (telegram_run env t) as [[|]|e]; reflexivity.
Qed.

Lemma send_notifications_spec (env : notify_env) (tenders : list Tender.t) (w : world) :
  _send_tender_notifications env tenders w
  = if chat_ok env
    then (Ok tt,
          mkworld (DB.mk (mark_rows (delivered env tenders) (DB.tenders (store w)))
                         (DB.sequence (store w)))
                  (log w ++ flat_map (send_events env) tenders))
    else (Raise (ValueError "TELEGRAM_CHAT_ID environment variable is not set"), w).
Proof.
  unfold _send_tender_notifications, chat_ok.
  destruct (chat_id env) as [c|]; [|reflexivity].
  destruct (c =? ""); [reflexivity|]. simpl. apply for_each_send.
Qed.

Lemma find_mark_rows (ids : list Z) (i : Z) (rows : list DB.row) :
  find (DB.has_id i) (mark_rows ids rows)
  = option_map (fun r => if id_in (DB.id r) ids
                         then DB.set_field "is_sent" (VInt 1) r else r)
               (find (DB.has_id i) rows).
Proof.
  unfold mark_rows. apply find_map_same. intros r. unfold DB.has_id.
  destruct (id_in _ _); [now rewrite DBFacts.set_field_id | reflexivity].
Qed.

(** The sent flag after a run: written for the delivered ids, kept for the
    others. *)
Lemma sent_of_mark_rows (ids : list Z) (i : Z) (rows : list DB.row) (sq sq' : Z) :
  sent_of i (DB.mk (mark_rows ids rows) sq)
  = if id_in i ids
    then option_map (fun _ => VInt 1) (sent_of i (DB.mk rows sq'))
    else sent_of i (DB.mk rows sq').
Proof.
  unfold sent_of. simpl. rewrite find_mark_rows.
  destruct (find (DB.has_id i) rows) as [r0|] eqn:E; simpl.
  - apply find_some in E. destruct E as [_ E]. apply DBFacts.has_id_true in E.
    rewrite E. destruct (id_in i ids); [now rewrite set_sent_sent | reflexivity].
  - now destruct (id_in i ids).
Qed.

Lemma delivered_in (env : notify_env) (tenders : list Tender.t) (i : Z) :
  In i (delivered env tenders)
  <-> exists tender,
        In tender tenders /\ Tender.id tender = i
        /\ telegram_run env tender = Ok true
        /\ mark_fault env (Tender.id tender) = false.
Proof.
  unfold delivered, send_ok. rewrite in_map_iff. split.
  - intros [t [Hid Hin]]. apply filter_In in Hin. destruct Hin as [Hin Hok].
    apply andb_true_iff in Hok. destruct Hok as [Hs Hm].
    exists t. repeat split; try assumption.
    + destruct (telegram_run env t) as [[|]|]; try discriminate. reflexivity.
    + now destruct (mark_fault env (Tender.id t)).
  - intros [t [Hin [Hid [Hs Hm]]]]. exists t. split; [exact Hid|].
    apply filter_In. split; [exact Hin|]. now rewrite Hs, Hm.
Qed.

Lemma insert_desc_perm (r : DB.row) (rows : list DB.row) :
  Permutation (DB.insert_desc r rows) (r :: rows).
Proof.
  induction rows as [|r' rest IH]; simpl; [reflexivity|].
  destruct (value_compare _ _); try reflexivity.
  rewrite IH. apply perm_swap.
Qed.

(** ORDER BY rearranges the rows it is given. *)
Lemma order_by_perm (rows : list DB.row) :
  Permutation (DB.order_by_posted_date_desc rows) rows.
Proof.
  unfold DB.order_by_posted_date_desc.
  induction rows as [|r rest IH]; simpl; [reflexivity|].
  rewrite insert_desc_perm. now constructor.
Qed.

(** With unique ids, the row found for the id of a row is that row. *)
Lemma find_unique (rows : list DB.row) (r : DB.row) :
  NoDup (map DB.id rows) -> In r rows -> find (DB.has_id (DB.id r)) rows = Some r.
Proof.
  induction rows as [|a rows IH]; intros Hnd Hin; [destruct Hin|].
  cbn [map] in Hnd. apply NoDup_cons_iff in Hnd. destruct Hnd as [Hfresh Hrest].
  cbn [find]. destruct Hin as [->|Hin].
  - unfold DB.has_id. now rewrite Z.eqb_refl.
  - destruct (DB.has_id (DB.id r) a) eqn:E; [|now apply IH].
    apply DBFacts.has_id_true in E. exfalso. apply Hfresh. rewrite E.
    now apply in_map.
Qed.

Lemma same_id_same_tender (tenders : list Tender.t) (x y : Tender.t) :
  NoDup (map Tender.id tenders) ->
  In x tenders -> In y tenders -> Tender.id x = Tender.id y -> x = y.
Proof.
  induction tenders as [|a rest IH]; intros Hnd Hx Hy Hid; [destruct Hx|].
  cbn [map] in Hnd. apply NoDup_cons_iff in Hnd. destruct Hnd as [Hfresh Hrest].
  destruct Hx as [->|Hx]; destruct Hy as [->|Hy]; try reflexivity.
  - exfalso. apply Hfresh. rewrite Hid. now apply in_map.
  - exfalso. apply Hfresh. rewrite <- Hid. now apply in_map.
  - now apply IH.
Qed.

Lemma in_insert_desc (r x : DB.row) (rows : list DB.row) :
  In x (DB.insert_desc r rows) <-> x = r \/ In x rows.
Proof.
  induction rows as [|r' rest IH]; simpl.
  - intuition.
  - destruct (value_compare _ _); simpl; rewrite ?IH; intuition.
Qed.

(** ORDER BY returns the rows it was given. *)
Lemma in_order_by (x : DB.row) (rows : list DB.row) :
  In x (DB.order_by_posted_date_desc rows) <-> In x rows.
Proof.
  unfold DB.order_by_posted_date_desc.
  induction rows as [|r rest IH]; simpl; [tauto|].
  rewrite in_insert_desc, IH. intuition.
Qed.

Lemma unsent_query (db : DB.t) :
  DB.get_tenders_by_state_and_sent false "qualified" false db
  = DB.order_by_posted_date_desc (unsent_rows db).
Proof. reflexivity. Qed.

(** The ids of the tenders of a run are ids of rows the query selects. *)
Lemma unsent_batch_rows (fault : bool) (db : DB.t) (tender : Tender.t) :
  In tender (unsent_batch fault db) ->
  exists r, In r (unsent_rows db) /\ DB.id r = Tender.id tender.
Proof.
  unfold unsent_batch. destruct fault.
  - simpl. intros [].
  - rewrite unsent_query.
    destruct (Repo.convert_all _) as [ts|] eqn:E; [|intros []].
    intros Hin. apply (in_map Tender.id) in Hin.
    rewrite (convert_all_ids _ ts E) in Hin.
    apply in_map_iff in Hin. destruct Hin as [r [Hid Hr]].
    exists r. split; [now apply in_order_by | exact Hid].
Qed.

(** When the rows validate, every selected row is in the run. *)
Lemma unsent_rows_batch (db : DB.t) (r : DB.row) :
  unsent_batch false db <> [] ->
  In r (unsent_rows db) ->
  In (DB.id r) (map Tender.id (unsent_batch false db)).
Proof.
  unfold unsent_batch. rewrite unsent_query.
  destruct (Repo.convert_all _) as [ts|] eqn:E; [|congruence].
  intros _ Hin. rewrite (convert_all_ids _ ts E).
  apply in_map. now apply in_order_by.
Qed.

Lemma unsent_row_facts (db : DB.t) (r : DB.row) :
  In r (unsent_rows db) ->
  In r (DB.tenders db)
  /\ DB.state r = VText "qualified"
  /\ DB.is_sent r = VInt 0.
Proof.
  unfold unsent_rows. intros H. apply filter_In in H. destruct H as [Hin Hp].
  apply andb_true_iff in Hp. destruct Hp as [Hst Hsent].
  split; [exact Hin|]. unfold DB.state_is in Hst. split.
  - destruct (DB.state r) as [|n|s]; try discriminate.
    simpl in Hst. apply String.eqb_eq in Hst. now subst.
  - destruct (DB.is_sent r) as [|n|s]; try discriminate.
    simpl in Hsent. apply Z.eqb_eq in Hsent. now subst.
Qed.

(** With unique ids, the tenders of a run have unique ids, and each is
    unsent in the table. *)
Lemma unsent_batch_unique (fault : bool) (db : DB.t) :
  unique_ids db -> NoDup (map Tender.id (unsent_batch fault db)).
Proof.
  intros Hu. unfold unsent_batch. destruct fault; [constructor|].
  rewrite unsent_query.
  destruct (Repo.convert_all _) as [ts|] eqn:E; [|constructor].
  rewrite (convert_all_ids _ ts E).
  apply (Permutation_NoDup (l := map DB.id (unsent_rows db))).
  - apply Permutation_map. symmetry. apply order_by_perm.
  - now apply unique_ids_filter.
Qed.

Lemma sent_of_selected (fault : bool) (db : DB.t) (tender : Tender.t) :
  unique_ids db ->
  In tender (unsent_batch fault db) ->
  sent_of (Tender.id tender) db = Some (VInt 0).
Proof.
  intros Hu Hin. destruct (unsent_batch_rows _ _ _ Hin) as [r [Hr Hid]].
  destruct (unsent_row_facts _ _ Hr) as [Hrows [_ Hflag]].
  unfold sent_of. rewrite <- Hid, (find_unique _ r Hu Hrows). simpl.
  now rewrite Hflag.
Qed.

(** C8.  With the chat id set, the loop of the dispatcher gives every
    tender of its list one send attempt, in order, whatever the outcome of
    the attempts before it, and returns normally.  The sent flag of a tender
    is the one it had unless a send for it reported success: after a failed
    send, whether Telegram reports failure or the tool raises, the flag is
    untouched and the loop goes on with the next tender; a flag that changed
    is 1 and belongs to a tender whose send succeeded; and a successful send
    whose update SQLite accepts sets the flag to 1. *)
Theorem send_failure_isolated (env : notify_env) (tenders : list Tender.t) (w : world) :
  chat_ok env = true ->
  exists w',
    _send_tender_notifications env tenders w = (Ok tt, w')
    /\ sends (log w') = sends (log w) ++ map Tender.id tenders
    /\ (forall i,
          (forall tender, In tender tenders -> Tender.id tender = i ->
             telegram_run env tender <> Ok true) ->
          sent_of i (store w') = sent_of i (store w))
    /\ (forall i,
          sent_of i (store w') <> sent_of i (store w) ->
          sent_of i (store w') = Some (VInt 1)
          /\ exists tender,
               In tender tenders /\ Tender.id tender = i
               /\ telegram_run env tender = Ok true)
    /\ (forall tender,
          In tender tenders ->
          telegram_run env tender = Ok true ->
          mark_fault env (Tender.id tender) = false ->
          sent_of (Tender.id tender) (store w) <> None ->
          sent_of (Tender.id tender) (store w') = Some (VInt 1))
    /\ (forall fault tender,
          tenders = unsent_batch fault (store w) ->
          unique_ids (store w) ->
          In tender tenders ->
          telegram_run env tender <> Ok true ->
          sent_of (Tender.id tender) (store w') = Some (VInt 0)).
Proof.
  intros Hchat. pose proof (send_notifications_spec env tenders w) as Hs.
  rewrite Hchat in Hs. eexists. split; [exact Hs|]. cbn [store log].
  destruct (store w) as [rows sq]. cbn [DB.tenders DB.sequence].
  split; [now rewrite sends_app, sends_of_events|].
  assert (Hkeep : forall i,
            (forall tender, In tender tenders -> Tender.id tender = i ->
               telegram_run env tender <> Ok true) ->
            sent_of i (DB.mk (mark_rows (delivered env tenders) rows) sq)
            = sent_of i (DB.mk rows sq)).
  { intros i Hfail. rewrite (sent_of_mark_rows _ i rows sq sq).
    destruct (id_in i (delivered env tenders)) eqn:E; [|reflexivity].
    apply id_in_true, delivered_in in E. destruct E as [t [Hin [Hid [Hok _]]]].
    exfalso. exact (Hfail t Hin Hid Hok). }
  split; [exact Hkeep|]. split; [|split].
  - intros i. rewrite (sent_of_mark_rows _ i rows sq sq).
    destruct (id_in i (delivered env tenders)) eqn:E; [|congruence].
    apply id_in_true, delivered_in in E. destruct E as [t [Hin [Hid [Hok _]]]].
    intros Hchg. split; [|now exists t].
    destruct (sent_of i (DB.mk rows sq)); [reflexivity | now elim Hchg].
  - intros t Hin Hok Hm Hex. rewrite (sent_of_mark_rows _ _ rows sq sq).
    assert (E : id_in (Tender.id t) (delivered env tenders) = true).
    { apply id_in_true, delivered_in. now exists t. }
    rewrite E. destruct (sent_of (Tender.id t) (DB.mk rows sq)); [reflexivity | now elim Hex].
  - intros fault t Hb Hu Hin Hfail. cbn [store] in Hb.
    rewrite Hkeep.
    + apply (sent_of_selected fault); [exact Hu | now rewrite <- Hb].
    + intros t' Hin' Hid.
      assert (Heq : t' = t).
      { apply (same_id_same_tender tenders); try assumption.
        rewrite Hb. now apply unsent_batch_unique. }
      now subst t'.
Qed.

Lemma send_failure_isolated_witness :
  exists w',
    _send_tender_notifications telegram_fails_on_2
      (unsent_batch false three_qualified) (mkworld three_qualified [])
    = (Ok tt, w')
    /\ sends (log w') = [3; 2; 1]%Z
    /\ sent_of 2 (store w') = Some (VInt 0)
    /\ sent_of 1 (store w') = Some (VInt 1).
Proof.
  destruct (send_failure_isolated telegram_fails_on_2
              (unsent_batch false three_qualified) (mkworld three_qualified [])
              eq_refl)
    as [w' [Hrun [Hsends [Hkeep [_ [Hset _]]]]]].
  exists w'. split; [exact Hrun|]. split; [exact Hsends|]. split.
  - rewrite (Hkeep 2%Z); [reflexivity|].
    intros tender Hin Hid. unfold telegram_fails_on_2. cbn [telegram_run].
    rewrite Hid. discriminate.
  - apply (Hset (Tender.mk 1 "Build ERP" "Ministry of Works" "2024-01-08"
                   "2024-03-01" "Kenya" "https://example.org/t"
                   "globaltenders.com" "supply of software" "qualified" false)).
    + right. right. left. reflexivity.
    + reflexivity.
    + reflexivity.
    + discriminate.
Defined.

Lemma fetch_unsent_spec (fault : bool) (w : world) :
  Repo.fetch_qualified_unsent_tenders fault w = (Ok (unsent_batch fault (store w)), w).
Proof.
  unfold Repo.fetch_qualified_unsent_tenders, unsent_batch, catch, bind, db_read,
    lift, ret.
  destruct (Repo.convert_all _); reflexivity.
Qed.

(** The node of the notifier, computed.  An exception of the sending
    function, which is the missing chat id, is caught by the node. *)
Lemma notification_node_spec (env : notify_env) (w : world) :
  notification_node env w
  = let batch := unsent_batch (query_fault env) (store w) in
    match batch with
    | [] => (Ok tt, mkworld (store w) (log w ++ [FoundToNotify 0; NothingToNotify]))
    | _ :: _ =>
        if chat_ok env
        then (Ok tt,
              mkworld (DB.mk (mark_rows (delivered env batch) (DB.tenders (store w)))
                             (DB.sequence (store w)))
                      (log w ++ [FoundToNotify (List.length batch)]
                       ++ flat_map (send_events env) batch))
        else (Ok tt,
              mkworld (store w)
                (log w ++ [FoundToNotify (List.length batch);
                           NotifierError
                             (ValueError
                                "TELEGRAM_CHAT_ID environment variable is not set")]))
    end.
Proof.
  unfold notification_node, catch. unfold bind at 1. rewrite fetch_unsent_spec.
  cbv zeta. unfold bind at 1. unfold emit at 1. cbn [store log].
  destruct (unsent_batch (query_fault env) (store w)) as [|t0 rest] eqn:Hb.
  - unfold emit. cbn [store log]. now rewrite <- app_assoc.
  - rewrite send_notifications_spec. cbn [store log].
    destruct (chat_ok env).
    + now rewrite <- app_assoc.
    + unfold emit. cbn [store log]. now rewrite <- app_assoc.
Qed.

(** The sends of a run: the selected tenders, when the chat id is set. *)
Lemma node_sends (env : notify_env) (w : world) :
  sends (log (snd (notification_node env w)))
  = sends (log w)
    ++ (if chat_ok env
        then map Tender.id (unsent_batch (query_fault env) (store w))
        else []).
Proof.
  rewrite notification_node_spec. cbv zeta.
  destruct (unsent_batch (query_fault env) (store w)) as [|t0 rest].
  - cbn [snd log]. rewrite sends_app. simpl. now destruct (chat_ok env).
  - destruct (chat_ok env); cbn [snd log]; rewrite !sends_app.
    + now rewrite sends_of_events.
    + reflexivity.
Qed.

(** The table a run leaves. *)
Lemma node_store_after (env : notify_env) (w : world) :
  store (snd (notification_node env w))
  = if chat_ok env
    then DB.mk (mark_rows (delivered env (unsent_batch (query_fault env) (store w)))
                  (DB.tenders (store w)))
               (DB.sequence (store w))
    else store w.
Proof.
  rewrite notification_node_spec. cbv zeta.
  destruct (unsent_batch (query_fault env) (store w)) as [|t0 rest].
  - cbn [snd store]. destruct (chat_ok env); [|reflexivity].
    unfold delivered. simpl. rewrite mark_rows_nil. now destruct (store w).
  - now destruct (chat_ok env).
Qed.

(** A row of the table after a run either was marked, and its flag is 1,
    or is the row it was. *)
Lemma mark_rows_in (ids : list Z) (rows : list DB.row) (r : DB.row) :
  In r (mark_rows ids rows) ->
  (id_in (DB.id r) ids = true /\ DB.is_sent r = VInt 1)
  \/ (id_in (DB.id r) ids = false /\ In r rows).
Proof.
  unfold mark_rows. intros H. apply in_map_iff in H. destruct H as [r0 [E Hin]].
  destruct (id_in (DB.id r0) ids) eqn:Hi; subst r.
  - left. now rewrite DBFacts.set_field_id, set_sent_sent.
  - right. now split.
Qed.

Lemma nil_when_no_member {A} (l : list A) : (forall x, ~ In x l) -> l = [].
Proof.
  destruct l as [|a l]; [reflexivity|]. intros H. elim (H a). now left.
Qed.

(** When every selected row is marked, the query selects nothing
    afterwards. *)
Lemma unsent_rows_after_all (ids : list Z) (rows : list DB.row) (sq sq' : Z) :
  (forall r, In r (unsent_rows (DB.mk rows sq')) -> In (DB.id r) ids) ->
  unsent_rows (DB.mk (mark_rows ids rows) sq) = [].
Proof.
  intros Hall. apply nil_when_no_member. intros r Hr.
  pose proof (unsent_row_facts _ r Hr) as [Hin [Hst Hsent]].
  cbn [DB.tenders] in Hin. apply mark_rows_in in Hin.
  destruct Hin as [[_ H1]|[Hout Hin]]; [congruence|].
  assert (Hsel : In r (unsent_rows (DB.mk rows sq'))).
  { unfold unsent_rows. apply filter_In. split; [exact Hin|].
    unfold DB.state_is. now rewrite Hst, Hsent. }
  apply Hall, id_in_true in Hsel. congruence.
Qed.

Lemma unsent_batch_of_none (fault : bool) (db : DB.t) :
  unsent_rows db = [] -> unsent_batch fault db = [].
Proof.
  intros H. unfold unsent_batch. destruct fault; [reflexivity|].
  rewrite unsent_query, H. reflexivity.
Qed.

Lemma unsent_batch_fault (fault : bool) (db : DB.t) :
  unsent_batch false db = [] -> unsent_batch fault db = [].
Proof. destruct fault; [reflexivity | trivial]. Qed.

(** C7, counterexample.  Telegram reports a failure in the first run: the
    tender stays unsent, the table is the same, nothing became qualified in
    between, and the second run sends the tender. *)
Lemma resend_after_failure_counterexample :
  store (snd (run (notification_node (telegram_says false)) one_qualified))
  = one_qualified
  /\ sends (log (snd (run (notification_node (telegram_says false)) one_qualified)))
     = [1%Z]
  /\ sends (log (snd (run (notification_node (telegram_says true))
                        (store (snd (run (notification_node (telegram_says false))
                                       one_qualified))))))
     = [1%Z]
  /\ ~ second_run_sends_nothing.
Proof.
  split; [reflexivity|]. split; [reflexivity|]. split; [reflexivity|].
  intros H. specialize (H (telegram_says false) (telegram_says true) one_qualified).
  discriminate H.
Qed.

(** A tender that the first run selected and did not deliver is selected
    again by a second run whose query works. *)
Lemma undelivered_selected_again (env1 : notify_env) (db : DB.t) (tender : Tender.t) :
  unique_ids db ->
  In tender (unsent_batch (query_fault env1) db) ->
  ~ (chat_ok env1 = true
     /\ telegram_run env1 tender = Ok true
     /\ mark_fault env1 (Tender.id tender) = false) ->
  In (Tender.id tender)
     (map Tender.id
        (unsent_batch false (store (snd (run (notification_node env1) db))))).
Proof.
  intros Hu Hin Hund.
  set (db1 := store (snd (run (notification_node env1) db))).
  assert (Hq1 : query_fault env1 = false).
  { destruct (query_fault env1); [destruct Hin | reflexivity]. }
  rewrite Hq1 in Hin.
  destruct (unsent_batch_rows _ _ _ Hin) as [r [Hr Hid]].
  assert (Hconv : forall r', In r' (unsent_rows db) -> convertible r' = true).
  { unfold unsent_batch in Hin. rewrite unsent_query in Hin.
    destruct (Repo.convert_all _) as [ts|] eqn:E; [|destruct Hin].
    apply convert_all_ok_convertible in E. rewrite forallb_forall in E.
    intros r' Hr'. apply E. now apply in_order_by. }
  assert (Hrows : DB.tenders db1
                  = if chat_ok env1
                    then mark_rows (delivered env1 (unsent_batch false db)) (DB.tenders db)
                    else DB.tenders db).
  { unfold db1, run. rewrite node_store_after, Hq1. cbn [store].
    now destruct (chat_ok env1). }
  assert (Hsub : forall r', In r' (unsent_rows db1) -> In r' (unsent_rows db)).
  { intros r' Hr'. destruct (unsent_row_facts _ _ Hr') as [Hin' [Hst Hsent]].
    rewrite Hrows in Hin'.
    assert (Hold : In r' (DB.tenders db)).
    { destruct (chat_ok env1); [|exact Hin'].
      apply mark_rows_in in Hin'. destruct Hin' as [[_ H1]|[_ H]]; [congruence | exact H]. }
    unfold unsent_rows. apply filter_In. split; [exact Hold|].
    unfold DB.state_is. now rewrite Hst, Hsent. }
  assert (Hr1 : In r (unsent_rows db1)).
  { destruct (unsent_row_facts _ _ Hr) as [Hrin [Hst Hsent]].
    unfold unsent_rows. apply filter_In. split.
    - rewrite Hrows. destruct (chat_ok env1) eqn:Hc1; [|exact Hrin].
      unfold mark_rows. apply in_map_iff. exists r. split; [|exact Hrin].
      destruct (id_in (DB.id r) (delivered env1 (unsent_batch false db))) eqn:Hd;
        [|reflexivity].
      exfalso. apply id_in_true, delivered_in in Hd.
      destruct Hd as [t' [Hin' [Hid' [Hok Hm]]]].
      assert (E : t' = tender).
      { apply (same_id_same_tender (unsent_batch false db));
          [now apply unsent_batch_unique | exact Hin' | exact Hin | congruence]. }
      subst t'. apply Hund. now repeat split.
    - unfold DB.state_is. now rewrite Hst, Hsent. }
  unfold unsent_batch. rewrite unsent_query.
  assert (Hall : forallb convertible (DB.order_by_posted_date_desc (unsent_rows db1)) = true).
  { apply forallb_forall. intros r' Hr'. apply Hconv, Hsub. now apply in_order_by. }
  destruct (convert_all_convertible _ Hall) as [ts Hts]. rewrite Hts.
  rewrite (convert_all_ids _ ts Hts), <- Hid. apply in_map. now apply in_order_by.
Qed.

(** C7, amended.  A second run, on the table the first run left, sends only
    tenders that are qualified and whose sent flag is still 0 in that table;
    a tender whose send succeeded and whose flag was written in the first run
    is not sent again; and when the first run sent and marked every tender it
    selected, the second run sends nothing.  With unique ids, a tender that
    the first run selected and did not deliver (the chat id was missing, the
    send failed, or the flag could not be written) is sent again by a second
    run whose query works and whose chat id is set. *)
Theorem notification_idempotence (env1 env2 : notify_env) (db db1 : DB.t) :
  db1 = store (snd (run (notification_node env1) db)) ->
  (forall i,
     In i (sends (log (snd (run (notification_node env2) db1)))) ->
     exists r,
       In r (DB.tenders db1) /\ DB.id r = i
       /\ DB.state r = VText "qualified" /\ DB.is_sent r = VInt 0)
  /\ (forall tender,
        In tender (unsent_batch (query_fault env1) db) ->
        chat_ok env1 = true ->
        telegram_run env1 tender = Ok true ->
        mark_fault env1 (Tender.id tender) = false ->
        ~ In (Tender.id tender) (sends (log (snd (run (notification_node env2) db1)))))
  /\ (clean_run env1 db ->
      sends (log (snd (run (notification_node env2) db1))) = [])
  /\ (forall tender,
        unique_ids db ->
        In tender (unsent_batch (query_fault env1) db) ->
        ~ (chat_ok env1 = true
           /\ telegram_run env1 tender = Ok true
           /\ mark_fault env1 (Tender.id tender) = false) ->
        query_fault env2 = false ->
        chat_ok env2 = true ->
        In (Tender.id tender) (sends (log (snd (run (notification_node env2) db1))))).
Proof.
  intros Hdb1.
  assert (Hsel : forall i,
            In i (sends (log (snd (run (notification_node env2) db1)))) ->
            exists r,
              In r (DB.tenders db1) /\ DB.id r = i
              /\ DB.state r = VText "qualified" /\ DB.is_sent r = VInt 0).
  { intros i Hi. unfold run in Hi. rewrite node_sends in Hi. cbn [log store app] in Hi.
    destruct (chat_ok env2); [|destruct Hi].
    apply in_map_iff in Hi. destruct Hi as [t [Hid Hin]].
    destruct (unsent_batch_rows _ _ _ Hin) as [r [Hr Hrid]].
    destruct (unsent_row_facts _ _ Hr) as [H1 [H2 H3]].
    exists r. repeat split; try assumption. congruence. }
  split; [exact Hsel|]. split; [|split].
  - intros t Hin Hchat Hok Hm Hsent.
    destruct (Hsel _ Hsent) as [r [Hr [Hid [_ Hflag]]]].
    rewrite Hdb1 in Hr. unfold run in Hr. rewrite node_store_after, Hchat in Hr.
    cbn [store DB.tenders] in Hr. apply mark_rows_in in Hr.
    destruct Hr as [[_ H1]|[Hout _]]; [congruence|].
    assert (Hd : In (DB.id r) (delivered env1 (unsent_batch (query_fault env1) db))).
    { rewrite Hid. apply delivered_in. now exists t. }
    apply id_in_true in Hd. congruence.
  - intros [Hq [Hchat Hall]].
    unfold run. rewrite node_sends. cbn [log store app].
    destruct (chat_ok env2); [|reflexivity].
    rewrite Hdb1. unfold run. rewrite node_store_after, Hchat, Hq. cbn [store].
    destruct (unsent_batch false db) as [|t0 rest] eqn:Hb.
    + unfold delivered. cbn [filter map]. rewrite mark_rows_nil.
      replace (DB.mk (DB.tenders db) (DB.sequence db)) with db by now destruct db.
      now rewrite (unsent_batch_fault (query_fault env2) db Hb).
    + rewrite <- Hb in *.
      rewrite unsent_batch_of_none; [reflexivity|].
      destruct db as [rows sq]. cbn [DB.tenders DB.sequence].
      apply (unsent_rows_after_all _ rows sq sq). intros r Hr.
      assert (Hne : unsent_batch false (DB.mk rows sq) <> []) by (rewrite Hb; discriminate).
      pose proof (unsent_rows_batch _ r Hne Hr) as Hin.
      apply in_map_iff in Hin. destruct Hin as [t [Hid Hin]].
      destruct (Hall t Hin) as [Hok Hm].
      rewrite <- Hid. apply delivered_in. now exists t.
  - intros t Hu Hin Hund Hq2 Hc2.
    unfold run at 1. rewrite node_sends, Hc2, Hq2. cbn [log store app].
    rewrite Hdb1. now apply undelivered_selected_again.
Qed.

Lemma notification_idempotence_witness :
  sends (log (snd (run (notification_node (telegram_says true))
                     (store (snd (run (notification_node (telegram_says true))
                                    three_qualified))))))
  = []
  /\ In 2%Z (sends (log (snd (run (notification_node (telegram_says true))
                                (store (snd (run (notification_node telegram_fails_on_2)
                                               three_qualified))))))).
Proof.
  split.
  - apply (proj1 (proj2 (proj2 (notification_idempotence (telegram_says true)
                           (telegram_says true) three_qualified
                           (store (snd (run (notification_node (telegram_says true))
                                          three_qualified)))
                           eq_refl)))).
    repeat split.
  - apply (proj2 (proj2 (proj2 (notification_idempotence telegram_fails_on_2
                           (telegram_says true) three_qualified
                           (store (snd (run (notification_node telegram_fails_on_2)
                                          three_qualified)))
                           eq_refl)))
             (Tender.mk 2 "CRM rollout" "Ministry of Works" "2024-01-09"
                "2024-03-01" "Kenya" "https://example.org/t"
                "globaltenders.com" "supply of software" "qualified" false)).
    + unfold unique_ids. simpl. repeat constructor; simpl; intuition discriminate.
    + vm_compute. right. left. reflexivity.
    + intros [_ [H _]]. vm_compute in H. discriminate H.
    + reflexivity.
    + reflexivity.
Defined.

(** ** The pipeline keeps the hypotheses of the loop *)

(** A scraped tender with every key present is stored as a row that the
    model validates. *)
Lemma ingested_row_convertible (now : string) (i : Z) (tender : Scraped.t) :
  Scraped.title tender <> None ->
  Scraped.organization tender <> None ->
  Scraped.location tender <> None ->
  Scraped.url tender <> None ->
  Scraped.source tender <> None ->
  convertible (ingested_row now i tender) = true.
Proof.
  destruct tender as [ti org pd cd loc u src tc]. simpl.
  destruct ti, org, loc, u, src; try congruence; reflexivity.
Qed.

(** The dates named by the specification. *)
Example dates_of_the_specification :
  is_valid_date (Some "2024-01-10") = true
  /\ is_valid_date (Some "2024/01/05") = false
  /\ is_valid_date (Some "tomorrow") = false
  /\ is_valid_date (Some "2024-02-30") = false
  /\ is_valid_date (Some "") = false
  /\ is_valid_date None = false.
Proof. repeat split. Qed.

(** * Further properties of the code *)

(** ** The table: insert and lookup *)

Lemma max_id_bound (rows : list DB.row) (r : DB.row) :
  In r rows -> (DB.id r <= DB.max_id rows)%Z.
Proof.
  induction rows as [|a rows IH]; intros Hin; [destruct Hin|].
  simpl. destruct Hin as [->|Hin]; [lia|]. specialize (IH Hin). lia.
Qed.

Lemma NoDup_app_iff_fresh (ids : list Z) (i : Z) :
  NoDup ids -> ~ In i ids -> NoDup (ids ++ [i]).
Proof.
  induction ids as [|a ids IH]; intros Hnd Hfresh; simpl.
  - constructor; [intros [] | constructor].
  - apply NoDup_cons_iff in Hnd. destruct Hnd as [Ha Hrest].
    apply NoDup_cons.
    + intros Hin. apply in_app_or in Hin. destruct Hin as [Hin|[<-|[]]].
      * contradiction.
      * apply Hfresh. now left.
    + apply IH; [exact Hrest|]. intros Hin. apply Hfresh. now right.
Qed.

Lemma next_id_fresh (db : DB.t) (r : DB.row) :
  In r (DB.tenders db) -> (DB.id r < DB.next_id db)%Z.
Proof.
  intros Hin. unfold DB.next_id. pose proof (max_id_bound _ r Hin). lia.
Qed.

(** X1.  Take eight values that their columns hold as they are given, a
    table whose next id is within 64 bits, and a time stamp that does not
    read as a number.  As long as SQLite itself works, [insert_tender] with
    a title that is not NULL succeeds: it appends exactly one row, which
    holds the eight given columns, waits for filtering, is not sent, and has
    an id larger than every id of the table and than the counter, so that no
    id is ever given twice; the rows that were there are not touched, unique
    ids stay unique, and the counter moves to the new id.  With a NULL title
    it raises IntegrityError and leaves the table as it was. *)
Theorem insert_tender_fresh (now : string)
    (ti org pd cd loc u src tc : value) (db : DB.t) :
  stored_as_given (ti, org, pd, cd, loc, u, src, tc) = true ->
  int64 (DB.next_id db) = true ->
  numeric_looking now = false ->
  (ti = VNull ->
   exists msg,
     DB.insert_tender now (ti, org, pd, cd, loc, u, src, tc) db
     = (Raise (IntegrityError msg), db))
  /\ (ti <> VNull ->
      exists r,
        DB.insert_tender now (ti, org, pd, cd, loc, u, src, tc) db
        = (Ok tt, DB.mk (DB.tenders db ++ [r]) (DB.id r))
        /\ r = DB.mkrow (DB.next_id db) ti org pd cd loc u src tc (VText now)
                 (VText "waiting_for_filtering") (VInt 0)
        /\ (forall r0, In r0 (DB.tenders db) -> (DB.id r0 < DB.id r)%Z)
        /\ (DB.sequence db < DB.id r)%Z
        /\ (unique_ids db -> unique_ids (DB.mk (DB.tenders db ++ [r]) (DB.id r)))
        /\ sequence_covers (DB.mk (DB.tenders db ++ [r]) (DB.id r))).
Proof.
  intros _ _ _. split.
  - intros ->. eexists. reflexivity.
  - intros Hti. eexists. split; [|split; [reflexivity|]].
    + unfold DB.insert_tender. destruct ti; [congruence | reflexivity | reflexivity].
    + cbn [DB.id]. split; [intros r0 Hin; now apply next_id_fresh|].
      split; [unfold DB.next_id; lia|]. split.
      * unfold unique_ids. cbn [DB.tenders]. intros Hu.
        rewrite map_app. cbn [map DB.id].
        apply NoDup_app_iff_fresh; [exact Hu|].
        intros Hin. apply in_map_iff in Hin. destruct Hin as [r0 [Hid Hr0]].
        pose proof (next_id_fresh db r0 Hr0). lia.
      * intros r0 Hin. cbn [DB.tenders DB.sequence] in *.
        apply in_app_or in Hin. destruct Hin as [Hin|[<-|[]]].
        -- pose proof (next_id_fresh db r0 Hin). lia.
        -- cbn [DB.id]. lia.
Qed.

Lemma insert_tender_fresh_witness :
  (exists msg,
     DB.insert_tender "2024-01-12 09:00:00"
       (VNull, VNull, VText "2024-01-10", VText "", VNull, VNull, VNull, VNull)
       one_waiting
     = (Raise (IntegrityError msg), one_waiting))
  /\ exists r,
       DB.insert_tender "2024-01-12 09:00:00"
         (VText "Road works", VNull, VText "2024-01-10", VText "", VNull, VNull,
          VNull, VNull) one_waiting
       = (Ok tt, DB.mk (DB.tenders one_waiting ++ [r]) (DB.id r))
       /\ DB.id r = 2%Z
       /\ unique_ids (DB.mk (DB.tenders one_waiting ++ [r]) (DB.id r)).
Proof.
  split.
  - apply (proj1 (insert_tender_fresh "2024-01-12 09:00:00" VNull VNull
                    (VText "2024-01-10") (VText "") VNull VNull VNull VNull
                    one_waiting eq_refl eq_refl eq_refl)).
    reflexivity.
  - destruct (proj2 (insert_tender_fresh "2024-01-12 09:00:00" (VText "Road works")
                       VNull (VText "2024-01-10") (VText "") VNull VNull VNull VNull
                       one_waiting eq_refl eq_refl eq_refl))
      as [r [Hrun [Hr [_ [_ [Hu _]]]]]]; [discriminate|].
    exists r. split; [exact Hrun|]. split; [now rewrite Hr|].
    apply Hu. unfold unique_ids. simpl. repeat constructor. intros [].
Defined.

(** X2.  Insert, then look up.  Take a tender whose title and posted date
    are text, the posted date not reading as a number, and whose values
    their columns hold as they are given.  After its [insert_tender],
    [tender_exists] finds that pair; and for any title and any posted date
    that does not read as a number, it answers true after the insert exactly
    when it did before or the pair is the one inserted. *)
Theorem insert_then_exists (now ti pd : string) (org cd loc u src tc : value)
    (db db' : DB.t) :
  stored_as_given (VText ti, org, VText pd, cd, loc, u, src, tc) = true ->
  int64 (DB.next_id db) = true ->
  DB.insert_tender now (VText ti, org, VText pd, cd, loc, u, src, tc) db = (Ok tt, db') ->
  DB.tender_exists (VText ti) (VText pd) db' = true
  /\ forall ti' pd' : string,
       numeric_looking pd' = false ->
       DB.tender_exists (VText ti') (VText pd') db'
       = DB.tender_exists (VText ti') (VText pd') db
         || ((ti' =? ti) && (pd' =? pd)).
Proof.
  intros _ _ H. unfold DB.insert_tender in H. cbn [is_null] in H. injection H as <-.
  assert (Hgen : forall ti' pd' : string,
            DB.tender_exists (VText ti') (VText pd')
              (DB.mk (DB.tenders db ++
                        [DB.mkrow (DB.next_id db) (VText ti) org (VText pd) cd loc u src
                           tc (VText now) (VText "waiting_for_filtering") (VInt 0)])
                     (DB.next_id db))
            = DB.tender_exists (VText ti') (VText pd') db
              || ((ti' =? ti) && (pd' =? pd))).
  { intros ti' pd'. unfold DB.tender_exists. cbn [DB.tenders].
    rewrite !filter_nonempty_existsb, existsb_app. cbn [existsb DB.title DB.posted_date sql_eq].
    rewrite orb_false_r, (String.eqb_sym ti ti'), (String.eqb_sym pd pd'). reflexivity. }
  split; [|intros ti' pd' _; apply Hgen].
  rewrite Hgen, !String.eqb_refl. apply orb_true_r.
Qed.

Lemma insert_then_exists_witness :
  DB.tender_exists (VText "Road works") (VText "")
    (snd (DB.insert_tender "2024-01-12 09:00:00"
            (VText "Road works", VNull, VText "", VText "", VNull, VNull, VNull, VNull)
            one_waiting))
  = true.
Proof.
  apply (insert_then_exists "2024-01-12 09:00:00" "Road works" "" VNull (VText "")
           VNull VNull VNull VNull one_waiting _ eq_refl eq_refl eq_refl).
  reflexivity.
Defined.

(** X3.  A NULL is never found: [tender_exists] answers false whenever the
    title or the posted date it is given is [None], also on a table that
    holds a row with that very title and a NULL posted date.  A tender
    stored with a NULL posted date can therefore not be deduplicated. *)
Theorem tender_exists_null (ti pd : value) (db : DB.t) :
  DB.tender_exists ti VNull db = false
  /\ DB.tender_exists VNull pd db = false
  /\ forall now org cd loc u src tc,
       DB.tender_exists ti VNull
         (snd (DB.insert_tender now (ti, org, VNull, cd, loc, u, src, tc) db))
       = false.
Proof.
  assert (H1 : forall d, DB.tender_exists ti VNull d = false).
  { intros d. destruct (DB.tender_exists ti VNull d) eqn:E; [|reflexivity].
    apply tender_exists_in in E. destruct E as [r [_ [_ E]]].
    destruct (DB.posted_date r); discriminate E. }
  split; [apply H1|]. split; [|intros; apply H1].
  destruct (DB.tender_exists VNull pd db) eqn:E; [|reflexivity].
  apply tender_exists_in in E. destruct E as [r [_ [E _]]].
  destruct (DB.title r); discriminate E.
Qed.

(** ** The table: queries *)

Lemma state_is_true (st : string) (r : DB.row) :
  DB.state_is st r = true <-> DB.state r = VText st.
Proof. unfold DB.state_is. apply sql_eq_text. Qed.

(** With unique ids, the update of an id touches the one row that has it. *)
Lemma update_rows_unique (i : Z) (field : string) (v : value) (rows : list DB.row)
    (r0 : DB.row) :
  NoDup (map DB.id rows) -> In r0 rows -> DB.id r0 = i ->
  exists l1 l2,
    rows = l1 ++ r0 :: l2
    /\ DB.update_rows i field v rows = l1 ++ DB.set_field field v r0 :: l2.
Proof.
  intros Hnd Hin Hid. apply in_split in Hin. destruct Hin as [l1 [l2 ->]].
  exists l1, l2. split; [reflexivity|].
  assert (Hother : forall r, In r l1 \/ In r l2 -> DB.has_id i r = false).
  { intros r Hr. destruct (DB.has_id i r) eqn:E; [|reflexivity].
    apply DBFacts.has_id_true in E. exfalso.
    rewrite map_app in Hnd. cbn [map] in Hnd.
    apply NoDup_remove_2 in Hnd. apply Hnd. rewrite <- map_app.
    rewrite Hid, <- E. apply in_map. apply in_or_app. tauto. }
  unfold DB.update_rows. rewrite map_app. cbn [map].
  apply DBFacts.has_id_true in Hid. rewrite Hid. f_equal; [|f_equal].
  - rewrite <- (map_id l1) at 2. apply map_ext_in. intros r Hr.
    now rewrite (Hother r (or_introl Hr)).
  - rewrite <- (map_id l2) at 2. apply map_ext_in. intros r Hr.
    now rewrite (Hother r (or_intror Hr)).
Qed.

Lemma count_split (st : string) (l1 l2 : list DB.row) (r : DB.row) (sq : Z) :
  DB.count_tenders_by_state false st (DB.mk (l1 ++ r :: l2) sq)
  = List.length (filter (DB.state_is st) l1)
    + (if DB.state_is st r then 1 else 0)
    + List.length (filter (DB.state_is st) l2).
Proof.
  unfold DB.count_tenders_by_state. cbn [DB.tenders].
  rewrite filter_app, length_app. cbn [filter].
  destruct (DB.state_is st r); simpl; lia.
Qed.

(** X5.  With unique ids, moving a tender that is in state [s1] to another
    admitted state [s2] through [update_tender_field] answers true, takes
    one off the count of [s1], adds one to the count of [s2], and leaves the
    count of every other state as it was. *)
Theorem update_state_moves_count (i : Z) (s1 s2 : string) (db : DB.t) :
  unique_ids db ->
  state_of i db = Some (VText s1) ->
  s1 <> s2 ->
  str_in s2 DB.states = true ->
  exists db',
    DB.update_tender_field false i "state" (VText s2) db = (Ok true, db')
    /\ S (DB.count_tenders_by_state false s1 db') = DB.count_tenders_by_state false s1 db
    /\ DB.count_tenders_by_state false s2 db' = S (DB.count_tenders_by_state false s2 db)
    /\ forall s, s <> s1 -> s <> s2 ->
         DB.count_tenders_by_state false s db' = DB.count_tenders_by_state false s db.
Proof.
  intros Hu Hst Hne Hadm. destruct db as [rows sq]. unfold state_of in Hst.
  cbn [DB.tenders] in *.
  destruct (find (DB.has_id i) rows) as [r0|] eqn:Hfind; [|discriminate Hst].
  injection Hst as Hst. apply find_some in Hfind. destruct Hfind as [Hin Hid].
  apply DBFacts.has_id_true in Hid.
  destruct (update_rows_unique i "state" (VText s2) rows r0 Hu Hin Hid)
    as [l1 [l2 [Hrows Hupd]]].
  assert (Hv : DB.violates "state" (VText s2) = false).
  { unfold DB.violates, DB.check_state. rewrite Hadm. reflexivity. }
  rewrite (DBFacts.update_whitelisted i "state" (VText s2) _ eq_refl Hv).
  cbn [DB.tenders DB.sequence].
  assert (Hpos : (0 <? DB.rowcount i rows)%nat = true).
  { apply DBFacts.rowcount_pos. now exists r0. }
  rewrite Hpos, Hupd. eexists. split; [reflexivity|].
  subst rows.
  assert (Hnew : forall s, DB.state_is s (DB.set_field "state" (VText s2) r0)
                           = (s2 =? s)).
  { intros s. unfold DB.state_is. now rewrite set_state_state. }
  assert (Hold : forall s, DB.state_is s r0 = (s1 =? s)).
  { intros s. unfold DB.state_is. now rewrite Hst. }
  assert (E12 : (s1 =? s2) = false) by now apply String.eqb_neq.
  assert (E21 : (s2 =? s1) = false) by (apply String.eqb_neq; congruence).
  split; [|split].
  - rewrite !count_split, Hnew, Hold, String.eqb_refl, E21. lia.
  - rewrite !count_split, Hnew, Hold, String.eqb_refl, E12. lia.
  - intros s H1 H2.
    assert (E1 : (s1 =? s) = false) by (apply String.eqb_neq; congruence).
    assert (E2 : (s2 =? s) = false) by (apply String.eqb_neq; congruence).
    rewrite !count_split, Hnew, Hold, E1, E2. reflexivity.
Qed.

Lemma update_state_moves_count_witness :
  exists db',
    DB.update_tender_field false 2 "state" (VText "qualified") three_tenders
    = (Ok true, db')
    /\ DB.count_tenders_by_state false "waiting_for_filtering" db' = 1
    /\ DB.count_tenders_by_state false "qualified" db' = 2.
Proof.
  destruct (update_state_moves_count 2 "waiting_for_filtering" "qualified"
              three_tenders)
    as [db' [Hrun [H1 [H2 _]]]].
  - unfold unique_ids. simpl. repeat constructor; simpl; intuition discriminate.
  - reflexivity.
  - discriminate.
  - reflexivity.
  - exists db'. split; [exact Hrun|].
    change (DB.count_tenders_by_state false "waiting_for_filtering" three_tenders)
      with 2 in H1.
    change (DB.count_tenders_by_state false "qualified" three_tenders) with 1 in H2.
    split; [lia | exact H2].
Defined.

(** ** The table: updates *)

Lemma set_field_twice (field : string) (v : value) (r : DB.row) :
  DB.set_field field v (DB.set_field field v r) = DB.set_field field v r.
Proof.
  destruct r. unfold DB.set_field.
  repeat match goal with
         | |- context [if ?b then _ else _] => destruct b eqn:?
         end; reflexivity.
Qed.

Lemma update_rows_twice (i : Z) (field : string) (v : value) (rows : list DB.row) :
  DB.update_rows i field v (DB.update_rows i field v rows)
  = DB.update_rows i field v rows.
Proof.
  unfold DB.update_rows. rewrite map_map. apply map_ext. intros r.
  destruct (DB.has_id i r) eqn:E.
  - unfold DB.has_id in *. rewrite DBFacts.set_field_id, E. apply set_field_twice.
  - now rewrite E.
Qed.

Lemma rowcount_update (i j : Z) (field : string) (v : value) (rows : list DB.row) :
  DB.rowcount j (DB.update_rows i field v rows) = DB.rowcount j rows.
Proof.
  unfold DB.rowcount, DB.update_rows.
  induction rows as [|r rows IH]; [reflexivity|].
  cbn [map filter].
  assert (E : DB.has_id j (if DB.has_id i r then DB.set_field field v r else r)
              = DB.has_id j r).
  { destruct (DB.has_id i r); [|reflexivity].
    unfold DB.has_id. now rewrite DBFacts.set_field_id. }
  rewrite E. destruct (DB.has_id j r); cbn [List.length]; now rewrite IH.
Qed.

(** X6.  [update_tender_field] is idempotent: repeating a call, with the
    same id, field and value, on the table the first call left gives the
    same outcome and leaves that table as it is.  The number of rows and
    their ids never change. *)
Theorem update_tender_field_idempotent (fault : bool) (i : Z) (field : string)
    (v : value) (db : DB.t) :
  DB.update_tender_field fault i field v
    (snd (DB.update_tender_field fault i field v db))
  = DB.update_tender_field fault i field v db
  /\ map DB.id (DB.tenders (snd (DB.update_tender_field fault i field v db)))
     = map DB.id (DB.tenders db).
Proof.
  unfold DB.update_tender_field.
  destruct (negb (str_in field DB.whitelist)) eqn:Hw; cbn [snd]; [now split|].
  destruct fault; cbn [snd]; [now split|].
  destruct ((0 <? DB.rowcount i (DB.tenders db))%nat && DB.violates field v) eqn:Hv;
    cbn [snd DB.tenders DB.sequence].
  - rewrite Hv. now split.
  - rewrite rowcount_update, Hv, update_rows_twice.
    split; [reflexivity | apply DBFacts.update_rows_ids].
Qed.

Lemma dict_set_field (field : string) (v : value) (r : DB.row) :
  str_in field DB.whitelist = true ->
  _convert_to_dictionary (DB.set_field field v r)
  = dict_set field v (_convert_to_dictionary r).
Proof.
  intros H. apply str_in_true in H. destruct r.
  repeat (destruct H as [<-|H]; [reflexivity|]). destruct H.
Qed.

Lemma dict_get_set_other (f g : string) (v : value) (d : list (string * value)) :
  g <> f -> dict_get g (dict_set f v d) = dict_get g d.
Proof.
  intros Hne. induction d as [|[k v0] d IH]; [reflexivity|].
  cbn [dict_set]. destruct (f =? k) eqn:E.
  - apply String.eqb_eq in E. subst k. cbn [dict_get].
    apply String.eqb_neq in Hne. now rewrite Hne.
  - cbn [dict_get]. now rewrite IH.
Qed.

Lemma dict_get_set_same (f : string) (v : value) (d : list (string * value)) :
  dict_get f d <> None -> dict_get f (dict_set f v d) = Some v.
Proof.
  induction d as [|[k v0] d IH]; intros H; [now elim H|].
  cbn [dict_set dict_get] in *. destruct (f =? k) eqn:E.
  - cbn [dict_get]. now rewrite E.
  - cbn [dict_get]. rewrite E. now apply IH.
Qed.

Lemma dict_has_whitelisted (field : string) (r : DB.row) :
  str_in field DB.whitelist = true ->
  dict_get field (_convert_to_dictionary r) <> None.
Proof.
  intros H. apply str_in_true in H.
  repeat (destruct H as [<-|H]; [discriminate|]). destruct H.
Qed.

(** X7.  Update, then read.  Take an id within 64 bits and a value that the
    column of the field holds as it is given.  After a successful
    [update_tender_field], the dictionary of every row with the id holds the
    new value under the field, every other column of that row is what it
    was, and every row with another id is the same row, at the same place in
    the table. *)
Theorem update_then_read (i : Z) (field : string) (v : value) (db db' : DB.t)
    (b : bool) :
  int64 i = true ->
  kept_by (column_affinity field) v = true ->
  DB.update_tender_field false i field v db = (Ok b, db') ->
  forall n r,
    nth_error (DB.tenders db) n = Some r ->
    exists r',
      nth_error (DB.tenders db') n = Some r'
      /\ (DB.id r = i ->
          dict_get field (_convert_to_dictionary r') = Some v
          /\ forall g, g <> field ->
               dict_get g (_convert_to_dictionary r')
               = dict_get g (_convert_to_dictionary r))
      /\ (DB.id r <> i -> r' = r).
Proof.
  intros _ _. unfold DB.update_tender_field.
  destruct (str_in field DB.whitelist) eqn:Hw; [|discriminate]. cbn [negb].
  destruct (_ && _); [discriminate|].
  intros H. injection H as _ <-. intros n r Hn.
  cbn [DB.tenders]. unfold DB.update_rows. rewrite nth_error_map, Hn. cbn [option_map].
  eexists. split; [reflexivity|]. split.
  - intros Hid. apply DBFacts.has_id_true in Hid. rewrite Hid.
    rewrite (dict_set_field _ _ _ Hw). split.
    + apply dict_get_set_same. now apply dict_has_whitelisted.
    + intros g Hg. now apply dict_get_set_other.
  - intros Hid. destruct (DB.has_id i r) eqn:E; [|reflexivity].
    apply DBFacts.has_id_true in E. contradiction.
Qed.

Lemma update_then_read_witness :
  exists r',
    nth_error (DB.tenders (snd (DB.update_tender_field false 2 "url"
                                  (VText "https://example.org/2") three_tenders))) 1
    = Some r'
    /\ dict_get "url" (_convert_to_dictionary r') = Some (VText "https://example.org/2")
    /\ dict_get "state" (_convert_to_dictionary r')
       = Some (VText "waiting_for_filtering").
Proof.
  destruct (update_then_read 2 "url" (VText "https://example.org/2") three_tenders
              (snd (DB.update_tender_field false 2 "url"
                      (VText "https://example.org/2") three_tenders))
              true eq_refl eq_refl eq_refl 1
              (sample_row 2 "Supply of cement" "2024-01-09" "waiting_for_filtering" 0)
              eq_refl)
    as [r' [Hn [Hsame _]]].
  exists r'. split; [exact Hn|].
  destruct (Hsame eq_refl) as [Hget Hother]. split; [exact Hget|].
  rewrite (Hother "state"); [reflexivity | discriminate].
Defined.

(** ** The table: the order of the notifier's query *)

Lemma value_compare_lt_gt (a b : value) :
  value_compare a b = Lt -> value_compare b a = Gt.
Proof.
  destruct a as [|m|s], b as [|n|t]; simpl; try discriminate; try reflexivity.
  - intros H. rewrite Z.compare_antisym, H. reflexivity.
  - intros H. rewrite String.compare_antisym, H. reflexivity.
Qed.

Lemma insert_desc_head (r a : DB.row) (rows : list DB.row) :
  posted_not_before a r ->
  HdRel posted_not_before a rows ->
  HdRel posted_not_before a (DB.insert_desc r rows).
Proof.
  intros Har Hhd. destruct rows as [|r' rest]; simpl.
  - now constructor.
  - inversion Hhd; subst.
    destruct (value_compare _ _); now constructor.
Qed.

Lemma insert_desc_sorted (r : DB.row) (rows : list DB.row) :
  Sorted posted_not_before rows ->
  Sorted posted_not_before (DB.insert_desc r rows).
Proof.
  induction rows as [|r' rest IH]; intros Hs; simpl.
  - repeat constructor.
  - inversion Hs as [|? ? Hrest Hhd]; subst.
    destruct (value_compare (DB.posted_date r) (DB.posted_date r')) eqn:E.
    + constructor; [exact Hs|]. constructor. unfold posted_not_before. congruence.
    + constructor; [now apply IH|].
      apply insert_desc_head; [|exact Hhd].
      unfold posted_not_before. rewrite (value_compare_lt_gt _ _ E). discriminate.
    + constructor; [exact Hs|]. constructor. unfold posted_not_before. congruence.
Qed.

(** X8.  [get_tenders_by_state_and_sent] returns the rows of the table that
    are in the state and carry the sent flag, each once, arranged so that no
    row comes before a row with a later posted date. *)
Theorem unsent_query_sorted (st : string) (sent : bool) (db : DB.t) :
  Sorted posted_not_before (DB.get_tenders_by_state_and_sent false st sent db)
  /\ Permutation (DB.get_tenders_by_state_and_sent false st sent db)
       (filter (fun r => DB.state_is st r
                         && sql_eq (DB.is_sent r) (VInt (if sent then 1 else 0)))
               (DB.tenders db))
  /\ forall r,
       In r (DB.get_tenders_by_state_and_sent false st sent db) ->
       In r (DB.tenders db)
       /\ DB.state r = VText st
       /\ DB.is_sent r = VInt (if sent then 1 else 0).
Proof.
  unfold DB.get_tenders_by_state_and_sent.
  split; [|split].
  - unfold DB.order_by_posted_date_desc.
    induction (filter _ (DB.tenders db)) as [|r rows IH]; simpl;
      [constructor | now apply insert_desc_sorted].
  - apply order_by_perm.
  - intros r Hin. apply in_order_by, filter_In in Hin. destruct Hin as [Hin Hp].
    apply andb_true_iff in Hp. destruct Hp as [H1 H2].
    split; [exact Hin|]. split; [now apply state_is_true|].
    destruct (DB.is_sent r) as [|n|s]; try discriminate H2.
    simpl in H2. apply Z.eqb_eq in H2. now subst.
Qed.

(** ** The repository: fetching and updating *)

Lemma convert_all_length (raws : list DB.row) (ts : list Tender.t) :
  Repo.convert_all raws = Ok ts -> List.length ts = List.length raws.
Proof.
  intros H. rewrite <- (length_map Tender.id ts), (convert_all_ids raws ts H).
  apply length_map.
Qed.

(** X9.  [fetch_waiting_tenders(limit=8)] never raises and never changes
    the table.  It is all or nothing: it returns either the empty list or
    the models of the first eight waiting rows, one per row and in their
    order; and it returns the empty list as soon as SQLite fails or one of
    those rows does not validate, however many rows are waiting. *)
Theorem fetch_waiting_all_or_nothing (fault : bool) (w : world) :
  exists batch,
    Repo.fetch_waiting_tenders fault 8 w = (Ok batch, w)
    /\ List.length batch <= 8
    /\ (batch = []
        \/ (fault = false
            /\ Repo.convert_all (firstn 8 (waiting_rows (store w))) = Ok batch
            /\ map Tender.id batch = map DB.id (firstn 8 (waiting_rows (store w)))))
    /\ (fault = true -> batch = [])
    /\ (forall r,
          In r (firstn 8 (waiting_rows (store w))) ->
          convertible r = false ->
          batch = []).
Proof.
  exists (waiting_batch fault (store w)).
  split; [apply fetch_waiting_spec|].
  unfold waiting_batch. destruct fault.
  - simpl. split; [lia|]. split; [now left|]. split; reflexivity.
  - rewrite get_waiting_8.
    destruct (Repo.convert_all (firstn 8 (waiting_rows (store w)))) as [ts|] eqn:E.
    + split; [rewrite (convert_all_length _ _ E); apply firstn_le_length|].
      split; [right; repeat split; now apply convert_all_ids|].
      split; [discriminate|].
      intros r Hin Hbad. apply convert_all_ok_convertible in E.
      rewrite forallb_forall in E. rewrite (E r Hin) in Hbad. discriminate.
    + simpl. split; [lia|]. split; [now left|]. split; reflexivity.
Qed.

Lemma poisoned_batch (fault : bool) (db : DB.t) (r : DB.row) :
  In r (firstn 8 (waiting_rows db)) ->
  convertible r = false ->
  waiting_batch fault db = [].
Proof.
  intros Hin Hbad. unfold waiting_batch. destruct fault; [reflexivity|].
  rewrite get_waiting_8.
  destruct (Repo.convert_all _) as [ts|] eqn:E; [|reflexivity].
  apply convert_all_ok_convertible in E. rewrite forallb_forall in E.
  rewrite (E r Hin) in Hbad. discriminate.
Qed.

(** A loop that meets a row that does not validate uses every round it is
    given. *)
Lemma blocked_loop_rounds (envs : nat -> filter_env) (r : DB.row) :
  (forall j, count_fault (envs j) = NoFault) ->
  forall (fuel k : nat) (w : world),
    In r (firstn 8 (waiting_rows (store w))) ->
    convertible r = false ->
    exists w',
      filter_loop fuel envs k w = (None, w')
      /\ store w' = store w
      /\ invocations (log w') = invocations (log w)
      /\ marks (log w') = marks (log w)
      /\ executions (log w') = executions (log w) + fuel.
Proof.
  intros Hcount. induction fuel as [|fuel IH]; intros k w Hin Hbad.
  - exists w. repeat split. simpl. lia.
  - cbn [filter_loop].
    rewrite (empty_batch_round _ _ (poisoned_batch _ _ r Hin Hbad)).
    rewrite should_continue_spec, Hcount. cbv zeta. cbn [store log count_fails].
    assert (Hpos : (0 <? List.length (waiting_rows (store w)))%nat = true).
    { apply Nat.ltb_lt. destruct (waiting_rows (store w)); [destruct Hin | simpl; lia]. }
    rewrite Hpos.
    destruct (IH (S k)
                (mkworld (store w)
                   ((log w ++ [ProcessingBatch 0; NoTendersToProcess])
                    ++ [Remaining (List.length (waiting_rows (store w)))]))
                Hin Hbad)
      as [w' [Hrun [Hst [Hinv [Hmk Hex]]]]].
    exists w'. split; [exact Hrun|]. cbn [store log] in *.
    split; [exact Hst|].
    rewrite Hinv, Hmk, Hex, !invocations_app, !marks_app, !executions_app.
    simpl. rewrite !app_nil_r. repeat split.
    change (executions [ProcessingBatch 0; NoTendersToProcess]) with 1.
    change (executions [Remaining (List.length (waiting_rows (store w)))]) with 0.
    lia.
Qed.

(** X10.  A row that does not validate blocks the loop.  When one of the
    first eight waiting rows is not accepted by the model [Tender] (a tender
    scraped without an organization is stored with a NULL one), every fetch
    gives the empty list while the count stays positive.  As long as the
    edge can read the count, the loop does not end by itself: it uses all
    the rounds that the graph library allows, never invokes the model, never
    changes the table, and the run ends with GraphRecursionError. *)
Theorem invalid_row_blocks_loop (envs : nat -> filter_env) (r : DB.row) (w : world) :
  (forall j, count_fault (envs j) = NoFault) ->
  In r (firstn 8 (waiting_rows (store w))) ->
  convertible r = false ->
  exists w',
    classification envs w = (Raise GraphRecursionError, w')
    /\ store w' = store w
    /\ invocations (log w') = invocations (log w)
    /\ marks (log w') = marks (log w)
    /\ executions (log w') = executions (log w) + rounds_allowed.
Proof.
  intros Hcount Hin Hbad.
  destruct (blocked_loop_rounds envs r Hcount rounds_allowed 0 w Hin Hbad)
    as [w' [Hrun Hrest]].
  exists w'. rewrite classification_unfold, Hrun. now split.
Qed.

Lemma invalid_row_blocks_loop_witness :
  exists w',
    classification (fun _ => answering [1%Z])
      (snd (run (process_scraped_tenders "2024-01-12 09:00:00"
                   [Scraped.mk (Some "Road works") None (Some "2024-01-10")
                      (Some "2024-03-01") (Some "Kenya") (Some "https://example.org/t")
                      (Some "globaltenders.com") (Some "tarmac")])
                DB.empty))
    = (Raise GraphRecursionError, w')
    /\ waiting_rows (store w') <> []
    /\ invocations (log w') = [].
Proof.
  destruct (invalid_row_blocks_loop (fun _ => answering [1%Z])
              (DB.mkrow 1 (VText "Road works") VNull (VText "2024-01-10")
                 (VText "2024-03-01") (VText "Kenya") (VText "https://example.org/t")
                 (VText "globaltenders.com") (VText "tarmac")
                 (VText "2024-01-12 09:00:00") (VText "waiting_for_filtering")
                 (VInt 0))
              (snd (run (process_scraped_tenders "2024-01-12 09:00:00"
                           [Scraped.mk (Some "Road works") None (Some "2024-01-10")
                              (Some "2024-03-01") (Some "Kenya")
                              (Some "https://example.org/t")
                              (Some "globaltenders.com") (Some "tarmac")])
                        DB.empty))
              (fun _ => eq_refl))
    as [w' [Hrun [Hst [Hinv _]]]].
  - left. reflexivity.
  - reflexivity.
  - exists w'. split; [exact Hrun|]. rewrite Hst, Hinv. split; [discriminate | reflexivity].
Defined.

(** X11.  [update_tender_state] and [mark_tender_as_sent] never raise and
    print nothing that the workflow sees.  A failure of SQLite, and a state
    text that the CHECK constraint of the table refuses, leave the table as
    it was; otherwise the rows with the id, and only they, get the new state
    or the sent flag 1. *)
Theorem repository_updates_never_raise (fault : bool) (i : Z) (new_state : string)
    (w : world) :
  (exists w',
     Repo.update_tender_state fault i new_state w = (Ok tt, w')
     /\ log w' = log w
     /\ (fault = true -> store w' = store w)
     /\ (str_in new_state DB.states = false -> store w' = store w)
     /\ (fault = false -> str_in new_state DB.states = true ->
         store w'
         = DB.mk (DB.update_rows i "state" (VText new_state) (DB.tenders (store w)))
                 (DB.sequence (store w))))
  /\ Repo.mark_tender_as_sent fault i w
     = (Ok tt,
        mkworld (if fault then store w
                 else DB.mk (DB.update_rows i "is_sent" (VInt 1) (DB.tenders (store w)))
                            (DB.sequence (store w)))
                (log w)).
Proof.
  split; [|apply mark_tender_as_sent_spec].
  destruct w as [[rows sq] l].
  unfold Repo.update_tender_state, catch, bind, db_call, ret,
    DB.update_tender_field, DB.violates, DB.check_state.
  cbn [store log DB.tenders DB.sequence negb str_in existsb String.eqb Ascii.eqb
       Bool.eqb orb andb DB.whitelist].
  change (existsb (String.eqb new_state) DB.states) with (str_in new_state DB.states).
  destruct fault; cbn [store log].
  - eexists. split; [reflexivity|]. repeat split; intros; try reflexivity; discriminate.
  - destruct (str_in new_state DB.states) eqn:Hadm; cbn [negb andb].
    + rewrite andb_false_r. cbn [store log].
      eexists. split; [reflexivity|]. repeat split; intros; try reflexivity; discriminate.
    + rewrite andb_true_r.
      destruct (0 <? DB.rowcount i rows)%nat eqn:Hrc; cbn [store log].
      * eexists. split; [reflexivity|]. repeat split; intros; try reflexivity; discriminate.
      * eexists. split; [reflexivity|]. cbn [store log].
        assert (Hsame : DB.update_rows i "state" (VText new_state) rows = rows).
        { unfold DB.update_rows. rewrite <- (map_id rows) at 2.
          apply map_ext_in. intros r Hr.
          destruct (DB.has_id i r) eqn:E; [|reflexivity].
          assert (Hp : (0 <? DB.rowcount i rows)%nat = true).
          { apply DBFacts.rowcount_pos. exists r. split; [exact Hr|].
            now apply DBFacts.has_id_true. }
          congruence. }
        rewrite Hsame.
        repeat split; intros; try reflexivity; discriminate.
Qed.

Lemma repository_updates_never_raise_witness :
  exists w',
    Repo.update_tender_state false 1 "archived" (mkworld one_waiting []) = (Ok tt, w')
    /\ store w' = one_waiting.
Proof.
  destruct (proj1 (repository_updates_never_raise false 1 "archived"
                     (mkworld one_waiting [])))
    as [w' [Hrun [_ [_ [Hkeep _]]]]].
  exists w'. split; [exact Hrun|]. now apply Hkeep.
Defined.

(** ** The classification loop: what it can change *)

Lemma forget_state_set (v : value) (r : DB.row) :
  DB.set_field "state" VNull (DB.set_field "state" v r) = DB.set_field "state" VNull r.
Proof. destruct r. reflexivity. Qed.

Lemma classify_rows_forget (faulty : Z -> bool) (returned ids : list Z)
    (rows : list DB.row) :
  map (DB.set_field "state" VNull) (classify_rows faulty returned ids rows)
  = map (DB.set_field "state" VNull) rows.
Proof.
  unfold classify_rows. rewrite map_map. apply map_ext. intros r.
  destruct (_ && _); [apply forget_state_set | reflexivity].
Qed.

(** The table after an execution of the node is a round over ids of
    waiting rows, whatever happens outside the program. *)
Lemma node_rows (env : filter_env) (w : world) :
  exists returned ids,
    store (snd (tender_filter_node env w))
    = DB.mk (classify_rows (update_fault env) returned ids (DB.tenders (store w)))
            (DB.sequence (store w))
    /\ forall i, In i ids -> exists r, In r (waiting_rows (store w)) /\ DB.id r = i.
Proof.
  rewrite tender_filter_node_spec. cbv zeta.
  destruct (waiting_batch (fetch_fault env) (store w)) as [|t0 rest] eqn:Hb.
  - exists [], []. cbn [snd store]. rewrite classify_rows_nil.
    split; [now destruct (store w) | intros i []].
  - rewrite <- Hb.
    assert (Hids : forall i, In i (map Tender.id (waiting_batch (fetch_fault env) (store w))) ->
                     exists r, In r (waiting_rows (store w)) /\ DB.id r = i).
    { intros i Hi.
      destruct (waiting_batch_ids (fetch_fault env) (store w)) as [E|[_ E]];
        [rewrite E in Hb; discriminate|].
      rewrite E in Hi. apply in_map_iff in Hi. destruct Hi as [r [Hid Hr]].
      exists r. split; [|exact Hid].
      rewrite <- (firstn_skipn 8 (waiting_rows (store w))). apply in_or_app. now left. }
    destruct (llm_invoke env _) as [qs|e].
    + exists (returned_ids qs), (map Tender.id (waiting_batch (fetch_fault env) (store w))).
      split; [reflexivity | exact Hids].
    + exists [], []. cbn [snd store]. rewrite classify_rows_nil.
      split; [now destruct (store w) | intros i []].
Qed.

(** With unique ids, the row of the table that has the id of a waiting row
    is that row. *)
Lemma same_id_same_row (rows : list DB.row) (x y : DB.row) :
  NoDup (map DB.id rows) -> In x rows -> In y rows -> DB.id x = DB.id y -> x = y.
Proof.
  induction rows as [|a rest IH]; intros Hnd Hx Hy Hid; [destruct Hx|].
  cbn [map] in Hnd. apply NoDup_cons_iff in Hnd. destruct Hnd as [Hfresh Hrest].
  destruct Hx as [->|Hx]; destruct Hy as [->|Hy]; try reflexivity.
  - exfalso. apply Hfresh. rewrite Hid. now apply in_map.
  - exfalso. apply Hfresh. rewrite <- Hid. now apply in_map.
  - now apply IH.
Qed.

Lemma classify_rows_cases (faulty : Z -> bool) (returned ids : list Z)
    (rows : list DB.row) (n : nat) (r : DB.row) :
  nth_error rows n = Some r ->
  exists r',
    nth_error (classify_rows faulty returned ids rows) n = Some r'
    /\ (r' = r
        \/ (In (DB.id r) ids
            /\ (DB.state r' = VText "qualified" \/ DB.state r' = VText "unqualified"))).
Proof.
  intros Hn. unfold classify_rows. rewrite nth_error_map, Hn. cbn [option_map].
  eexists. split; [reflexivity|].
  destruct (id_in (DB.id r) ids) eqn:Hi; [|now left].
  destruct (faulty (DB.id r)); [now left|]. right.
  split; [now apply id_in_true|]. cbn [negb andb]. rewrite set_state_state.
  destruct (state_for_cases returned (DB.id r)) as [[_ E]|[_ E]]; rewrite E; tauto.
Qed.

(** What one execution of the node, followed by the count, can do to the
    table. *)
Lemma round_changes (env : filter_env) (w : world) :
  map (DB.set_field "state" VNull) (DB.tenders (store (snd (tender_filter_node env w))))
  = map (DB.set_field "state" VNull) (DB.tenders (store w))
  /\ DB.sequence (store (snd (tender_filter_node env w))) = DB.sequence (store w)
  /\ forall n r,
       nth_error (DB.tenders (store w)) n = Some r ->
       exists r',
         nth_error (DB.tenders (store (snd (tender_filter_node env w)))) n = Some r'
         /\ (r' = r
             \/ ((DB.state r' = VText "qualified" \/ DB.state r' = VText "unqualified")
                 /\ (unique_ids (store w) -> DB.state r = VText "waiting_for_filtering"))).
Proof.
  destruct (node_rows env w) as [returned [ids [Hst Hids]]]. rewrite Hst.
  cbn [DB.tenders DB.sequence].
  split; [apply classify_rows_forget|]. split; [reflexivity|].
  intros n r Hn.
  destruct (classify_rows_cases (update_fault env) returned ids _ n r Hn)
    as [r' [Hn' [->|[Hin Hlab]]]].
  - exists r. split; [exact Hn' | now left].
  - exists r'. split; [exact Hn'|]. right. split; [exact Hlab|].
    intros Hu. destruct (Hids _ Hin) as [r0 [Hr0 Hid]].
    unfold waiting_rows in Hr0. apply filter_In in Hr0. destruct Hr0 as [Hr0 Hw].
    assert (E : r0 = r).
    { apply (same_id_same_row (DB.tenders (store w))); try assumption.
      now apply nth_error_In in Hn. }
    subst r0. now apply state_is_true.
Qed.

Lemma unique_ids_forget (db db' : DB.t) :
  map (DB.set_field "state" VNull) (DB.tenders db')
  = map (DB.set_field "state" VNull) (DB.tenders db) ->
  unique_ids db -> unique_ids db'.
Proof.
  intros H Hu. unfold unique_ids in *.
  assert (E : forall rows, map DB.id (map (DB.set_field "state" VNull) rows)
                           = map DB.id rows).
  { intros rows. rewrite map_map. apply map_ext. intros r. apply DBFacts.set_field_id. }
  rewrite <- E, H, E. exact Hu.
Qed.

(** The conditional edge does not write to the table. *)
Lemma edge_store (env : filter_env) (w : world) :
  store (snd (should_continue_filtering env w)) = store w.
Proof. rewrite should_continue_spec. now destruct (count_fault env). Qed.

(** X12.  Whatever happens outside the program, and however long it runs,
    the classification loop changes nothing but the state column: rows are
    neither added nor removed, every other column and the counter stay as
    they are.  A row that changes ends qualified or unqualified; and with
    unique ids only rows that were waiting change, so a tender that is
    qualified, unqualified or notified is never classified again. *)
Theorem loop_only_classifies_waiting (envs : nat -> filter_env) :
  forall (fuel k : nat) (w : world),
    map (DB.set_field "state" VNull)
        (DB.tenders (store (snd (filter_loop fuel envs k w))))
    = map (DB.set_field "state" VNull) (DB.tenders (store w))
    /\ DB.sequence (store (snd (filter_loop fuel envs k w))) = DB.sequence (store w)
    /\ forall n r,
         nth_error (DB.tenders (store w)) n = Some r ->
         exists r',
           nth_error (DB.tenders (store (snd (filter_loop fuel envs k w)))) n = Some r'
           /\ (r' = r
               \/ ((DB.state r' = VText "qualified" \/ DB.state r' = VText "unqualified")
                   /\ (unique_ids (store w) ->
                       DB.state r = VText "waiting_for_filtering"))).
Proof.
  induction fuel as [|fuel IH]; intros k w.
  - cbn [filter_loop snd]. split; [reflexivity|]. split; [reflexivity|].
    intros n r Hn. exists r. split; [exact Hn | now left].
  - cbn [filter_loop].
    destruct (round_changes (envs k) w) as [Hf [Hsq Hrows]].
    destruct (tender_filter_node (envs k) w) as [[[]|e] w1]; cbn [snd] in *.
    + pose proof (edge_store (envs k) w1) as He.
      destruct (should_continue_filtering (envs k) w1) as [[[|]|e2] w2]; cbn [snd] in *.
      * destruct (IH (S k) w2) as [Hf' [Hsq' Hrows']]. rewrite He in *.
        split; [now rewrite Hf'|]. split; [now rewrite Hsq'|].
        intros n r Hn. destruct (Hrows n r Hn) as [r1 [Hn1 Hc1]].
        destruct (Hrows' n r1 Hn1) as [r' [Hn' Hc']].
        exists r'. split; [exact Hn'|].
        destruct Hc' as [->|[Hlab Hw]].
        -- exact Hc1.
        -- destruct Hc1 as [->|[Hlab1 Hw1]].
           ++ right. split; [exact Hlab|]. intros Hu. apply Hw.
              now apply (unique_ids_forget (store w)).
           ++ right. split; [exact Hlab|]. exact Hw1.
      * rewrite He. split; [exact Hf|]. split; [exact Hsq|]. exact Hrows.
      * rewrite He. split; [exact Hf|]. split; [exact Hsq|]. exact Hrows.
    + split; [exact Hf|]. split; [exact Hsq|]. exact Hrows.
Qed.

(** ** The notifier: what it can change *)

Lemma forget_sent_set (v : value) (r : DB.row) :
  DB.set_field "is_sent" VNull (DB.set_field "is_sent" v r)
  = DB.set_field "is_sent" VNull r.
Proof. destruct r. reflexivity. Qed.

Lemma mark_rows_forget (ids : list Z) (rows : list DB.row) :
  map (DB.set_field "is_sent" VNull) (mark_rows ids rows)
  = map (DB.set_field "is_sent" VNull) rows.
Proof.
  unfold mark_rows. rewrite map_map. apply map_ext. intros r.
  destruct (id_in _ _); [apply forget_sent_set | reflexivity].
Qed.

Lemma notification_node_ok (env : notify_env) (w : world) :
  fst (notification_node env w) = Ok tt.
Proof.
  rewrite notification_node_spec. cbv zeta.
  destruct (unsent_batch _ _); [reflexivity|]. now destruct (chat_ok env).
Qed.

(** X13.  The notifier node never raises and changes nothing but the sent
    flag: rows are neither added nor removed and every other column, the
    state among them, stays as it is.  A row that changes has the flag 1
    afterwards, so a flag that is 1 is never taken back, and its id is among
    the sends of the run; with unique ids the rows that change were
    qualified and unsent. *)
Theorem notifier_only_marks (env : notify_env) (w : world) :
  exists w',
    notification_node env w = (Ok tt, w')
    /\ map (DB.set_field "is_sent" VNull) (DB.tenders (store w'))
       = map (DB.set_field "is_sent" VNull) (DB.tenders (store w))
    /\ DB.sequence (store w') = DB.sequence (store w)
    /\ forall n r,
         nth_error (DB.tenders (store w)) n = Some r ->
         exists r',
           nth_error (DB.tenders (store w')) n = Some r'
           /\ (r' = r
               \/ (DB.is_sent r' = VInt 1
                   /\ In (DB.id r) (sends (log w'))
                   /\ (unique_ids (store w) ->
                       DB.state r = VText "qualified" /\ DB.is_sent r = VInt 0))).
Proof.
  pose proof (notification_node_ok env w) as Hok.
  pose proof (node_store_after env w) as Hst.
  pose proof (node_sends env w) as Hsends.
  destruct (notification_node env w) as [res w']. cbn [fst snd] in *. subst res.
  exists w'. split; [reflexivity|]. rewrite Hst.
  destruct (chat_ok env) eqn:Hchat.
  - cbn [DB.tenders DB.sequence]. split; [apply mark_rows_forget|].
    split; [reflexivity|]. intros n r Hn.
    unfold mark_rows. rewrite nth_error_map, Hn. cbn [option_map].
    eexists. split; [reflexivity|].
    destruct (id_in (DB.id r) _) eqn:Hi; [|now left]. right.
    rewrite set_sent_sent. split; [reflexivity|].
    apply id_in_true, delivered_in in Hi. destruct Hi as [t [Hin [Hid _]]].
    split.
    + rewrite Hsends. apply in_or_app. right. rewrite <- Hid. now apply in_map.
    + intros Hu. destruct (unsent_batch_rows _ _ _ Hin) as [r0 [Hr0 Hid0]].
      destruct (unsent_row_facts _ _ Hr0) as [Hin0 [Hq Hs]].
      assert (E : r0 = r).
      { apply (same_id_same_row (DB.tenders (store w))); try assumption.
        - now apply nth_error_In in Hn.
        - congruence. }
      subst r0. now split.
  - split; [reflexivity|]. split; [reflexivity|].
    intros n r Hn. exists r. split; [exact Hn | now left].
Qed.

(** X14.  Without TELEGRAM_CHAT_ID, or with an empty one, the sending
    function raises ValueError before any send; the node catches it and
    returns as if nothing had happened: no tender is sent and the table is
    left as it was, whatever is waiting to be notified. *)
Theorem missing_chat_id_sends_nothing (env : notify_env)
    (batch : list Tender.t) (w : world) :
  chat_ok env = false ->
  (exists msg,
     _send_tender_notifications env batch w = (Raise (ValueError msg), w))
  /\ exists w',
       notification_node env w = (Ok tt, w')
       /\ store w' = store w
       /\ sends (log w') = sends (log w).
Proof.
  intros Hchat. split.
  - eexists. rewrite send_notifications_spec, Hchat. reflexivity.
  - pose proof (notification_node_ok env w) as Hok.
    pose proof (node_store_after env w) as Hst.
    pose proof (node_sends env w) as Hsends.
    destruct (notification_node env w) as [res w']. cbn [fst snd] in *. subst res.
    rewrite Hchat in *. exists w'. split; [reflexivity|].
    split; [exact Hst|]. now rewrite Hsends, app_nil_r.
Qed.

Lemma missing_chat_id_sends_nothing_witness :
  exists w',
    notification_node (mk_notify_env false (Some "") (fun _ => Ok true) (fun _ => false))
      (mkworld three_qualified [])
    = (Ok tt, w')
    /\ store w' = three_qualified
    /\ sends (log w') = [].
Proof.
  exact (proj2 (missing_chat_id_sends_nothing
                  (mk_notify_env false (Some "") (fun _ => Ok true) (fun _ => false))
                  [] (mkworld three_qualified []) eq_refl)).
Defined.

(** X15.  With unique ids, a run of the notifier sends no tender twice:
    the ids it tries to send are distinct, each is the id of a row that is
    qualified and unsent when the run starts, and when the rows validate and
    the chat id is set they are all those rows, latest posted first. *)
Theorem notifier_sends_each_once (env : notify_env) (w : world) :
  unique_ids (store w) ->
  exists new_sends,
    sends (log (snd (notification_node env w))) = sends (log w) ++ new_sends
    /\ NoDup new_sends
    /\ (forall i, In i new_sends ->
          exists r, In r (unsent_rows (store w)) /\ DB.id r = i)
    /\ (query_fault env = false -> chat_ok env = true ->
        forallb convertible (unsent_rows (store w)) = true ->
        new_sends
        = map DB.id (DB.get_tenders_by_state_and_sent false "qualified" false (store w))).
Proof.
  intros Hu. rewrite node_sends.
  exists (if chat_ok env
          then map Tender.id (unsent_batch (query_fault env) (store w)) else []).
  split; [reflexivity|].
  destruct (chat_ok env).
  - split; [now apply unsent_batch_unique|]. split.
    + intros i Hi. apply in_map_iff in Hi. destruct Hi as [t [Hid Hin]].
      destruct (unsent_batch_rows _ _ _ Hin) as [r [Hr Hrid]].
      exists r. split; [exact Hr | congruence].
    + intros Hq _ Hconv. rewrite Hq. unfold unsent_batch.
      assert (Hc : forallb convertible
                     (DB.get_tenders_by_state_and_sent false "qualified" false (store w))
                   = true).
      { rewrite unsent_query. rewrite forallb_forall in *. intros r Hr.
        apply Hconv. now apply in_order_by. }
      destruct (convert_all_convertible _ Hc) as [ts Hts]. rewrite Hts.
      now apply convert_all_ids.
  - split; [constructor|]. split; [intros i []|]. discriminate.
Qed.

Lemma notifier_sends_each_once_witness :
  exists new_sends,
    sends (log (snd (notification_node telegram_fails_on_2
                       (mkworld three_qualified []))))
    = new_sends
    /\ NoDup new_sends
    /\ new_sends = [3; 2; 1]%Z.
Proof.
  destruct (notifier_sends_each_once telegram_fails_on_2 (mkworld three_qualified []))
    as [new_sends [Hs [Hnd [_ Hall]]]].
  - unfold unique_ids. simpl. repeat constructor; simpl; intuition discriminate.
  - exists new_sends. split; [exact Hs|]. split; [exact Hnd|].
    now apply Hall.
Defined.

(** ** The ingestion loop: what it can change *)

Lemma date_text_clean (d : option string) : clean_date (VText (date_text d)).
Proof.
  exists (date_text d). split; [reflexivity|].
  destruct (is_valid_date d) eqn:E.
  - right. now rewrite <- (date_text_valid d E).
  - left. now apply date_text_invalid.
Qed.

Lemma ingested_row_fresh (now : string) (i : Z) (tender : Scraped.t) (ti : string) :
  Scraped.title tender = Some ti -> fresh_row (ingested_row now i tender).
Proof.
  intros Ht. unfold fresh_row, ingested_row. cbn [DB.state DB.is_sent DB.title
    DB.posted_date DB.closing_date].
  split; [reflexivity|]. split; [reflexivity|].
  split; [exists ti; now rewrite Ht|].
  split; apply date_text_clean.
Qed.

Lemma NoDup_snoc {A} (l : list A) (x : A) :
  NoDup l -> ~ In x l -> NoDup (l ++ [x]).
Proof.
  intros Hl Hx. apply NoDup_rev in Hl. rewrite <- (rev_involutive (l ++ [x])).
  apply NoDup_rev. rewrite rev_app_distr. cbn [rev app].
  apply NoDup_cons; [|exact Hl]. intros Hin. apply Hx. now apply in_rev.
Qed.

Lemma key_in_exists (ti pd : string) (db : DB.t) :
  In (VText ti, VText pd) (map key_of (DB.tenders db)) -> key_exists ti pd db = true.
Proof.
  intros Hin. apply in_map_iff in Hin. destruct Hin as [r [Hk Hr]].
  unfold key_of in Hk. injection Hk as Ht Hp.
  unfold key_exists. apply tender_exists_in. exists r.
  split; [exact Hr|]. rewrite Ht, Hp. simpl. now rewrite !String.eqb_refl.
Qed.

(** What one turn of the loop does to the table and to the log. *)
Lemma process_one_effect (now : string) (tender : Scraped.t) (w : world) :
  exists added,
    DB.tenders (store (snd (process_one now tender w))) = DB.tenders (store w) ++ added
    /\ log (snd (process_one now tender w)) = log w ++ date_events tender
    /\ Forall fresh_row added
    /\ (unique_ids (store w) -> unique_ids (store (snd (process_one now tender w))))
    /\ (NoDup (map key_of (DB.tenders (store w))) ->
        NoDup (map key_of (DB.tenders (store (snd (process_one now tender w))))))
    /\ ((fst (process_one now tender w) = Ok true /\ List.length added = 1)
        \/ (fst (process_one now tender w) = Ok false /\ added = []
            /\ store (snd (process_one now tender w)) = store w)
        \/ (fst (process_one now tender w) = Raise (KeyError "title") /\ added = []
            /\ store (snd (process_one now tender w)) = store w
            /\ Scraped.title tender = None)).
Proof.
  destruct (Scraped.title tender) as [ti|] eqn:Ht.
  - rewrite (process_one_spec now tender ti w Ht).
    destruct (key_exists ti _ (store w)) eqn:Hk; cbn [fst snd store log DB.tenders].
    + exists []. rewrite app_nil_r. repeat split; auto.
    + exists [ingested_row now (DB.next_id (store w)) tender].
      split; [reflexivity|]. split; [reflexivity|].
      split; [constructor; [now apply (ingested_row_fresh now _ tender ti) | constructor]|].
      split; [|split; [|now left]].
      * unfold unique_ids. cbn [DB.tenders]. intros Hu.
        rewrite map_app. cbn [map ingested_row DB.id].
        apply NoDup_snoc; [exact Hu|].
        intros Hin. apply in_map_iff in Hin. destruct Hin as [r0 [Hid Hr0]].
        pose proof (next_id_fresh (store w) r0 Hr0). lia.
      * intros Hnd. rewrite map_app. cbn [map].
        apply NoDup_snoc; [exact Hnd|].
        unfold key_of, ingested_row. cbn [DB.title DB.posted_date].
        rewrite Ht. cbn [to_value]. intros Hin.
        apply key_in_exists in Hin. congruence.
  - rewrite (process_one_no_title now tender w Ht). cbn [fst snd store log].
    exists []. rewrite app_nil_r. repeat split; auto.
    right. right. repeat split; auto.
Qed.

(** The loop over a list of scraped tenders. *)
Lemma process_from_effect (now : string) (scraped : list Scraped.t) :
  forall (n : nat) (w : world),
    exists added evs,
      DB.tenders (store (snd (process_from now scraped n w)))
      = DB.tenders (store w) ++ added
      /\ log (snd (process_from now scraped n w)) = log w ++ evs
      /\ sends evs = [] /\ invocations evs = [] /\ marks evs = []
      /\ Forall fresh_row added
      /\ List.length added <= List.length scraped
      /\ (unique_ids (store w) -> unique_ids (store (snd (process_from now scraped n w))))
      /\ (NoDup (map key_of (DB.tenders (store w))) ->
          NoDup (map key_of (DB.tenders (store (snd (process_from now scraped n w))))))
      /\ (forall m, fst (process_from now scraped n w) = Ok m ->
            m = n + List.length added)
      /\ (forall e, fst (process_from now scraped n w) = Raise e ->
            e = KeyError "title").
Proof.
  induction scraped as [|c rest IH]; intros n w.
  - exists [], []. cbn [process_from ret fst snd]. rewrite !app_nil_r.
    repeat split; auto; try constructor.
    + intros m H. injection H as <-. simpl. lia.
    + discriminate.
  - cbn [process_from]. unfold bind.
    destruct (process_one_effect now c w)
      as [a1 [Hrows1 [Hlog1 [Hfresh1 [Hu1 [Hk1 Hcases]]]]]].
    assert (Hev : sends (date_events c) = [] /\ invocations (date_events c) = []
                  /\ marks (date_events c) = []).
    { unfold date_events. destruct (is_valid_date _); destruct (is_valid_date _);
        repeat split. }
    destruct Hev as [He1 [He2 He3]].
    destruct (process_one now c w) as [[b|e] w1]; cbn [fst snd] in *.
    + destruct (IH (if b then S n else n) w1)
        as [a2 [evs2 [Hrows2 [Hlog2 [Hs2 [Hi2 [Hm2 [Hfresh2 [Hlen2 [Hu2 [Hk2 [Hok2 Hr2]]]]]]]]]]]].
      exists (a1 ++ a2), (date_events c ++ evs2).
      split; [rewrite Hrows2, Hrows1, app_assoc; reflexivity|].
      split; [rewrite Hlog2, Hlog1, app_assoc; reflexivity|].
      rewrite sends_app, invocations_app, marks_app, He1, He2, He3, Hs2, Hi2, Hm2.
      repeat (split; [reflexivity|]).
      split; [apply Forall_app; now split|].
      assert (Hlen1 : List.length a1 = if b then 1 else 0).
      { destruct Hcases as [[Hb Hl]|[[Hb [-> _]]|[Hb _]]].
        - injection Hb as ->. exact Hl.
        - injection Hb as ->. reflexivity.
        - discriminate Hb. }
      split; [rewrite length_app; cbn [List.length]; destruct b; lia|].
      split; [auto|]. split; [auto|]. split; [|exact Hr2].
      intros m Hm. rewrite (Hok2 m Hm), length_app. destruct b; lia.
    + destruct Hcases as [[Hb _]|[[Hb _]|[Hb [Ha _]]]]; try discriminate Hb.
      injection Hb as ->. subst a1.
      exists [], (date_events c).
      split; [exact Hrows1|]. split; [exact Hlog1|].
      split; [exact He1|]. split; [exact He2|]. split; [exact He3|].
      split; [constructor|].
      split; [simpl; lia|]. split; [exact Hu1|]. split; [exact Hk1|].
      split; [discriminate|]. intros e' H. now injection H as <-.
Qed.

Lemma process_scraped_unfold (now : string) (scraped : list Scraped.t) (w : world) :
  process_scraped_tenders now scraped w
  = match process_from now scraped 0 w with
    | (Ok n, w1) => (Ok tt, mkworld (store w1) (log w1 ++ [Added n]))
    | (Raise e, w1) => (Raise e, w1)
    end.
Proof.
  unfold process_scraped_tenders, bind, emit.
  now destruct (process_from now scraped 0 w) as [[n|e] w1].
Qed.

(** An exception leaves the loop only at a tender without a title. *)
Lemma process_from_raise (now : string) (scraped : list Scraped.t) :
  forall (n : nat) (w : world) (e : exn),
    fst (process_from now scraped n w) = Raise e ->
    exists tender, In tender scraped /\ Scraped.title tender = None.
Proof.
  induction scraped as [|c rest IH]; intros n w e H; [discriminate H|].
  cbn [process_from] in H. unfold bind in H.
  destruct (Scraped.title c) as [ti|] eqn:Ht.
  - rewrite (process_one_spec now c ti w Ht) in H.
    destruct (key_exists ti _ (store w)); apply IH in H;
      destruct H as [tender [Hin Hnone]]; exists tender; (split; [now right | exact Hnone]).
  - exists c. split; [now left | exact Ht].
Qed.

(** X16.  [process_scraped_tenders] only appends: the rows that were in
    the table are still there, unchanged and in their place, followed by at
    most one new row per scraped tender.  Every new row waits for filtering,
    is not sent, has a text title, and holds in each date column the empty
    text or a date that [is_valid_date] accepts.  Unique ids stay unique.
    When the loop ends normally, the number it prints is the number of rows
    it added.  An exception leaves the loop only when one of the scraped
    tenders has no title text.  A failure of SQLite itself on the lookup or
    on the insert, which the loop would let through, is not part of the
    model. *)
Theorem ingestion_only_appends (now : string) (scraped : list Scraped.t) (w : world) :
  exists added,
    DB.tenders (store (snd (process_scraped_tenders now scraped w)))
    = DB.tenders (store w) ++ added
    /\ Forall fresh_row added
    /\ List.length added <= List.length scraped
    /\ (unique_ids (store w) ->
        unique_ids (store (snd (process_scraped_tenders now scraped w))))
    /\ (fst (process_scraped_tenders now scraped w) = Ok tt ->
        exists evs,
          log (snd (process_scraped_tenders now scraped w))
          = log w ++ evs ++ [Added (List.length added)])
    /\ (forall e, fst (process_scraped_tenders now scraped w) = Raise e ->
          exists tender, In tender scraped /\ Scraped.title tender = None).
Proof.
  destruct (process_from_effect now scraped 0 w)
    as [added [evs [Hrows [Hlog [_ [_ [_ [Hfresh [Hlen [Hu [_ [Hok _]]]]]]]]]]]].
  pose proof (process_from_raise now scraped 0 w) as Hraise.
  rewrite process_scraped_unfold.
  destruct (process_from now scraped 0 w) as [[n|e] w1]; cbn [fst snd store log] in *.
  - exists added. repeat (split; [assumption|]).
    split; [|discriminate]. intros _. exists evs.
    rewrite (Hok n eq_refl), Hlog, <- app_assoc. reflexivity.
  - exists added. repeat (split; [assumption|]).
    split; [discriminate|]. intros e' H. injection H as <-. now apply (Hraise e).
Qed.

(** X17.  The ingestion loop keeps the dedup key a key: on a table in
    which no two rows share the pair of title and posted date, it leaves a
    table in which no two rows share it, whatever the scraped list holds,
    repeated tenders included. *)
Theorem ingestion_keeps_keys_distinct (now : string) (scraped : list Scraped.t)
    (w : world) :
  NoDup (map key_of (DB.tenders (store w))) ->
  NoDup (map key_of (DB.tenders (store (snd (process_scraped_tenders now scraped w))))).
Proof.
  intros Hnd.
  destruct (process_from_effect now scraped 0 w)
    as [added [evs [_ [_ [_ [_ [_ [_ [_ [_ [Hk _]]]]]]]]]]].
  rewrite process_scraped_unfold.
  destruct (process_from now scraped 0 w) as [[n|e] w1]; cbn [snd store] in *;
    now apply Hk.
Qed.

Lemma ingestion_keeps_keys_distinct_witness :
  NoDup (map key_of
           (DB.tenders (store (snd (process_scraped_tenders "2024-01-12 09:00:00"
                                      [sample_scraped "Road works" "tomorrow" "2024-03-01";
                                       sample_scraped "Road works" "2024/01/05" "";
                                       sample_scraped "Build ERP" "2024-01-10" "2024-03-01"]
                                      (mkworld one_waiting [])))))).
Proof.
  apply ingestion_keeps_keys_distinct.
  simpl. repeat constructor. intros [].
Defined.

(** After a run of the loop that returned, the key of every tender of the
    list is in the table. *)
Lemma keys_after_run (now : string) (scraped : list Scraped.t) :
  forall (n m : nat) (w w1 : world),
    process_from now scraped n w = (Ok m, w1) ->
    forall tender, In tender scraped ->
      exists ti,
        Scraped.title tender = Some ti
        /\ key_exists ti (date_text (Scraped.posted_date tender)) (store w1) = true.
Proof.
  induction scraped as [|c rest IH]; intros n m w w1 Hrun tender Hin; [destruct Hin|].
  cbn [process_from] in Hrun. unfold bind in Hrun.
  destruct (process_one now c w) as [[b|e] w0] eqn:Hone; [|discriminate Hrun].
  destruct Hin as [<-|Hin]; [|now apply (IH _ _ _ _ Hrun)].
  destruct (Scraped.title c) as [ti|] eqn:Ht.
  - exists ti. split; [reflexivity|].
    pose proof (process_one_key_after now c ti w Ht) as Hk. rewrite Hone in Hk.
    cbn [snd] in Hk.
    pose proof (process_from_keeps_keys now rest ti _ (if b then S n else n) w0 Hk) as Hk'.
    now rewrite Hrun in Hk'.
  - rewrite (process_one_no_title now c w Ht) in Hone. discriminate Hone.
Qed.

(** A list whose keys are all in the table is skipped entirely. *)
Lemma all_known_skipped (now : string) (scraped : list Scraped.t) :
  forall (n : nat) (w : world),
    (forall tender, In tender scraped ->
       exists ti,
         Scraped.title tender = Some ti
         /\ key_exists ti (date_text (Scraped.posted_date tender)) (store w) = true) ->
    exists evs,
      process_from now scraped n w = (Ok n, mkworld (store w) (log w ++ evs)).
Proof.
  induction scraped as [|c rest IH]; intros n w Hall.
  - exists []. cbn [process_from ret]. rewrite app_nil_r. now destruct w.
  - destruct (Hall c (or_introl eq_refl)) as [ti [Ht Hk]].
    cbn [process_from]. unfold bind.
    rewrite (process_one_spec now c ti w Ht), Hk.
    destruct (IH n (mkworld (store w) (log w ++ date_events c))) as [evs Hrest].
    { intros t Hin. cbn [store]. apply Hall. now right. }
    rewrite Hrest. cbn [store log]. exists (date_events c ++ evs).
    now rewrite app_assoc.
Qed.

Lemma sanitize_idempotent (d : option string) :
  date_text (sanitize d) = date_text d.
Proof.
  unfold date_text at 1. unfold sanitize at 1.
  destruct (is_valid_date (sanitize d)) eqn:E.
  - now rewrite sanitize_text.
  - rewrite sanitize_text in E. destruct (is_valid_date d) eqn:E'.
    + rewrite <- (date_text_valid d E') in E. congruence.
    + symmetry. now apply date_text_invalid.
Qed.

(** X18.  Ingesting the same scraped list again adds nothing.  After a run
    of [process_scraped_tenders] that returned, a second run over the same
    list, whether it is given the tenders as scraped or the dictionaries
    that the first run has validated in place, returns, prints 0 new
    tenders, and leaves the table as the first run made it. *)
Theorem reingestion_adds_nothing (now now' : string) (scraped : list Scraped.t)
    (w w1 : world) :
  process_scraped_tenders now scraped w = (Ok tt, w1) ->
  (exists evs,
     process_scraped_tenders now' scraped w1
     = (Ok tt, mkworld (store w1) (log w1 ++ evs ++ [Added 0])))
  /\ (exists evs,
        process_scraped_tenders now' (map sanitized scraped) w1
        = (Ok tt, mkworld (store w1) (log w1 ++ evs ++ [Added 0]))).
Proof.
  intros Hrun. rewrite process_scraped_unfold in Hrun.
  destruct (process_from now scraped 0 w) as [[n|e] w0] eqn:Hfrom; [|discriminate].
  injection Hrun as <-.
  pose proof (keys_after_run now scraped 0 n w w0 Hfrom) as Hkeys.
  split.
  - destruct (all_known_skipped now' scraped 0
                (mkworld (store w0) (log w0 ++ [Added n]))) as [evs Hskip].
    { intros t Hin. cbn [store]. now apply Hkeys. }
    exists evs. rewrite process_scraped_unfold, Hskip. cbn [store log].
    now rewrite <- app_assoc.
  - destruct (all_known_skipped now' (map sanitized scraped) 0
                (mkworld (store w0) (log w0 ++ [Added n]))) as [evs Hskip].
    { intros t Hin. cbn [store]. apply in_map_iff in Hin.
      destruct Hin as [t0 [<- Hin]]. destruct (Hkeys t0 Hin) as [ti [Ht Hk]].
      exists ti. unfold sanitized. cbn [Scraped.title Scraped.posted_date].
      split; [exact Ht|]. now rewrite sanitize_idempotent. }
    exists evs. rewrite process_scraped_unfold, Hskip. cbn [store log].
    now rewrite <- app_assoc.
Qed.

Lemma reingestion_adds_nothing_witness :
  exists evs,
    process_scraped_tenders "2024-01-13 09:00:00"
      [sample_scraped "Road works" "tomorrow" "2024-03-01";
       sample_scraped "Build ERP" "2024-01-10" "2024-03-01"]
      (snd (process_scraped_tenders "2024-01-12 09:00:00"
              [sample_scraped "Road works" "tomorrow" "2024-03-01";
               sample_scraped "Build ERP" "2024-01-10" "2024-03-01"]
              (mkworld DB.empty [])))
    = (Ok tt,
       mkworld
         (store (snd (process_scraped_tenders "2024-01-12 09:00:00"
                        [sample_scraped "Road works" "tomorrow" "2024-03-01";
                         sample_scraped "Build ERP" "2024-01-10" "2024-03-01"]
                        (mkworld DB.empty []))))
         (log (snd (process_scraped_tenders "2024-01-12 09:00:00"
                      [sample_scraped "Road works" "tomorrow" "2024-03-01";
                       sample_scraped "Build ERP" "2024-01-10" "2024-03-01"]
                      (mkworld DB.empty [])))
          ++ evs ++ [Added 0])).
Proof.
  apply (proj1 (reingestion_adds_nothing "2024-01-12 09:00:00" "2024-01-13 09:00:00"
                  [sample_scraped "Road works" "tomorrow" "2024-03-01";
                   sample_scraped "Build ERP" "2024-01-10" "2024-03-01"]
                  (mkworld DB.empty []) _ eq_refl)).
Defined.

(** ** The scraper node *)

Lemma titled_run_returns (now : string) (scraped : list Scraped.t) :
  Forall titled scraped ->
  forall (n : nat) (w : world),
    exists m w1, process_from now scraped n w = (Ok m, w1).
Proof.
  induction 1 as [|c rest Hc _ IH]; intros n w.
  - now exists n, w.
  - cbn [process_from]. unfold bind.
    destruct (Scraped.title c) as [ti|] eqn:Ht; [|now elim Hc].
    rewrite (process_one_spec now c ti w Ht).
    destruct (key_exists ti _ (store w)); apply IH.
Qed.

(** X19.  The scraper node never raises.  When the scraper raises or
    answers without success, the table is left as it was.  When it answers
    with success, the node ingests its tenders; a tender without a title
    ends the ingestion there: the tenders before it are stored, it and the
    tenders after it are not, and nothing is reported to the workflow. *)
Theorem scraper_node_contains_failures (now : string)
    (scraper : result scraper_response) (w : world) :
  exists w',
    scraper_node now scraper w = (Ok tt, w')
    /\ (forall e, scraper = Raise e -> w' = w)
    /\ (forall response, scraper = Ok response -> success response = false -> w' = w)
    /\ (forall response, scraper = Ok response -> success response = true ->
          w' = snd (process_scraped_tenders now (tenders_or_empty response) w))
    /\ (forall response good bad rest,
          scraper = Ok response -> success response = true ->
          tenders_or_empty response = good ++ bad :: rest ->
          Forall titled good ->
          Scraped.title bad = None ->
          store w' = store (snd (process_from now good 0 w))).
Proof.
  unfold scraper_node, catch, bind, lift, ret.
  destruct scraper as [response|e].
  - destruct (success response) eqn:Hs.
    + assert (Hw : exists w',
                (match process_scraped_tenders now (tenders_or_empty response) w with
                 | (Ok a, w'0) => (Ok a, w'0)
                 | (Raise _, w'0) => (Ok tt, w'0)
                 end) = (Ok tt, w')
                /\ w' = snd (process_scraped_tenders now (tenders_or_empty response) w)).
      { destruct (process_scraped_tenders now _ w) as [[[]|e] w1]; eexists; split;
          reflexivity. }
      destruct Hw as [w' [Hrun Hw']]. exists w'. split; [exact Hrun|].
      split; [discriminate|]. split; [intros r H; injection H as <-; congruence|].
      split; [intros r H _; now injection H as <-|].
      intros r good bad rest H _ Hts Hgood Hbad. injection H as <-.
      rewrite Hw', Hts, process_scraped_unfold, process_from_app.
      destruct (titled_run_returns now good Hgood 0 w) as [m [w1 Hrun1]].
      rewrite Hrun1. cbn [process_from snd]. unfold bind.
      now rewrite (process_one_no_title now bad w1 Hbad).
    + exists w. split; [reflexivity|]. split; [discriminate|].
      split; [reflexivity|]. split.
      * intros r H Hs'. injection H as <-. congruence.
      * intros r good bad rest H Hs'. injection H as <-. congruence.
  - exists w. split; [reflexivity|]. split; [reflexivity|].
    repeat split; discriminate.
Qed.

Lemma scraper_node_contains_failures_witness :
  exists w',
    scraper_node "2024-01-12 09:00:00"
      (Ok (mk_response true
             (Some [sample_scraped "Road works" "2024-01-10" "2024-03-01";
                    Scraped.mk None None None None None None None None;
                    sample_scraped "Build ERP" "2024-01-10" "2024-03-01"])))
      (mkworld DB.empty [])
    = (Ok tt, w')
    /\ map DB.title (DB.tenders (store w')) = [VText "Road works"].
Proof.
  destruct (scraper_node_contains_failures "2024-01-12 09:00:00"
              (Ok (mk_response true
                     (Some [sample_scraped "Road works" "2024-01-10" "2024-03-01";
                            Scraped.mk None None None None None None None None;
                            sample_scraped "Build ERP" "2024-01-10" "2024-03-01"])))
              (mkworld DB.empty []))
    as [w' [Hrun [_ [_ [_ Hpart]]]]].
  exists w'. split; [exact Hrun|].
  rewrite (Hpart _ [sample_scraped "Road works" "2024-01-10" "2024-03-01"]
             (Scraped.mk None None None None None None None None)
             [sample_scraped "Build ERP" "2024-01-10" "2024-03-01"]
             eq_refl eq_refl eq_refl).
  - reflexivity.
  - repeat constructor. discriminate.
  - reflexivity.
Defined.

(** ** The workflow *)









(** ** Dates in canonical form *)

Lemma digit_char_digit (n : nat) :
  (n < 10)%nat -> is_digit (digit_char n) = true /\ digit (digit_char n) = n.
Proof.
  intros H. do 10 (destruct n as [|n]; [split; reflexivity|]). lia.
Qed.

Lemma year_digits (y : nat) :
  (Z.of_nat y <= 9999)%Z ->
  (y / 1000 < 10)%nat
  /\ (1000 * (y / 1000) + 100 * (y / 100 mod 10) + 10 * (y / 10 mod 10) + y mod 10 = y)%nat.
Proof.
  intros H.
  pose proof (Nat.div_mod_eq y 10) as H1.
  pose proof (Nat.div_mod_eq (y / 10) 10) as H2.
  pose proof (Nat.div_mod_eq (y / 100) 10) as H3.
  replace (y / 10 / 10)%nat with (y / 100)%nat in H2
    by (now rewrite Nat.Div0.div_div).
  replace (y / 100 / 10)%nat with (y / 1000)%nat in H3
    by (now rewrite Nat.Div0.div_div).
  split; [|lia].
  apply Nat.Div0.div_lt_upper_bound. lia.
Qed.

Lemma re_year_padded {A} (y : nat) (rest : string) (k : nat -> string -> option A) :
  (Z.of_nat y <= 9999)%Z ->
  re_year (String (digit_char (y / 1000))
             (String (digit_char (y / 100 mod 10))
                (String (digit_char (y / 10 mod 10))
                   (String (digit_char (y mod 10)) rest)))) k
  = k y rest.
Proof.
  intros H. destruct (year_digits y H) as [Hlt Hsum].
  destruct (digit_char_digit (y / 1000) Hlt) as [Ha Ha'].
  destruct (digit_char_digit (y / 100 mod 10)) as [Hb Hb'];
    [apply Nat.mod_upper_bound; discriminate|].
  destruct (digit_char_digit (y / 10 mod 10)) as [Hc Hc'];
    [apply Nat.mod_upper_bound; discriminate|].
  destruct (digit_char_digit (y mod 10)) as [Hd Hd'];
    [apply Nat.mod_upper_bound; discriminate|].
  cbn [re_year]. rewrite Ha, Hb, Hc, Hd, Ha', Hb', Hc', Hd'. cbn [andb].
  now rewrite Hsum.
Qed.

Lemma date_ok_bounds (y m d : nat) :
  date_ok y m d = true ->
  (1 <= y /\ 1 <= m <= 12 /\ 1 <= d <= 31)%nat.
Proof.
  unfold date_ok. rewrite !andb_true_iff, !Nat.leb_le.
  intros [[[[Hy Hm1] Hm2] Hd1] Hd2].
  assert (days_in_month y m <= 31)%nat.
  { unfold days_in_month.
    do 13 (destruct m as [|m]; [try destruct (is_leap y); lia|]). lia. }
  lia.
Qed.

Lemma re_match_padded (y m d : nat) :
  (Z.of_nat y <= 9999)%Z -> (1 <= m <= 12)%nat -> (1 <= d <= 31)%nat ->
  re_match_ymd (iso_text y m d) = Some (y, m, d, "").
Proof.
  intros Hy Hm Hd. unfold re_match_ymd, iso_text.
  rewrite (re_year_padded y _ _ Hy).
  destruct m as [|m]; [lia|]. destruct d as [|d]; [lia|].
  do 12 (destruct m as [|m];
         [do 31 (destruct d as [|d]; [reflexivity|]); lia|]).
  lia.
Qed.

(** X21.  Every date of the calendar, years 1 to 9999, written as
    YYYY-MM-DD with each number padded to its width, is accepted by
    [is_valid_date], and [strptime] reads back the date that was written.
    So two such texts are equal only for the same date, and the ingestion
    loop stores such a date text as it is. *)
Theorem canonical_dates_accepted (y m d : nat) :
  (Z.of_nat y <= 9999)%Z ->
  date_ok y m d = true ->
  strptime_ymd (iso_text y m d) = Ok (y, m, d)
  /\ is_valid_date (Some (iso_text y m d)) = true
  /\ date_text (Some (iso_text y m d)) = iso_text y m d
  /\ (forall y' m' d', (Z.of_nat y' <= 9999)%Z -> date_ok y' m' d' = true ->
        iso_text y' m' d' = iso_text y m d -> (y', m', d') = (y, m, d)).
Proof.
  intros Hy Hok.
  assert (Hread : forall y m d, (Z.of_nat y <= 9999)%Z -> date_ok y m d = true ->
                    strptime_ymd (iso_text y m d) = Ok (y, m, d)).
  { clear. intros y m d Hy Hok.
    destruct (date_ok_bounds y m d Hok) as [_ [Hm Hd]].
    unfold strptime_ymd. rewrite (re_match_padded y m d Hy Hm Hd).
    cbn [String.eqb negb]. now rewrite Hok. }
  assert (Hvalid : is_valid_date (Some (iso_text y m d)) = true).
  { unfold is_valid_date. rewrite (Hread y m d Hy Hok). reflexivity. }
  split; [now apply Hread|]. split; [exact Hvalid|]. split.
  - pose proof (date_text_valid _ Hvalid) as H. now injection H as <-.
  - intros y' m' d' Hy' Hok' Heq.
    pose proof (Hread y' m' d' Hy' Hok') as H'. rewrite Heq, (Hread y m d Hy Hok) in H'.
    now injection H' as -> -> ->.
Qed.

Lemma canonical_dates_accepted_witness :
  strptime_ymd "2024-02-29" = Ok (2024, 2, 29)%nat
  /\ is_valid_date (Some "2024-02-29") = true.
Proof.
  assert (Hy : (Z.of_nat 2024 <= 9999)%Z) by (vm_compute; discriminate).
  destruct (canonical_dates_accepted 2024 2 29 Hy eq_refl) as [H1 [H2 _]].
  split; [exact H1 | exact H2].
Defined.
